(** * Real-time stock pipeline: a shallow embedding of the extraction core

    The development follows the Python sources file by file: the retrying,
    rate-limited HTTP client ([api_client.py]), the response parsers
    ([updated_yahoo_client.py]), the extractors, the transform stages, the
    scheduler's job store and the monitor's alert store
    ([data_pipeline/*.py]).

    Conventions.
    - A Python exception is a value of [exn]; a call that may raise returns
      [result A].
    - JSON-shaped Python data is [pyval]; a Python [float] is a binary64
      primitive float; a Python [int] is a [Z].
    - A [Dict[str, Any]] record handled by the transform stages is a
      [gmap string pyval]; JSON objects nested in a payload keep their
      key order in an association list.
    - Strings are byte strings; [strip] and [upper] act on the ASCII range,
      bytes above 127 are left as they are.
    - Wall-clock seconds ([time.time()]) are rationals; [datetime] values are
      integer microseconds. *)

From stdpp Require Import gmap strings list fin_maps pretty.
From Stdlib Require Import Ascii QArith Lqa PrimFloat Floats Sorted.

Open Scope Z_scope.
Set Warnings "-register-all,-inexact-float".

(* ===================================================================== *)
(** * Python values, exceptions and a few built-ins                        *)
(* ===================================================================== *)

Module Py.

(** The exception classes that the modelled code raises or catches. *)
Inductive exn :=
| ValidationError        (* pydantic *)
| TypeError
| AttributeError
| ValueError
| KeyError
| IndexError
| OverflowError
| OSError
| HTTPError              (* requests.exceptions, a RequestException *)
| ConnectionError        (* requests.exceptions, a RequestException *)
| APIError
| RateLimitError         (* subclass of APIError *)
| AuthenticationError    (* subclass of APIError *)
| RetryError.            (* tenacity *)

Inductive result (A : Type) :=
| Ok (a : A)
| Raise (e : exn).
Arguments Ok {A} a.
Arguments Raise {A} e.

Definition bind {A B} (r : result A) (k : A -> result B) : result B :=
  match r with
  | Ok a => k a
  | Raise e => Raise e
  end.

Definition is_ok {A} (r : result A) : bool :=
  match r with Ok _ => true | Raise _ => false end.

(** A call that returns or raises [ValidationError], nothing else. *)
Definition only_validation {A} (r : result A) : Prop :=
  match r with
  | Ok _ => True
  | Raise e => e = ValidationError
  end.

#[global] Instance result_bind : MBind result := fun A B k r => bind r k.
#[global] Instance result_ret : MRet result := fun A a => Ok a.

(** JSON-shaped values, as [response.json()] produces them. *)
Inductive pyval :=
| PNone
| PBool (b : bool)
| PInt (z : Z)
| PFloat (f : float)
| PStr (s : string)
| PList (l : list pyval)
| PDict (d : list (string * pyval)).

Definition is_None (v : pyval) : bool :=
  match v with PNone => true | _ => false end.

(** Python truthiness, as used by [x or y] and [if x]. *)
Definition truthy (v : pyval) : bool :=
  match v with
  | PNone => false
  | PBool b => b
  | PInt z => negb (z =? 0)
  | PFloat f => negb (PrimFloat.eqb f 0%float)
  | PStr s => negb (String.eqb s "")
  | PList l => match l with [] => false | _ => true end
  | PDict d => match d with [] => false | _ => true end
  end.

Definition py_or (a b : pyval) : pyval := if truthy a then a else b.

(** [d.get(k)] on an association list; the first binding wins (keys of a
    parsed JSON object are unique). *)
Fixpoint assoc_get (d : list (string * pyval)) (k : string) : option pyval :=
  match d with
  | [] => None
  | (k', v) :: d' => if String.eqb k' k then Some v else assoc_get d' k
  end.

(** [x.get(k)]: a dict answers, anything else has no [get]. *)
Definition get (x : pyval) (k : string) : result pyval :=
  match x with
  | PDict d => Ok (default PNone (assoc_get d k))
  | _ => Raise AttributeError
  end.

Definition get_default (x : pyval) (k : string) (dflt : pyval) : result pyval :=
  match x with
  | PDict d => Ok (default dflt (assoc_get d k))
  | _ => Raise AttributeError
  end.

(** [k in x] for a string [k]. *)
Definition contains (k : string) (x : pyval) : result bool :=
  match x with
  | PDict d => Ok (bool_decide (is_Some (assoc_get d k)))
  | PList l => Ok (existsb (fun v => match v with PStr s => String.eqb s k | _ => false end) l)
  | PStr s => Ok (bool_decide (is_Some (String.index 0 k s)))
  | _ => Raise TypeError
  end.

(** [x[k]] for a string [k]. *)
Definition getitem (x : pyval) (k : string) : result pyval :=
  match x with
  | PDict d => match assoc_get d k with Some v => Ok v | None => Raise KeyError end
  | _ => Raise TypeError
  end.

(** ** Strings *)

(** [str.isspace] on the ASCII range: TAB..CR, FS..US and space. *)
Definition is_space (c : ascii) : bool :=
  let n := Z.of_N (N_of_ascii c) in
  ((9 <=? n) && (n <=? 13)) || ((28 <=? n) && (n <=? 32)).

Definition upper_char (c : ascii) : ascii :=
  let n := N_of_ascii c in
  if ((97 <=? n) && (n <=? 122))%N then ascii_of_N (n - 32) else c.

Fixpoint upper (s : string) : string :=
  match s with
  | EmptyString => EmptyString
  | String c s' => String (upper_char c) (upper s')
  end.

Fixpoint lstrip (s : string) : string :=
  match s with
  | EmptyString => EmptyString
  | String c s' => if is_space c then lstrip s' else s
  end.

Fixpoint rstrip (s : string) : string :=
  match s with
  | EmptyString => EmptyString
  | String c s' =>
      match rstrip s' with
      | EmptyString => if is_space c then EmptyString else String c EmptyString
      | r => String c r
      end
  end.

Definition strip (s : string) : string := rstrip (lstrip s).

(** A string that does not start with white space. *)
Definition no_lead (s : string) : Prop :=
  match s with
  | EmptyString => True
  | String c _ => is_space c = false
  end.

(** [s.replace(c, "")] for a one-character pattern. *)
Fixpoint remove_char (c : ascii) (s : string) : string :=
  match s with
  | EmptyString => EmptyString
  | String c' s' =>
      if Ascii.eqb c' c then remove_char c s' else String c' (remove_char c s')
  end.

(** ** Numbers *)

(** [float(z)] for an [int]: the correctly rounded binary64 value, or
    [OverflowError] when it is out of range. *)
Definition float_of_int (z : Z) : result float :=
  let f := SF2Prim (binary_normalize prec emax z 0 false) in
  if PrimFloat.is_infinity f then Raise OverflowError else Ok f.

(** [a / b] on two [int]s (true division): up to [2 ^ 53] in absolute
    value CPython converts both operands and divides the two floats, as
    here. *)
Definition true_div (a b : Z) : float :=
  (SF2Prim (binary_normalize prec emax a 0 false)
   / SF2Prim (binary_normalize prec emax b 0 false))%float.

(** A shift record of the rounding of [N / D] that stands, after [k] right
    shifts, for that quotient: its mantissa is the integer part of
    [N / (D * 2 ^ k)], its two bits place the remainder against the half. *)
Definition stands_for (N D k : Z) (mrs : shr_record) : Prop :=
  let W := D * 2 ^ k in
  shr_m mrs = N / W /\
  shr_r mrs = (W <=? 2 * (N mod W)) /\
  shr_s mrs = negb ((N mod W =? 0) || (2 * (N mod W) =? W)).

(** What the interpreter and pydantic contribute and the repository does
    not define: parsing a string as a float, the text of a non-string
    value, format specifications, [datetime.fromtimestamp], and pydantic's
    lax coercion of a field value to [float], [int] and to the
    [Union[int, str, datetime]] of a quote timestamp.
    Results proved under a [Runtime] hold for every such behaviour. *)
Class Runtime := {
  float_of_str : string -> option float;   (* [None]: ValueError *)
  repr : pyval -> string;                  (* [str(v)] of a non-string *)
  format : pyval -> string -> string;      (* [format(v, spec)] *)
  fromtimestamp : pyval -> result Z;
  coerce_float : pyval -> option float;    (* [None]: ValidationError *)
  coerce_int : pyval -> option Z;
  coerce_timestamp : pyval -> option pyval
}.

(** [str(v)] *)
Definition str `{RT : Runtime} (v : pyval) : string :=
  match v with
  | PStr s => s
  | _ => repr v
  end.

End Py.

(* ===================================================================== *)
(** * api_client.py: rate limiter and retrying request                     *)
(* ===================================================================== *)

Module api_client.
Import Py.

(** ** RateLimiter *)

Record RateLimiter := {
  requests_per_minute : Z;
  burst : Z;
  requests : list Q         (* [time.time()] of the recorded requests *)
}.

(** [RateLimiter.__init__] *)
Definition RateLimiter_init (rpm burst : Z) : RateLimiter :=
  {| requests_per_minute := rpm; burst := burst; requests := [] |}.

Definition newer_than (bound t : Q) : bool :=
  if Qlt_le_dec bound t then true else false.

(** [RateLimiter.wait_if_needed], called when the clock reads [now].
    The result carries the seconds slept, if the call slept. *)
Definition wait_if_needed (now : Q) (self : RateLimiter)
  : result (option Q * RateLimiter) :=
  let minute_ago := (now - 60)%Q in
  let reqs := List.filter (newer_than minute_ago) (requests self) in
  let record (slept : option Q) (l : list Q) :=
    Ok (slept, {| requests_per_minute := requests_per_minute self;
                  burst := burst self;
                  requests := l ++ [now] |}) in
  if Z.of_nat (length reqs) >=? requests_per_minute self then
    match reqs with
    | [] => Raise IndexError                      (* [self.requests[0]] *)
    | oldest :: rest =>
        let sleep_time := (60 - (now - oldest))%Q in
        if Qlt_le_dec 0 sleep_time
        then record (Some sleep_time) rest        (* sleep, then [pop(0)] *)
        else record None reqs
    end
  else record None reqs.

(** [RateLimiter.async_wait_if_needed]: the same statements, run while
    holding [self.lock]. *)
Definition async_wait_if_needed (now : Q) (self : RateLimiter)
  : result (option Q * RateLimiter) :=
  let minute_ago := (now - 60)%Q in
  let reqs := List.filter (newer_than minute_ago) (requests self) in
  let record (slept : option Q) (l : list Q) :=
    Ok (slept, {| requests_per_minute := requests_per_minute self;
                  burst := burst self;
                  requests := l ++ [now] |}) in
  if Z.of_nat (length reqs) >=? requests_per_minute self then
    match reqs with
    | [] => Raise IndexError
    | oldest :: rest =>
        let sleep_time := (60 - (now - oldest))%Q in
        if Qlt_le_dec 0 sleep_time
        then record (Some sleep_time) rest
        else record None reqs
    end
  else record None reqs.

(** A sequence of acquisitions; [nows] lists the clock reading taken by
    each call, [async] tells which entry point each call uses. *)
Fixpoint acquire_all (calls : list (bool * Q)) (self : RateLimiter)
  : result RateLimiter :=
  match calls with
  | [] => Ok self
  | (async, now) :: calls' =>
      bind ((if async : bool then async_wait_if_needed else wait_if_needed) now self)
           (fun r => acquire_all calls' (snd r))
  end.


(** ** The request path *)

Inductive header :=
| Absent
| IntText (z : Z)        (* the header holds an integer *)
| LongText (z : Z)       (* an integer the platform refuses to sleep *)
| OtherText.             (* the header holds something [int()] rejects *)

Record Response := {
  status_code : Z;
  retry_after : header;
  payload : option pyval          (* [None]: the body is not JSON *)
}.

(** What [requests.request] does on one attempt. *)
Inductive wire :=
| Answered (r : Response)
| Failed.                 (* a RequestException: connection error, timeout *)

Inductive event :=
| Throttled (slept : option Q)   (* rate limiter consulted *)
| Sent                            (* [requests.request] called *)
| Slept (seconds : Z)             (* [time.sleep(retry_after)] *)
| Backoff (attempt_number : nat). (* tenacity waits before the next attempt *)

Definition is_sent (e : event) : bool :=
  match e with Sent => true | _ => false end.

(** Number of HTTP requests issued in a trace. *)
Definition sent (tr : list event) : nat := length (List.filter is_sent tr).

(** [except requests.exceptions.RequestException] *)
Definition is_RequestException (e : exn) : bool :=
  match e with HTTPError | ConnectionError => true | _ => false end.

(** [response.raise_for_status()] *)
Definition raise_for_status (r : Response) : result unit :=
  if (400 <=? status_code r) && (status_code r <? 600)
  then Raise HTTPError else Ok tt.

(** What [time.sleep(seconds)] checks on an [int] before it sleeps: a
    length outside the range of the interpreter's nanosecond clock raises
    [OverflowError], a negative one [ValueError]. A length that passes may
    still be refused by the platform, when the deadline leaves the range
    of its clock ([OSError]); whether it is depends on the uptime, so a
    header says which case it is ([LongText]). *)
Definition sleep_check (seconds : Z) : result unit :=
  if (seconds <? -9223372036) || (9223372036 <? seconds) then Raise OverflowError
  else if seconds <? 0 then Raise ValueError
  else Ok tt.

(** A [Retry-After] with which the 429 branch sleeps and goes on to
    [raise RateLimitError]. *)
Definition sleepable (h : header) : bool :=
  match h with
  | Absent => true
  | IntText z => is_ok (sleep_check z)
  | LongText _ | OtherText => false
  end.

(** The statements of the [try] block of [_make_request], after
    [requests.request] has returned or raised. *)
Definition try_block (w : wire) : result Response * list event :=
  match w with
  | Failed => (Raise ConnectionError, [Sent])
  | Answered r =>
      if status_code r =? 429 then
        match retry_after r with
        | Absent => (Raise RateLimitError, [Sent; Slept 60])
        | IntText z =>
            match sleep_check z with
            | Ok _ => (Raise RateLimitError, [Sent; Slept z])
            | Raise e => (Raise e, [Sent])
            end
        | LongText z =>
            match sleep_check z with
            | Ok _ => (Raise OSError, [Sent])
            | Raise e => (Raise e, [Sent])
            end
        | OtherText => (Raise ValueError, [Sent])
        end
      else if status_code r =? 401 then (Raise AuthenticationError, [Sent])
      else
        match raise_for_status r with
        | Raise e => (Raise e, [Sent])
        | Ok _ => (Ok r, [Sent])
        end
  end.

(** The body of [_make_request]: one attempt. *)
Definition attempt (now : Q) (w : wire) (rl : RateLimiter)
  : result Response * RateLimiter * list event :=
  match wait_if_needed now rl with
  | Raise e => (Raise e, rl, [])
  | Ok (slept, rl') =>
      let '(r, evs) := try_block w in
      let r' := match r with
                | Raise e => if is_RequestException e then Raise APIError else Raise e
                | Ok x => Ok x
                end in
      (r', rl', Throttled slept :: evs)
  end.

(** [retry_if_exception_type((RequestException, RateLimitError))] *)
Definition retry_if_exception_type (e : exn) : bool :=
  is_RequestException e ||
  match e with RateLimitError => true | _ => false end.

(** The tenacity loop around the body. [left] is the number of attempts
    that [stop_after_attempt] still allows after the current one;
    [world n] is the clock reading and the outcome of the transport at
    attempt [n]. *)
Fixpoint retrying (left : nat) (attempt_number : nat)
    (world : nat -> Q * wire) (rl : RateLimiter)
  : result Response * RateLimiter * list event :=
  let '(now, w) := world attempt_number in
  let '(r, rl', evs) := attempt now w rl in
  match r with
  | Ok x => (Ok x, rl', evs)
  | Raise e =>
      if retry_if_exception_type e then
        match left with
        | O => (Raise RetryError, rl', evs)
        | S left' =>
            let '(r2, rl2, evs2) := retrying left' (S attempt_number) world rl' in
            (r2, rl2, evs ++ Backoff attempt_number :: evs2)
        end
      else (Raise e, rl', evs)
  end.

(** [BaseAPIClient._make_request] under
    [@retry(stop=stop_after_attempt(max_retries), ...)]. *)
Definition _make_request (max_retries : Z) (world : nat -> Q * wire)
    (rl : RateLimiter) : result Response * RateLimiter * list event :=
  retrying (Z.to_nat (max_retries - 1)) 1%nat world rl.

End api_client.

(* ===================================================================== *)
(** * data_pipeline/models.py and stocks_models.py                         *)
(* ===================================================================== *)

Module models.
Import Py.

Inductive DataSourceType :=
| MARKET_TICKERS | STOCK_QUOTES | STOCK_HISTORY
| MARKET_SCREENERS | STOCK_NEWS | STOCK_MODULES.

(** The [value] of an enum member. *)
Definition DataSourceType_value (d : DataSourceType) : string :=
  match d with
  | MARKET_TICKERS => "market_tickers"
  | STOCK_QUOTES => "stock_quotes"
  | STOCK_HISTORY => "stock_history"
  | MARKET_SCREENERS => "market_screeners"
  | STOCK_NEWS => "stock_news"
  | STOCK_MODULES => "stock_modules"
  end.

(** pydantic validating a string against the enum. *)
Definition DataSourceType_of_string (s : string) : result DataSourceType :=
  if String.eqb s "market_tickers" then Ok MARKET_TICKERS
  else if String.eqb s "stock_quotes" then Ok STOCK_QUOTES
  else if String.eqb s "stock_history" then Ok STOCK_HISTORY
  else if String.eqb s "market_screeners" then Ok MARKET_SCREENERS
  else if String.eqb s "stock_news" then Ok STOCK_NEWS
  else if String.eqb s "stock_modules" then Ok STOCK_MODULES
  else Raise ValidationError.

Inductive PipelineStatus := PENDING | RUNNING | COMPLETED | FAILED | CANCELLED.

Inductive DataQualityStatus := VALID | WARNING | ERROR | UNKNOWN.

(** [PipelineJob]; timing fields other than [created_at] are left out. *)
Record PipelineJob := {
  job_id : string;
  job_type : string;
  status : PipelineStatus;
  data_source : DataSourceType;
  created_at : Z;                 (* microseconds *)
  total_items : option Z;
  processed_items : Z;
  failed_items : Z;
  error_message : option string
}.

Record DataQualityCheck := {
  check_id : string;
  check_data_source : DataSourceType;
  check_type : string;
  check_status : DataQualityStatus;
  message : string;
  record_count : Z;                       (* details["record_count"] *)
  detail_fields : list string;            (* details["missing_fields"] *)
  detail_percentage : option float        (* details["missing_percentage"] *)
}.

Record Alert := {
  alert_id : string;
  alert_type : string;
  severity : string;
  title : string;
  alert_message : string;
  alert_data_source : option DataSourceType;
  alert_job_id : option string
}.

(** [PipelineSchedule]; [next_run] and [timezone] are never read. *)
Record PipelineSchedule := {
  schedule_id : string;
  schedule_data_source : DataSourceType;
  cron_expression : string;
  enabled : bool;
  last_run : option Z                     (* microseconds *)
}.

(** [PipelineMetrics]; the processing time and the readings of [psutil]
    are left out. *)
Record PipelineMetrics := {
  metrics_job_id : string;
  metrics_data_source : DataSourceType;
  records_processed : Z;
  records_failed : Z;
  data_quality_score : option float
}.

(** ** pydantic field validation over keyword arguments *)

Definition as_str (v : pyval) : option string :=
  match v with PStr s => Some s | _ => None end.

(** A required field. *)
Definition required {A} (validate : pyval -> option A)
    (kw : list (string * pyval)) (k : string) : result A :=
  match assoc_get kw k with
  | None => Raise ValidationError
  | Some v => match validate v with
              | Some a => Ok a
              | None => Raise ValidationError
              end
  end.

(** An [Optional[...] = None] field: absent and [None] both give [None]. *)
Definition optional {A} (validate : pyval -> option A)
    (kw : list (string * pyval)) (k : string) : result (option A) :=
  match assoc_get kw k with
  | None | Some PNone => Ok None
  | Some v => match validate v with
              | Some a => Ok (Some a)
              | None => Raise ValidationError
              end
  end.

(** A field with a default: absent gives the default, anything present is
    validated ([None] is not a valid [str]). *)
Definition defaulted {A} (validate : pyval -> option A) (dflt : A)
    (kw : list (string * pyval)) (k : string) : result A :=
  match assoc_get kw k with
  | None => Ok dflt
  | Some v => match validate v with
              | Some a => Ok a
              | None => Raise ValidationError
              end
  end.

(** [{k: v for k, v in d.items() if v is not None}] *)
Definition drop_none (d : list (string * pyval)) : list (string * pyval) :=
  List.filter (fun kv => negb (is_None (snd kv))) d.

End models.

Module stocks_models.
Import Py models.

Module Stock.
Record t := {
  symbol : string;
  name : option string;
  exchange : option string;
  sector : option string;
  industry : option string;
  market_cap : option float;
  currency : string;
  country : option string;
  website : option string;
  description : option string
}.
End Stock.

(** [Stock] built from keyword arguments [kw]. *)
Definition Stock_init `{RT : Runtime} (kw : list (string * pyval)) : result Stock.t :=
  symbol ← required as_str kw "symbol";
  name ← optional as_str kw "name";
  exchange ← optional as_str kw "exchange";
  sector ← optional as_str kw "sector";
  industry ← optional as_str kw "industry";
  market_cap ← optional coerce_float kw "market_cap";
  currency ← defaulted as_str "USD" kw "currency";
  country ← optional as_str kw "country";
  website ← optional as_str kw "website";
  description ← optional as_str kw "description";
  Ok {| Stock.symbol := symbol; Stock.name := name; Stock.exchange := exchange;
        Stock.sector := sector; Stock.industry := industry;
        Stock.market_cap := market_cap; Stock.currency := currency;
        Stock.country := country; Stock.website := website;
        Stock.description := description |}.

Module StockQuote.
Record t := {
  symbol : string;
  name : option string;
  price : option float;
  previous_close : option float;
  open : option float;
  high : option float;
  low : option float;
  volume : option Z;
  market_cap : option float;
  pe_ratio : option float;
  dividend_yield : option float;
  change : option float;
  change_percent : option float;
  currency : string;
  exchange : option string;
  quote_type : option string;
  timestamp : option pyval
}.
End StockQuote.

(** [StockQuote] built from keyword arguments [kw]. *)
Definition StockQuote_init `{RT : Runtime} (kw : list (string * pyval))
  : result StockQuote.t :=
  symbol ← required as_str kw "symbol";
  name ← optional as_str kw "name";
  price ← optional coerce_float kw "price";
  previous_close ← optional coerce_float kw "previous_close";
  open ← optional coerce_float kw "open";
  high ← optional coerce_float kw "high";
  low ← optional coerce_float kw "low";
  volume ← optional coerce_int kw "volume";
  market_cap ← optional coerce_float kw "market_cap";
  pe_ratio ← optional coerce_float kw "pe_ratio";
  dividend_yield ← optional coerce_float kw "dividend_yield";
  change ← optional coerce_float kw "change";
  change_percent ← optional coerce_float kw "change_percent";
  currency ← defaulted as_str "USD" kw "currency";
  exchange ← optional as_str kw "exchange";
  quote_type ← optional as_str kw "quote_type";
  timestamp ← optional coerce_timestamp kw "timestamp";
  Ok {| StockQuote.symbol := symbol; StockQuote.name := name;
        StockQuote.price := price; StockQuote.previous_close := previous_close;
        StockQuote.open := open; StockQuote.high := high; StockQuote.low := low;
        StockQuote.volume := volume; StockQuote.market_cap := market_cap;
        StockQuote.pe_ratio := pe_ratio;
        StockQuote.dividend_yield := dividend_yield;
        StockQuote.change := change;
        StockQuote.change_percent := change_percent;
        StockQuote.currency := currency; StockQuote.exchange := exchange;
        StockQuote.quote_type := quote_type;
        StockQuote.timestamp := timestamp |}.

(** [APIResponse], with the fields the extractors read. *)
Record APIResponse := {
  success : bool;
  data : pyval;                (* [None] is [PNone] *)
  error : option string
}.

End stocks_models.

(* ===================================================================== *)
(** * updated_yahoo_client.py: client wrapper and response parsers         *)
(* ===================================================================== *)

Module updated_yahoo_client.
Import Py models stocks_models.

(** [UpdatedYahooFinanceAPIClient._make_api_call], given what
    [self.get(...)] returned or raised. *)
Definition _make_api_call (r : result api_client.Response) : APIResponse :=
  match r with
  | Ok response =>
      if api_client.status_code response =? 200 then
        match api_client.payload response with
        | Some d => {| success := true; data := d; error := None |}
        | None => {| success := false; data := PNone; error := Some "invalid JSON" |}
        end
      else {| success := false; data := PNone; error := Some "HTTP error" |}
  | Raise e => {| success := false; data := PNone; error := Some "exception" |}
  end.

(** The loop shared by the [parse_*_response] functions: an element whose
    parse raises [ValidationError] is skipped, any other exception leaves
    the loop. *)
Fixpoint parse_each {A} (parse_one : pyval -> result A) (body : list pyval)
  : result (list A) :=
  match body with
  | [] => Ok []
  | x :: body' =>
      match parse_one x with
      | Ok a => rest ← parse_each parse_one body'; Ok (a :: rest)
      | Raise ValidationError => parse_each parse_one body'
      | Raise e => Raise e
      end
  end.

(** [parse_ticker_data] *)
Definition parse_ticker_data `{RT : Runtime} (ticker_data : pyval) : result Stock.t :=
  market_cap ← get ticker_data "marketCap";
  let market_cap :=
    match market_cap with
    | PStr s =>
        if truthy market_cap then
          match float_of_str (remove_char "," s) with
          | Some f => PFloat f
          | None => PNone
          end
        else market_cap
    | _ => market_cap
    end in
  symbol ← get ticker_data "symbol";
  name ← get ticker_data "name";
  exchange ← get ticker_data "exchange";
  sector ← get ticker_data "sector";
  industry ← get ticker_data "industry";
  currency ← get ticker_data "currency";
  country ← get ticker_data "country";
  website ← get ticker_data "website";
  description ← get ticker_data "description";
  let parsed_data :=
    [("symbol", symbol); ("name", name); ("exchange", exchange);
     ("sector", sector); ("industry", industry); ("market_cap", market_cap);
     ("currency", currency); ("country", country); ("website", website);
     ("description", description)] in
  Stock_init (drop_none parsed_data).

(** [parse_tickers_response] *)
Definition parse_tickers_response `{RT : Runtime} (response_data : pyval)
  : result (list Stock.t) :=
  has_body ← contains "body" response_data;
  if has_body : bool then
    body ← getitem response_data "body";
    match body with
    | PList l => parse_each parse_ticker_data l
    | _ => Ok []
    end
  else Ok [].

(** [parse_quote_data] *)
Definition parse_quote_data `{RT : Runtime} (quote_data : pyval)
  : result StockQuote.t :=
  symbol ← get quote_data "symbol";
  longName ← get quote_data "longName";
  name ← (if truthy longName then Ok longName else get quote_data "shortName");
  price ← get quote_data "regularMarketPrice";
  previous_close ← get quote_data "regularMarketPreviousClose";
  open ← get quote_data "regularMarketOpen";
  high ← get quote_data "regularMarketDayHigh";
  low ← get quote_data "regularMarketDayLow";
  volume ← get quote_data "regularMarketVolume";
  market_cap ← get quote_data "marketCap";
  pe_ratio ← get quote_data "trailingPE";
  dividend_yield ← get quote_data "dividendYield";
  change ← get quote_data "regularMarketChange";
  change_percent ← get quote_data "regularMarketChangePercent";
  currency ← get_default quote_data "currency" (PStr "USD");
  exchange ← get quote_data "fullExchangeName";
  quote_type ← get quote_data "quoteType";
  timestamp ← get quote_data "regularMarketTime";
  let parsed_data :=
    [("symbol", symbol); ("name", name); ("price", price);
     ("previous_close", previous_close); ("open", open); ("high", high);
     ("low", low); ("volume", volume); ("market_cap", market_cap);
     ("pe_ratio", pe_ratio); ("dividend_yield", dividend_yield);
     ("change", change); ("change_percent", change_percent);
     ("currency", currency); ("exchange", exchange);
     ("quote_type", quote_type); ("timestamp", timestamp)] in
  StockQuote_init (drop_none parsed_data).

(** [parse_quotes_response] *)
Definition parse_quotes_response `{RT : Runtime} (response_data : pyval)
  : result (list StockQuote.t) :=
  has_body ← contains "body" response_data;
  if has_body : bool then
    body ← getitem response_data "body";
    match body with
    | PList l => parse_each parse_quote_data l
    | _ => Ok []
    end
  else Ok [].

(** The [body] array of a payload, when it has one. *)
Definition body_of (response_data : pyval) : option (list pyval) :=
  match response_data with
  | PDict d => match assoc_get d "body" with
               | Some (PList l) => Some l
               | _ => None
               end
  | _ => None
  end.

(** [parse_search_result] *)
Definition parse_search_result `{RT : Runtime} (search_result : pyval)
  : result Stock.t :=
  symbol ← get search_result "symbol";
  longname ← get search_result "longname";
  name ← (if truthy longname then Ok longname else get search_result "shortname");
  exchange ← get search_result "exchDisp";
  sectorDisp ← get search_result "sectorDisp";
  sector ← (if truthy sectorDisp then Ok sectorDisp else get search_result "sector");
  industryDisp ← get search_result "industryDisp";
  industry ← (if truthy industryDisp then Ok industryDisp
              else get search_result "industry");
  let parsed_data :=
    [("symbol", symbol); ("name", name); ("exchange", exchange);
     ("sector", sector); ("industry", industry);
     ("currency", PStr "USD"); ("country", PStr "US")] in
  Stock_init (drop_none parsed_data).

(** [parse_search_response] *)
Definition parse_search_response `{RT : Runtime} (response_data : pyval)
  : result (list Stock.t) :=
  has_body ← contains "body" response_data;
  if has_body : bool then
    body ← getitem response_data "body";
    match body with
    | PList l => parse_each parse_search_result l
    | _ => Ok []
    end
  else Ok [].

(** The elements that one parser accepts, in order. *)
Definition accepted {A} (parse_one : pyval -> result A) (body : list pyval)
  : list A :=
  List.flat_map (fun x => match parse_one x with
                          | Ok a => [a]
                          | Raise _ => []
                          end) body.

(** Number of elements of the payload's [body] array (0 without one). *)
Definition body_length (response_data : pyval) : nat :=
  length (default [] (body_of response_data)).

Definition is_dict (x : pyval) : Prop := exists d, x = PDict d.

End updated_yahoo_client.

(* ===================================================================== *)
(** * data_pipeline/extractors.py                                          *)
(* ===================================================================== *)

Module extractors.
Import Py models stocks_models updated_yahoo_client.

(** The typed records built inside the extractors. *)
Module StockHistory.
Record t := {
  symbol : string; date : Z;
  open : option float; high : option float; low : option float;
  close : option float; volume : option Z; interval : string
}.
End StockHistory.

Module MarketScreener.
Record t := {
  symbol : string; name : option string; price : option float;
  change : option float; change_percent : option float;
  volume : option Z; market_cap : option float;
  screener_type : string; rank : Z
}.
End MarketScreener.

Module StockNews.
Record t := {
  symbol : string; title : string; url : string;
  text : option string; source : string;
  news_type : option string; image_url : option string
}.
End StockNews.

Definition StockHistory_init `{RT : Runtime} (symbol : string) (date : Z)
    (interval : string) (kw : list (string * pyval)) : result StockHistory.t :=
  open ← optional coerce_float kw "open";
  high ← optional coerce_float kw "high";
  low ← optional coerce_float kw "low";
  close ← optional coerce_float kw "close";
  volume ← optional coerce_int kw "volume";
  Ok {| StockHistory.symbol := symbol; StockHistory.date := date;
        StockHistory.open := open; StockHistory.high := high;
        StockHistory.low := low; StockHistory.close := close;
        StockHistory.volume := volume; StockHistory.interval := interval |}.

Definition MarketScreener_init `{RT : Runtime} (screener_type : string) (rank : Z)
    (kw : list (string * pyval)) : result MarketScreener.t :=
  symbol ← required as_str kw "symbol";
  name ← optional as_str kw "name";
  price ← optional coerce_float kw "price";
  change ← optional coerce_float kw "change";
  change_percent ← optional coerce_float kw "change_percent";
  volume ← optional coerce_int kw "volume";
  market_cap ← optional coerce_float kw "market_cap";
  Ok {| MarketScreener.symbol := symbol; MarketScreener.name := name;
        MarketScreener.price := price; MarketScreener.change := change;
        MarketScreener.change_percent := change_percent;
        MarketScreener.volume := volume;
        MarketScreener.market_cap := market_cap;
        MarketScreener.screener_type := screener_type;
        MarketScreener.rank := rank |}.

Definition StockNews_init (symbol : string) (kw : list (string * pyval))
  : result StockNews.t :=
  title ← required as_str kw "title";
  url ← required as_str kw "url";
  text ← optional as_str kw "text";
  source ← defaulted as_str "yahoo_finance_api" kw "source";
  news_type ← optional as_str kw "news_type";
  image_url ← optional as_str kw "image_url";
  Ok {| StockNews.symbol := symbol; StockNews.title := title;
        StockNews.url := url; StockNews.text := text;
        StockNews.source := source; StockNews.news_type := news_type;
        StockNews.image_url := image_url |}.

(** [pipeline_config] and [data_source_config], the fields read here. *)
Record Config := {
  batch_size : Z;
  tickers_pages : Z;
  tickers_types : list string;
  quote_symbols : list string;
  history_symbols : list string;
  history_intervals : list string;
  history_limits : list (string * Z);
  screener_lists : list string;
  news_symbols : list string
}.

Definition default_config : Config := {|
  batch_size := 100;
  tickers_pages := 5;
  tickers_types := ["STOCKS"];
  quote_symbols := ["AAPL"; "MSFT"; "GOOGL"; "AMZN"; "TSLA"];
  history_symbols := ["AAPL"; "MSFT"; "GOOGL"];
  history_intervals := ["1d"; "1h"];
  history_limits := [("1d", 30); ("1h", 168); ("1m", 1440)];
  screener_lists := ["day_gainers"; "day_losers"; "most_actives"];
  news_symbols := ["AAPL"; "MSFT"; "GOOGL"; "AMZN"; "TSLA"]
|}.

(** What an extractor run reads from outside: the two clocks and whether
    the writes under [data/] succeed. *)
Record Env := {
  time_s : Z;          (* [int(time.time())] *)
  utcnow : Z;          (* [datetime.utcnow()], microseconds *)
  disk_ok : bool
}.

(** The client an extractor holds. [S] is everything a call may change:
    the upstream service and the limiter. *)
Class Client (S : Type) := {
  get_market_tickers : Z -> string -> S -> APIResponse * S;
  get_multiple_quotes : list string -> S -> APIResponse * S;
  get_stock_history : string -> string -> Z -> S -> APIResponse * S;
  get_market_screener : string -> S -> APIResponse * S;
  get_stock_news : list string -> S -> APIResponse * S
}.

(** [BaseExtractor.create_job] *)
Definition create_job (env : Env) (job_type : string)
    (data_source : DataSourceType) : PipelineJob :=
  {| job_id := DataSourceType_value data_source +:+ "_" +:+ job_type
               +:+ "_" +:+ pretty (time_s env);
     job_type := job_type;
     status := PENDING;
     data_source := data_source;
     created_at := utcnow env;
     total_items := None;
     processed_items := 0;
     failed_items := 0;
     error_message := None |}.

Definition set_status (s : PipelineStatus) (j : PipelineJob) : PipelineJob :=
  {| job_id := job_id j; job_type := job_type j; status := s;
     data_source := data_source j; created_at := created_at j;
     total_items := total_items j; processed_items := processed_items j;
     failed_items := failed_items j; error_message := error_message j |}.

Definition set_total (n : Z) (j : PipelineJob) : PipelineJob :=
  {| job_id := job_id j; job_type := job_type j; status := status j;
     data_source := data_source j; created_at := created_at j;
     total_items := Some n; processed_items := processed_items j;
     failed_items := failed_items j; error_message := error_message j |}.

Definition add_processed (n : Z) (j : PipelineJob) : PipelineJob :=
  {| job_id := job_id j; job_type := job_type j; status := status j;
     data_source := data_source j; created_at := created_at j;
     total_items := total_items j; processed_items := processed_items j + n;
     failed_items := failed_items j; error_message := error_message j |}.

Definition add_failed (n : Z) (j : PipelineJob) : PipelineJob :=
  {| job_id := job_id j; job_type := job_type j; status := status j;
     data_source := data_source j; created_at := created_at j;
     total_items := total_items j; processed_items := processed_items j;
     failed_items := failed_items j + n; error_message := error_message j |}.

Definition set_error (msg : string) (j : PipelineJob) : PipelineJob :=
  {| job_id := job_id j; job_type := job_type j; status := status j;
     data_source := data_source j; created_at := created_at j;
     total_items := total_items j; processed_items := processed_items j;
     failed_items := failed_items j; error_message := Some msg |}.

(** [str(e)], by class. *)
Definition exn_text (e : exn) : string :=
  match e with
  | ValidationError => "validation error"
  | TypeError => "type error"
  | AttributeError => "attribute error"
  | ValueError => "value error"
  | KeyError => "key error"
  | IndexError => "index error"
  | OverflowError => "overflow"
  | OSError => "os error"
  | _ => "error"
  end.

(** [for record in x] and [len(x)] on a JSON value. *)
Definition iterate (x : pyval) : result (list pyval) :=
  match x with
  | PList l => Ok l
  | PDict d => Ok (List.map (fun kv => PStr (fst kv)) d)
  | PStr s => Ok (List.map (fun c => PStr (String c EmptyString))
                           (String.list_ascii_of_string s))
  | _ => Raise TypeError
  end.

Definition len (x : pyval) : result Z :=
  match x with
  | PList l => Ok (Z.of_nat (length l))
  | PDict d => Ok (Z.of_nat (length d))
  | PStr s => Ok (Z.of_nat (String.length s))
  | _ => Raise TypeError
  end.

(** [for x in xs: f(x)] collecting what [f] builds, stopping at the first
    exception. *)
Fixpoint for_each {A B} (f : A -> result B) (xs : list A) : result (list B) :=
  match xs with
  | [] => Ok []
  | x :: xs' => y ← f x; ys ← for_each f xs'; Ok (y :: ys)
  end.

(** ** The sub-call loop

    All five [extract] methods run the same loop: issue the sub-call; on
    [response.success] build the items, extend the accumulators and add to
    [processed_items]; otherwise add to [failed_items]. [on_success]
    returns the items and the amount added to [processed_items];
    [on_failure] is the amount added to [failed_items]. *)

Record progress (Item : Type) := {
  job : PipelineJob;
  items : list Item;
  raw_data : list pyval
}.
Arguments job {Item} p.
Arguments items {Item} p.
Arguments raw_data {Item} p.

Section sub_calls.
Context {S Call Item : Type}.
Variable request : Call -> S -> APIResponse * S.
Variable on_success : Call -> pyval -> result (list Item * Z).
Variable on_failure : Call -> Z.

Fixpoint sub_calls (calls : list Call) (p : progress Item) (cl : S)
  : progress Item * S * option exn :=
  match calls with
  | [] => (p, cl, None)
  | c :: calls' =>
      let '(response, cl') := request c cl in
      if success response then
        match on_success c (data response) with
        | Ok (new_items, n) =>
            sub_calls calls'
              {| job := add_processed n (job p);
                 items := items p ++ new_items;
                 raw_data := raw_data p ++ [data response] |} cl'
        | Raise e => (p, cl', Some e)
        end
      else
        sub_calls calls'
          {| job := add_failed (on_failure c) (job p);
             items := items p;
             raw_data := raw_data p |} cl'
  end.

(** The frame around the loop: create the job, mark it running, run the
    sub-calls (unless computing them raised), set the total, write the two
    files, mark completed; any exception marks the job failed. *)
Definition run (env : Env) (data_source : DataSourceType)
    (calls : result (list Call)) (cl : S) : PipelineJob * S :=
  let job0 := set_status RUNNING (create_job env "extract" data_source) in
  match calls with
  | Raise e => (set_error (exn_text e) (set_status FAILED job0), cl)
  | Ok calls =>
      let '(p, cl', e) :=
        sub_calls calls {| job := job0; items := []; raw_data := [] |} cl in
      match e with
      | Some e => (set_error (exn_text e) (set_status FAILED (job p)), cl')
      | None =>
          let j := set_total (Z.of_nat (length (items p))) (job p) in
          if disk_ok env then (set_status COMPLETED j, cl')
          else (set_error (exn_text OSError) (set_status FAILED j), cl')
      end
  end.

End sub_calls.

(** ** Describing a run

    [outcomes] lists, in order, each sub-call with the response it got;
    the other definitions tally them. *)

Fixpoint outcomes {S Call} (request : Call -> S -> APIResponse * S)
    (calls : list Call) (cl : S) : list (Call * APIResponse) :=
  match calls with
  | [] => []
  | c :: calls' =>
      let '(response, cl') := request c cl in
      (c, response) :: outcomes request calls' cl'
  end.

(** Number of unsuccessful responses. *)
Definition failures {Call} (out : list (Call * APIResponse)) : nat :=
  length (List.filter (fun cr => negb (success (snd cr))) out).







(** A job in one of the two states in which an extractor hands it back:
    completed with its total set and no error message, or failed with an
    error message. *)
Definition settled (j : PipelineJob) : Prop :=
  (status j = COMPLETED /\ is_Some (total_items j) /\ error_message j = None) \/
  (status j = FAILED /\ is_Some (error_message j)).

(** A settled job that carries the identity [create_job] gave it: the
    data source of its extractor and an identifier made of the data source
    and the second of its creation. *)
Definition handed_back (env : Env) (ds : DataSourceType) (j : PipelineJob) : Prop :=
  settled j /\
  data_source j = ds /\ job_type j = "extract" /\ created_at j = utcnow env /\
  job_id j = DataSourceType_value ds +:+ "_extract_" +:+ pretty (time_s env).


(** [range(1, pages + 1)] *)
Definition pages_range (pages : Z) : list Z :=
  List.map (fun i => Z.of_nat i + 1) (List.seq 0 (Z.to_nat pages)).

(** [symbols[i:i + batch_size] for i in range(0, len(symbols), batch_size)]
    for a positive [batch_size]. *)
Fixpoint chunks (fuel : nat) (n : nat) (l : list string) : list (list string) :=
  match fuel, l with
  | O, _ | _, [] => []
  | Datatypes.S fuel', _ => firstn n l :: chunks fuel' n (skipn n l)
  end.

Definition batches (batch_size : Z) (symbols : list string)
  : result (list (list string)) :=
  if batch_size =? 0 then Raise ValueError        (* range() step of zero *)
  else if batch_size <? 0 then Ok []               (* empty range *)
  else Ok (chunks (length symbols) (Z.to_nat batch_size) symbols).

Section extractors.
Context `{RT : Runtime} {S : Type} `{CL : Client S}.
Variable config : Config.

(** [MarketTickersExtractor.extract] *)
Definition tickers_on_success (c : Z * string) (d : pyval)
  : result (list Stock.t * Z) :=
  stocks ← parse_tickers_response d;
  Ok (stocks, Z.of_nat (length stocks)).

Definition MarketTickersExtractor_extract (env : Env)
    (pages : option Z) (types : option (list string)) (cl : S)
  : PipelineJob * S :=
  let pages := default (tickers_pages config) pages in
  let types := default (tickers_types config) types in
  run (fun c => get_market_tickers (fst c) (snd c))
      tickers_on_success
      (fun _ => 1)
      env MARKET_TICKERS
      (Ok (List.flat_map (fun page => List.map (fun t => (page, t)) types)
                         (pages_range pages)))
      cl.

(** [StockQuotesExtractor.extract] *)
Definition quotes_on_success (batch_symbols : list string) (d : pyval)
  : result (list StockQuote.t * Z) :=
  quotes ← parse_quotes_response d;
  Ok (quotes, Z.of_nat (length quotes)).

Definition quotes_on_failure (batch_symbols : list string) : Z :=
  Z.of_nat (length batch_symbols).

Definition StockQuotesExtractor_extract (env : Env)
    (symbols : option (list string)) (cl : S) : PipelineJob * S :=
  let symbols := default (quote_symbols config) symbols in
  run (fun batch_symbols => get_multiple_quotes batch_symbols)
      quotes_on_success
      quotes_on_failure
      env STOCK_QUOTES
      (batches (batch_size config) symbols)
      cl.

(** [self.data_source_config.history_limits.get(interval, 30)] *)
Definition history_limit (interval : string) : Z :=
  default 30 (snd <$> List.find (fun kv => String.eqb (fst kv) interval)
                                (history_limits config)).

(** [StockHistoryExtractor.extract] *)
Definition history_record (symbol interval : string) (record : pyval)
  : result StockHistory.t :=
  ts ← getitem record "timestamp_unix";
  date ← fromtimestamp ts;
  open ← get record "open";
  high ← get record "high";
  low ← get record "low";
  close ← get record "close";
  volume ← get record "volume";
  StockHistory_init symbol date interval
    [("open", open); ("high", high); ("low", low); ("close", close);
     ("volume", volume)].

Definition history_on_success (c : string * string) (d : pyval)
  : result (list StockHistory.t * Z) :=
  history_data ← get_default d "body" (PList []);
  records ← iterate history_data;
  hs ← for_each (history_record (fst c) (snd c)) records;
  n ← len history_data;
  Ok (hs, n).

Definition StockHistoryExtractor_extract (env : Env)
    (symbols intervals : option (list string)) (cl : S) : PipelineJob * S :=
  let symbols := default (history_symbols config) symbols in
  let intervals := default (history_intervals config) intervals in
  run (fun c => get_stock_history (fst c) (snd c)
                  (history_limit (snd c)))
      history_on_success
      (fun _ => 1)
      env STOCK_HISTORY
      (Ok (List.flat_map (fun s => List.map (fun i => (s, i)) intervals) symbols))
      cl.

(** [MarketScreenerExtractor.extract] *)
Definition screener_record (screener_type : string) (ir : nat * pyval)
  : result MarketScreener.t :=
  let '(i, record) := ir in
  symbol ← get record "symbol";
  longName ← get record "longName";
  name ← (if truthy longName then Ok longName else get record "shortName");
  price ← get record "regularMarketPrice";
  change ← get record "regularMarketChange";
  change_percent ← get record "regularMarketChangePercent";
  volume ← get record "regularMarketVolume";
  market_cap ← get record "marketCap";
  MarketScreener_init screener_type (Z.of_nat i + 1)
    [("symbol", symbol); ("name", name); ("price", price);
     ("change", change); ("change_percent", change_percent);
     ("volume", volume); ("market_cap", market_cap)].

Definition screener_on_success (screener_type : string) (d : pyval)
  : result (list MarketScreener.t * Z) :=
  screener_data ← get_default d "body" (PList []);
  records ← iterate screener_data;
  ss ← for_each (screener_record screener_type)
                (List.combine (List.seq 0 (length records)) records);
  n ← len screener_data;
  Ok (ss, n).

Definition MarketScreenerExtractor_extract (env : Env)
    (lists : option (list string)) (cl : S) : PipelineJob * S :=
  let lists := default (screener_lists config) lists in
  run (fun screener_type => get_market_screener screener_type)
      screener_on_success
      (fun _ => 1)
      env MARKET_SCREENERS
      (Ok lists)
      cl.

(** [StockNewsExtractor.extract] *)
Definition news_record (symbol : string) (record : pyval)
  : result StockNews.t :=
  title ← get record "title";
  url ← get record "url";
  text ← get record "text";
  source ← get record "source";
  news_type ← get record "type";
  image_url ← get record "img";
  StockNews_init symbol
    [("title", title); ("url", url); ("text", text); ("source", source);
     ("news_type", news_type); ("image_url", image_url)].

Definition news_on_success (symbol : string) (d : pyval)
  : result (list StockNews.t * Z) :=
  news_data ← get_default d "body" (PList []);
  records ← iterate news_data;
  ns ← for_each (news_record symbol) records;
  n ← len news_data;
  Ok (ns, n).

Definition StockNewsExtractor_extract (env : Env)
    (symbols : option (list string)) (cl : S) : PipelineJob * S :=
  let symbols := default (news_symbols config) symbols in
  run (fun symbol => get_stock_news [symbol])
      news_on_success
      (fun _ => 1)
      env STOCK_NEWS
      (Ok symbols)
      cl.

End extractors.

(** A scripted client: every call takes the next prepared response; when
    the script is exhausted the call fails. *)
Definition scripted_call (script : list APIResponse) : APIResponse * list APIResponse :=
  match script with
  | [] => ({| success := false; data := PNone; error := Some "no response" |}, [])
  | r :: script' => (r, script')
  end.

#[global] Instance scripted_client : Client (list APIResponse) := {|
  get_market_tickers := fun _ _ => scripted_call;
  get_multiple_quotes := fun _ => scripted_call;
  get_stock_history := fun _ _ _ => scripted_call;
  get_market_screener := fun _ => scripted_call;
  get_stock_news := fun _ => scripted_call
|}.

End extractors.

(* ===================================================================== *)
(** * data_pipeline/transformers.py                                        *)
(* ===================================================================== *)

Module transformers.
Import Py models.

(** A record of the transform stages: [Dict[str, Any]]. *)
Abbreviation record := (gmap string pyval).

(** [{k: v for k, v in r.items() if v is not None}] *)
Definition without_none (r : record) : record :=
  filter (fun kv => is_None kv.2 = false) r.

Section cleaner.
Context `{RT : Runtime}.

(** [DataCleaner._parse_market_cap] *)
Definition _parse_market_cap (market_cap_str : string) : pyval :=
  match float_of_str (remove_char "," market_cap_str) with
  | Some f => PFloat f
  | None => PNone
  end.

(** [DataCleaner._clean_stock_record]; [None] is the [return None] of the
    exception handler. *)
Definition _clean_stock_record (stock : record) : option record :=
  let cleaned := without_none stock in
  let cleaned :=
    match cleaned !! "symbol" with
    | Some v => <["symbol" := PStr (upper (strip (str v)))]> cleaned
    | None => cleaned
    end in
  let cleaned :=
    match cleaned !! "name" with
    | Some v => <["name" := PStr (strip (str v))]> cleaned
    | None => cleaned
    end in
  let cleaned :=
    match cleaned !! "market_cap" with
    | Some (PStr s) => <["market_cap" := _parse_market_cap s]> cleaned
    | _ => cleaned
    end in
  let cleaned :=
    match cleaned !! "currency" with
    | None => <["currency" := PStr "USD"]> cleaned
    | Some _ => cleaned
    end in
  Some cleaned.

(** [if cleaned: cleaned_data.append(cleaned)] *)
Definition keep (r : option record) : list record :=
  match r with
  | Some c => if (size c =? 0)%nat then [] else [c]
  | None => []
  end.

(** [DataCleaner.clean_stock_data] *)
Definition clean_stock_data (stocks : list record) : list record :=
  List.flat_map (fun stock => keep (_clean_stock_record stock)) stocks.

(** [DataCleaner._parse_numeric]; the result is [None] or a float. An
    [OverflowError] from [float(value)] is not caught here. *)
Definition _parse_numeric (value : pyval) : result pyval :=
  match value with
  | PNone => Ok PNone
  | PBool b => Ok (PFloat (if b then 1 else 0))
  | PInt z => f ← float_of_int z; Ok (PFloat f)
  | PFloat f => Ok (PFloat f)
  | PStr s =>
      let cleaned := strip (remove_char "%" (remove_char "$" (remove_char "," s))) in
      match float_of_str cleaned with
      | Some f => Ok (PFloat f)
      | None => Ok PNone
      end
  | _ => Ok PNone
  end.

Definition numeric_fields : list string :=
  ["price"; "previous_close"; "open"; "high"; "low"; "volume"; "market_cap";
   "pe_ratio"; "dividend_yield"; "change"; "change_percent"].

(** [for field in numeric_fields: if field in cleaned: ...] *)
Fixpoint clean_numeric (fields : list string) (cleaned : record)
  : result record :=
  match fields with
  | [] => Ok cleaned
  | field :: fields' =>
      match cleaned !! field with
      | Some v =>
          v' ← _parse_numeric v;
          clean_numeric fields' (<[field := v']> cleaned)
      | None => clean_numeric fields' cleaned
      end
  end.

(** [DataCleaner._clean_quote_record] *)
Definition _clean_quote_record (quote : record) : option record :=
  let cleaned := without_none quote in
  let cleaned :=
    match cleaned !! "symbol" with
    | Some v => <["symbol" := PStr (upper (strip (str v)))]> cleaned
    | None => cleaned
    end in
  match clean_numeric numeric_fields cleaned with
  | Raise _ => None
  | Ok cleaned =>
      Some (match cleaned !! "currency" with
            | None => <["currency" := PStr "USD"]> cleaned
            | Some _ => cleaned
            end)
  end.

(** [DataCleaner.clean_quote_data] *)
Definition clean_quote_data (quotes : list record) : list record :=
  List.flat_map (fun quote => keep (_clean_quote_record quote)) quotes.

End cleaner.

(** What [_clean_quote_record] leaves in a record: a normalised symbol,
    numeric fields that are a float or [None], no [None] anywhere else,
    and a currency. *)
Definition quote_shape (c : record) : Prop :=
  (forall v, c !! "symbol" = Some v -> exists s, v = PStr (upper (strip s))) /\
  (forall k v, In k numeric_fields -> c !! k = Some v ->
               v = PNone \/ exists f, v = PFloat f) /\
  (forall k, ~ In k numeric_fields -> c !! k <> Some PNone) /\
  is_Some (c !! "currency").

(** What [_clean_stock_record] leaves in a record. *)
Definition stock_shape (c : record) : Prop :=
  (forall v, c !! "symbol" = Some v -> exists s, v = PStr (upper (strip s))) /\
  (forall v, c !! "name" = Some v -> exists s, v = PStr (strip s)) /\
  (forall s, c !! "market_cap" <> Some (PStr s)) /\
  (forall k, k <> "market_cap" -> c !! k <> Some PNone) /\
  is_Some (c !! "currency").

(** A record none of whose fields holds [None]. *)
Definition no_none (r : record) : Prop := forall k, r !! k <> Some PNone.

(** ** DataValidator *)

(** [DataValidator._get_required_fields] *)
Definition _get_required_fields (data_type : string) : list string :=
  if String.eqb data_type "market_tickers" then ["symbol"; "name"]
  else if String.eqb data_type "stock_quotes" then ["symbol"; "price"]
  else if String.eqb data_type "stock_history" then ["symbol"; "date"; "close"]
  else if String.eqb data_type "market_screeners" then ["symbol"; "screener_type"]
  else if String.eqb data_type "stock_news" then ["symbol"; "title"; "url"]
  else ["symbol"].

(** [field not in record or record[field] is None] *)
Definition is_missing (r : record) (field : string) : bool :=
  match r !! field with
  | None | Some PNone => true
  | Some _ => false
  end.

(** The [missing_fields] list built by the two nested loops. *)
Definition missing_fields (data : list record) (required_fields : list string)
  : list string :=
  List.flat_map (fun r => List.filter (is_missing r) required_fields) data.

(** The arithmetic of [a / b * 100] and of its comparison with an integer
    threshold. The code runs it in binary64. *)
Class Arith := {
  num : Type;
  percentage : Z -> Z -> num;        (* [a / b * 100] *)
  exceeds : num -> Z -> bool         (* [x > n] *)
}.

Definition binary64 : Arith := {|
  num := float;
  percentage := fun a b => (true_div a b * 100)%float;
  exceeds := fun x n =>
    PrimFloat.ltb (SF2Prim (binary_normalize prec emax n 0 false)) x
|}.

Record CompletenessCheck `{AR : Arith} := {
  data_source : DataSourceType;
  status : DataQualityStatus;
  record_count : Z;
  details_missing_fields : list string;
  missing_percentage : option num
}.

(** [DataValidator._check_completeness]; the check id and the message are
    left out. Building the check validates [data_type] against the
    [DataSourceType] enum. *)
Definition _check_completeness `{AR : Arith} (data : list record) (data_type : string)
  : result CompletenessCheck :=
  match data with
  | [] =>
      ds ← DataSourceType_of_string data_type;
      Ok {| data_source := ds; status := ERROR; record_count := 0;
            details_missing_fields := []; missing_percentage := None |}
  | _ =>
      let required_fields := _get_required_fields data_type in
      let missing := missing_fields data required_fields in
      let pct := percentage (Z.of_nat (length missing))
                   (Z.of_nat (length data) * Z.of_nat (length required_fields)) in
      let status :=
        if exceeds pct 20 then ERROR
        else if exceeds pct 10 then WARNING
        else VALID in
      ds ← DataSourceType_of_string data_type;
      Ok {| data_source := ds; status := status;
            record_count := Z.of_nat (length data);
            details_missing_fields := missing;
            missing_percentage := Some pct |}
  end.

(** Number of records of a batch that miss at least one required field. *)
Definition incomplete_records (data : list record) (required_fields : list string)
  : nat :=
  length (List.filter (fun r => existsb (is_missing r) required_fields) data).

(** ** DataEnricher *)

(** [v >= n] for an integer literal [n] that binary64 represents exactly. *)
Definition ge_int (v : pyval) (n : Z) : result bool :=
  match v with
  | PBool b => Ok (n <=? (if b then 1 else 0))
  | PInt z => Ok (n <=? z)
  | PFloat f => Ok (PrimFloat.leb (SF2Prim (binary_normalize prec emax n 0 false)) f)
  | _ => Raise TypeError
  end.

(** [DataEnricher._categorize_market_cap] *)
Definition _categorize_market_cap (market_cap : pyval) : result string :=
  mega ← ge_int market_cap 200000000000;
  if mega : bool then Ok "Mega Cap" else
  large ← ge_int market_cap 10000000000;
  if large : bool then Ok "Large Cap" else
  mid ← ge_int market_cap 2000000000;
  if mid : bool then Ok "Mid Cap" else
  small ← ge_int market_cap 300000000;
  if small : bool then Ok "Small Cap" else Ok "Micro Cap".

Definition sector_mapping : list (string * string) :=
  [("Technology", "Growth");
   ("Healthcare", "Defensive");
   ("Financial Services", "Cyclical");
   ("Consumer Discretionary", "Cyclical");
   ("Consumer Staples", "Defensive");
   ("Energy", "Cyclical");
   ("Industrials", "Cyclical");
   ("Materials", "Cyclical");
   ("Real Estate", "Defensive");
   ("Utilities", "Defensive");
   ("Communication Services", "Growth")].

(** [DataEnricher._categorize_sector]: [sector_mapping.get(sector, "Other")].
    A list or a dict is not hashable; a number equals none of the keys. *)
Definition _categorize_sector (sector : pyval) : result string :=
  match sector with
  | PStr s =>
      Ok (match List.find (fun kv => String.eqb (fst kv) s) sector_mapping with
          | Some kv => snd kv
          | None => "Other"
          end)
  | PList _ | PDict _ => Raise TypeError
  | _ => Ok "Other"
  end.

(** [v is not None and v != ""] *)
Definition non_null (v : pyval) : bool :=
  match v with
  | PNone => false
  | PStr s => negb (String.eqb s "")
  | _ => true
  end.

(** [DataEnricher._calculate_data_quality_score] *)
Definition _calculate_data_quality_score (r : record) : float :=
  let total_fields := Z.of_nat (size r) in
  let non_null_fields :=
    Z.of_nat (length (List.filter (fun kv => non_null (snd kv)) (map_to_list r))) in
  if 0 <? total_fields then true_div non_null_fields total_fields else 0%float.

(** [if key in enriched and enriched[key]:
        enriched[key + "_category"] = categorize(enriched[key])] *)
Definition add_category (key : string) (categorize : pyval -> result string)
    (enriched : record) : result record :=
  match enriched !! key with
  | Some v =>
      if truthy v then
        c ← categorize v;
        Ok (<[key +:+ "_category" := PStr c]> enriched)
      else Ok enriched
  | None => Ok enriched
  end.

(** [DataEnricher._enrich_stock_record]; [now] is
    [datetime.utcnow().isoformat()]. *)
Definition _enrich_stock_record (now : string) (stock : record) : result record :=
  let enriched := stock in
  enriched ← add_category "market_cap" _categorize_market_cap enriched;
  enriched ← add_category "sector" _categorize_sector enriched;
  let enriched :=
    <["data_quality_score" := PFloat (_calculate_data_quality_score stock)]> enriched in
  Ok (<["enriched_at" := PStr now]> enriched).

(** [DataEnricher.enrich_stock_data]; [clock k] is the timestamp read for
    the record at position [first + k]. *)
Fixpoint enrich_stock_data (clock : nat -> string) (first : nat)
    (stocks : list record) : result (list record) :=
  match stocks with
  | [] => Ok []
  | stock :: stocks' =>
      enriched_stock ← _enrich_stock_record (clock first) stock;
      enriched_data ← enrich_stock_data clock (Datatypes.S first) stocks';
      Ok (enriched_stock :: enriched_data)
  end.

(** The keys [_enrich_stock_record] writes. *)
Definition enrichment_keys : list string :=
  ["market_cap_category"; "sector_category"; "data_quality_score"; "enriched_at"].

(** A value that is not a list or a dict. *)
Definition scalar (v : pyval) : bool :=
  match v with
  | PList _ | PDict _ => false
  | _ => true
  end.

(** A [bool], an [int] or a [float]. *)
Definition number (v : pyval) : bool :=
  match v with
  | PBool _ | PInt _ | PFloat _ => true
  | _ => false
  end.

(** ** DataValidator._check_validity *)

(** [v <= 0] and [v < 0] *)
Definition le_zero (v : pyval) : result bool :=
  match v with
  | PBool b => Ok ((if b then 1 else 0) <=? 0)
  | PInt z => Ok (z <=? 0)
  | PFloat f => Ok (PrimFloat.leb f 0)
  | _ => Raise TypeError
  end.

Definition lt_zero (v : pyval) : result bool :=
  match v with
  | PBool b => Ok ((if b then 1 else 0) <? 0)
  | PInt z => Ok (z <? 0)
  | PFloat f => Ok (PrimFloat.ltb f 0)
  | _ => Raise TypeError
  end.

(** The two tests the loop of [_check_validity] makes on record [i] of a
    batch of stock quotes. *)
Definition invalid_entries (i : nat) (r : record) : result (list string) :=
  price ←
    match r !! "price" with
    | Some PNone => Ok ["Record " +:+ pretty (Z.of_nat i) +:+ ": Invalid price"]
    | Some v =>
        b ← le_zero v;
        Ok (if b : bool
            then ["Record " +:+ pretty (Z.of_nat i) +:+ ": Invalid price"]
            else [])
    | None => Ok []
    end;
  volume ←
    match r !! "volume" with
    | Some PNone | None => Ok []
    | Some v =>
        b ← lt_zero v;
        Ok (if b : bool
            then ["Record " +:+ pretty (Z.of_nat i) +:+ ": Negative volume"]
            else [])
    end;
  Ok (price ++ volume).

(** [for i, record in enumerate(data): ...], from index [i] on. *)
Fixpoint invalid_from (i : nat) (data : list record) : result (list string) :=
  match data with
  | [] => Ok []
  | r :: data' =>
      here ← invalid_entries i r;
      rest ← invalid_from (Datatypes.S i) data';
      Ok (here ++ rest)
  end.

Record ValidityCheck `{AR : Arith} := {
  validity_data_source : DataSourceType;
  validity_status : DataQualityStatus;
  validity_record_count : Z;
  invalid_records : list string;
  invalid_percentage : option num         (* [None]: the [0] of an empty batch *)
}.

(** [DataValidator._check_validity]; the check id and the message are left
    out. *)
Definition _check_validity `{AR : Arith} (data : list record) (data_type : string)
  : result ValidityCheck :=
  invalid ←
    (if String.eqb data_type "stock_quotes" then invalid_from 0 data else Ok []);
  let pct :=
    match data with
    | [] => None
    | _ => Some (percentage (Z.of_nat (length invalid)) (Z.of_nat (length data)))
    end in
  let status :=
    match pct with
    | None => VALID
    | Some pct =>
        if exceeds pct 10 then ERROR
        else if exceeds pct 5 then WARNING
        else VALID
    end in
  ds ← DataSourceType_of_string data_type;
  Ok {| validity_data_source := ds; validity_status := status;
        validity_record_count := Z.of_nat (length data);
        invalid_records := invalid;
        invalid_percentage := pct |}.

End transformers.

(* ===================================================================== *)
(** * data_pipeline/scheduler.py: the job store                            *)
(* ===================================================================== *)

Module scheduler.
Import Py models.

(** [timedelta(days=days)], in microseconds. *)
Definition timedelta_days (days : Z) : result Z :=
  if (-999999999 <=? days) && (days <=? 999999999)
  then Ok (days * 86400000000) else Raise OverflowError.

(** [datetime.min] and [datetime.max], microseconds since the epoch. *)
Definition datetime_min : Z := -62135596800000000.
Definition datetime_max : Z := 253402300799999999.

(** [t - delta] on a [datetime] and a [timedelta]. *)
Definition datetime_sub (t delta : Z) : result Z :=
  let r := t - delta in
  if (datetime_min <=? r) && (r <=? datetime_max)
  then Ok r else Raise OverflowError.

(** [PipelineScheduler.cleanup_old_jobs], on [self.jobs]; [now] is
    [datetime.utcnow()]. *)
Definition cleanup_old_jobs (now : Z) (days : Z) (jobs : gmap string PipelineJob)
  : result (gmap string PipelineJob) :=
  delta ← timedelta_days days;
  cutoff_date ← datetime_sub now delta;
  let old_jobs :=
    List.map fst
      (List.filter (fun kv => created_at (snd kv) <? cutoff_date)
                   (map_to_list jobs)) in
  Ok (fold_left (fun m job_id => delete job_id m) old_jobs jobs).

(** [self.jobs[job.job_id] = job], as [run_immediate] and
    [_execute_schedule] do after an extraction. *)
Definition store_job (job : PipelineJob) (jobs : gmap string PipelineJob)
  : gmap string PipelineJob :=
  <[job_id job := job]> jobs.

(** [PipelineScheduler.run_immediate] without keyword arguments, on the
    client shared by the extractors and on [self.jobs]. No extractor is
    registered for [STOCK_MODULES]. *)
Definition run_immediate `{RT : Runtime} {S : Type} `{CL : extractors.Client S}
    (config : extractors.Config) (env : extractors.Env)
    (data_source : DataSourceType) (cl : S) (jobs : gmap string PipelineJob)
  : result (PipelineJob * S * gmap string PipelineJob) :=
  let stored (r : PipelineJob * S) := Ok (fst r, snd r, store_job (fst r) jobs) in
  match data_source with
  | MARKET_TICKERS =>
      stored (extractors.MarketTickersExtractor_extract config env None None cl)
  | STOCK_QUOTES =>
      stored (extractors.StockQuotesExtractor_extract config env None cl)
  | STOCK_HISTORY =>
      stored (extractors.StockHistoryExtractor_extract config env None None cl)
  | MARKET_SCREENERS =>
      stored (extractors.MarketScreenerExtractor_extract config env None cl)
  | STOCK_NEWS =>
      stored (extractors.StockNewsExtractor_extract config env None cl)
  | STOCK_MODULES => Raise ValueError
  end.

(** The fields of [datetime.now()] the scheduler reads; [weekday] is 0 on
    Monday. *)
Record wallclock := {
  hour : Z;
  minute : Z;
  weekday : Z
}.

(** [PipelineScheduler._should_run_schedule] *)
Definition _should_run_schedule (schedule : PipelineSchedule)
    (current_time : wallclock) : bool :=
  if String.eqb (cron_expression schedule) "0 6 * * *" then
    (hour current_time =? 6) && (minute current_time =? 0)
  else if String.eqb (cron_expression schedule) "*/5 9-16 * * 1-5" then
    (9 <=? hour current_time) && (hour current_time <? 16)
    && (weekday current_time <? 5)
    && (minute current_time mod 5 =? 0)
  else if String.eqb (cron_expression schedule) "0 19 * * *" then
    (hour current_time =? 19) && (minute current_time =? 0)
  else if String.eqb (cron_expression schedule) "*/15 9-16 * * 1-5" then
    (9 <=? hour current_time) && (hour current_time <? 16)
    && (weekday current_time <? 5)
    && (minute current_time mod 15 =? 0)
  else if String.eqb (cron_expression schedule) "*/30 * * * *" then
    minute current_time mod 30 =? 0
  else false.

Definition set_last_run (t : Z) (s : PipelineSchedule) : PipelineSchedule :=
  {| schedule_id := schedule_id s;
     schedule_data_source := schedule_data_source s;
     cron_expression := cron_expression s;
     enabled := enabled s;
     last_run := Some t |}.

(** [PipelineScheduler._execute_schedule]. [now] is the clock read for
    [last_run], [env] what the extractor sees. The extractors return a job
    whatever happens, so the handler of the method has nothing to catch. *)
Definition _execute_schedule `{RT : Runtime} {S : Type} `{CL : extractors.Client S}
    (config : extractors.Config) (now : Z) (env : extractors.Env)
    (schedule : PipelineSchedule) (cl : S) (jobs : gmap string PipelineJob)
  : PipelineSchedule * S * gmap string PipelineJob :=
  let schedule := set_last_run now schedule in
  let stored (r : PipelineJob * S) := (schedule, snd r, store_job (fst r) jobs) in
  match schedule_data_source schedule with
  | MARKET_TICKERS =>
      stored (extractors.MarketTickersExtractor_extract config env None None cl)
  | STOCK_QUOTES =>
      stored (extractors.StockQuotesExtractor_extract config env None cl)
  | STOCK_HISTORY =>
      stored (extractors.StockHistoryExtractor_extract config env None None cl)
  | MARKET_SCREENERS =>
      stored (extractors.MarketScreenerExtractor_extract config env None cl)
  | STOCK_NEWS =>
      stored (extractors.StockNewsExtractor_extract config env None cl)
  | STOCK_MODULES => (schedule, cl, jobs)
  end.

(** [PipelineScheduler._check_scheduled_jobs] on [self.schedules] in the
    order of the dict. [world id] is what the execution of schedule [id]
    reads from the clocks and the disk. *)
Fixpoint _check_scheduled_jobs `{RT : Runtime} {S : Type} `{CL : extractors.Client S}
    (config : extractors.Config) (current_time : wallclock)
    (world : string -> Z * extractors.Env)
    (schedules : list PipelineSchedule) (cl : S) (jobs : gmap string PipelineJob)
  : list PipelineSchedule * S * gmap string PipelineJob :=
  match schedules with
  | [] => ([], cl, jobs)
  | schedule :: schedules' =>
      if negb (enabled schedule) then
        let '(rest, cl', jobs') :=
          _check_scheduled_jobs config current_time world schedules' cl jobs in
        (schedule :: rest, cl', jobs')
      else if _should_run_schedule schedule current_time then
        let '(schedule', cl1, jobs1) :=
          _execute_schedule config (fst (world (schedule_id schedule)))
            (snd (world (schedule_id schedule))) schedule cl jobs in
        let '(rest, cl', jobs') :=
          _check_scheduled_jobs config current_time world schedules' cl1 jobs1 in
        (schedule' :: rest, cl', jobs')
      else
        let '(rest, cl', jobs') :=
          _check_scheduled_jobs config current_time world schedules' cl jobs in
        (schedule :: rest, cl', jobs')
  end.

(** The schedules [_setup_default_schedules] installs. *)
Definition default_schedules : list PipelineSchedule :=
  [ {| schedule_id := "market_tickers_daily";
       schedule_data_source := MARKET_TICKERS;
       cron_expression := "0 6 * * *"; enabled := true; last_run := None |};
    {| schedule_id := "stock_quotes_frequent";
       schedule_data_source := STOCK_QUOTES;
       cron_expression := "*/5 9-16 * * 1-5"; enabled := true; last_run := None |};
    {| schedule_id := "stock_history_daily";
       schedule_data_source := STOCK_HISTORY;
       cron_expression := "0 19 * * *"; enabled := true; last_run := None |};
    {| schedule_id := "market_screeners_frequent";
       schedule_data_source := MARKET_SCREENERS;
       cron_expression := "*/15 9-16 * * 1-5"; enabled := true; last_run := None |};
    {| schedule_id := "stock_news_frequent";
       schedule_data_source := STOCK_NEWS;
       cron_expression := "*/30 * * * *"; enabled := true; last_run := None |} ].

(** Whether a schedule is run by a check at [current_time]. *)
Definition due (current_time : wallclock) (s : PipelineSchedule) : bool :=
  enabled s && _should_run_schedule s current_time.

(** [PipelineScheduler.get_job_status] *)
Definition get_job_status (id : string) (jobs : gmap string PipelineJob)
  : option PipelineJob := jobs !! id.

End scheduler.

(* ===================================================================== *)
(** * data_pipeline/monitoring.py: alerts                                  *)
(* ===================================================================== *)

Module monitoring.
Import Py models.

(** [PipelineMonitor._create_alert]; [now] is
    [int(datetime.utcnow().timestamp())]. *)
Definition _create_alert (now : Z) (alert_type severity title message : string)
    (data_source : option DataSourceType) (job_id : option string) : Alert :=
  {| alert_id := alert_type +:+ "_" +:+ pretty now;
     alert_type := alert_type;
     severity := severity;
     title := title;
     alert_message := message;
     alert_data_source := data_source;
     alert_job_id := job_id |}.

(** [PipelineMonitor._calculate_average_quality_score] *)
Definition score (s : DataQualityStatus) : float :=
  match s with
  | VALID => 1.0
  | WARNING => 0.7
  | ERROR => 0.3
  | UNKNOWN => 0.5
  end%float.

Definition _calculate_average_quality_score (quality_checks : list DataQualityCheck)
  : float :=
  match quality_checks with
  | [] => 1.0%float
  | _ =>
      let scores := List.map (fun c => score (check_status c)) quality_checks in
      (fold_left PrimFloat.add scores 0 /
       SF2Prim (binary_normalize prec emax (Z.of_nat (length scores)) 0 false))%float
  end.

(** The alert a check gives rise to, if any. *)
Definition check_alert (now : Z) (check : DataQualityCheck) : option Alert :=
  let ds := DataSourceType_value (check_data_source check) in
  match check_status check with
  | ERROR =>
      Some (_create_alert now "error" "high"
              ("Data Quality Error: " +:+ ds)
              (check_type check +:+ ": " +:+ message check)
              (Some (check_data_source check)) None)
  | WARNING =>
      Some (_create_alert now "warning" "medium"
              ("Data Quality Warning: " +:+ ds)
              (check_type check +:+ ": " +:+ message check)
              (Some (check_data_source check)) None)
  | _ => None
  end.

(** The first loop of [monitor_data_quality]. [clock k] is the integer
    second read by the [k]-th call of [_create_alert], counted from 0. *)
Fixpoint check_alerts (clock : nat -> Z) (checks : list DataQualityCheck)
    (alerts : list Alert) : list Alert :=
  match checks with
  | [] => alerts
  | check :: checks' =>
      match check_alert (clock (length alerts)) check with
      | Some a => check_alerts clock checks' (alerts ++ [a])
      | None => check_alerts clock checks' alerts
      end
  end.

(** [for alert in alerts: self.alerts[alert.alert_id] = alert] *)
Definition store_alerts (alerts : list Alert) (store : gmap string Alert)
  : gmap string Alert :=
  fold_left (fun m a => <[alert_id a := a]> m) alerts store.

(** [PipelineMonitor.monitor_data_quality], on [self.alerts]. *)
Definition monitor_data_quality `{RT : Runtime} (clock : nat -> Z)
    (quality_checks : list DataQualityCheck) (store : gmap string Alert)
  : list Alert * gmap string Alert :=
  let alerts := check_alerts clock quality_checks [] in
  let avg_quality_score := _calculate_average_quality_score quality_checks in
  let alerts :=
    if PrimFloat.ltb avg_quality_score 0.8 then
      alerts ++ [_create_alert (clock (length alerts)) "warning" "medium"
                   "Low Data Quality Score"
                   ("Average data quality score is "
                    +:+ format (PFloat avg_quality_score) ".1%")
                   None None]
    else alerts in
  (alerts, store_alerts alerts store).

(** Number of checks that are [ERROR] or [WARNING]. *)
Definition flagged (quality_checks : list DataQualityCheck) : nat :=
  length (List.filter (fun c => match check_status c with
                                | ERROR | WARNING => true
                                | _ => false
                                end) quality_checks).

(** [PipelineMonitor.collect_metrics], on [self.metrics]. The result is
    [None] when the quotient of the score raises [ZeroDivisionError]. *)
Definition collect_metrics (job : PipelineJob) (metrics : list PipelineMetrics)
  : option (PipelineMetrics * list PipelineMetrics) :=
  let score :=
    if 0 <? processed_items job then
      if processed_items job + failed_items job =? 0 then None
      else Some (Some (true_div (processed_items job)
                         (processed_items job + failed_items job)))
    else Some None in
  match score with
  | None => None
  | Some score =>
      let m := {| metrics_job_id := job_id job;
                  metrics_data_source := data_source job;
                  records_processed := processed_items job;
                  records_failed := failed_items job;
                  data_quality_score := score |} in
      let metrics := metrics ++ [m] in
      Some (m, if (1000 <? length metrics)%nat
               then drop (length metrics - 1000) metrics
               else metrics)
  end.

End monitoring.

(* ===================================================================== *)
(** * A concrete runtime for examples                                      *)
(* ===================================================================== *)

(** The general results below hold for every [Runtime]. To evaluate the
    code on sample payloads a runtime is fixed here. It reads plain decimal
    literals ([-12.50]), which are exactly rounded when they have at most
    15 digits, and rejects every other string; it renders integers,
    booleans and [None]. *)
Module reference.
Import Py.

Definition digit (c : ascii) : option Z :=
  let n := Z.of_N (N_of_ascii c) in
  if (48 <=? n) && (n <=? 57) then Some (n - 48) else None.

(** Scans [digits [. digits]]; yields the digits read as one integer and
    the number of digits after the point. *)
Fixpoint scan (s : string) (m : Z) (frac : option nat) (seen : bool)
  : option (Z * nat) :=
  match s with
  | EmptyString => if seen then Some (m, default 0%nat frac) else None
  | String c s' =>
      if Ascii.eqb c "." then
        match frac with
        | None => scan s' m (Some 0%nat) seen
        | Some _ => None
        end
      else
        match digit c with
        | Some d => scan s' (10 * m + d) (Datatypes.S <$> frac) true
        | None => None
        end
  end.

Definition float_of_decimal (s : string) : option float :=
  let '(negative, body) :=
    match s with
    | String "-" s' => (true, s')
    | String "+" s' => (false, s')
    | _ => (false, s)
    end in
  match scan body 0 None false with
  | Some (m, k) =>
      let f := true_div m (10 ^ Z.of_nat k) in
      Some (if negative : bool then (- f)%float else f)
  | None => None
  end.

Definition render (v : pyval) : string :=
  match v with
  | PNone => "None"
  | PBool true => "True"
  | PBool false => "False"
  | PInt z => pretty z
  | PStr s => s
  | _ => "<object>"
  end.

Definition to_float (v : pyval) : option float :=
  match v with
  | PBool b => Some (if b then 1 else 0)%float
  | PInt z => match float_of_int z with Ok f => Some f | Raise _ => None end
  | PFloat f => Some f
  | PStr s => float_of_decimal s
  | _ => None
  end.

Definition to_int (v : pyval) : option Z :=
  match v with
  | PBool b => Some (if b then 1 else 0)
  | PInt z => Some z
  | _ => None
  end.

Definition to_timestamp (v : pyval) : option pyval :=
  match v with
  | PInt _ | PStr _ => Some v
  | _ => None
  end.

Definition seconds_to_datetime (v : pyval) : result Z :=
  match v with
  | PInt z => Ok (z * 1000000)
  | _ => Raise TypeError
  end.

Definition runtime : Runtime := {|
  float_of_str := float_of_decimal;
  repr := render;
  format := fun v _ => render v;
  fromtimestamp := seconds_to_datetime;
  coerce_float := to_float;
  coerce_int := to_int;
  coerce_timestamp := to_timestamp
|}.

End reference.

(* ===================================================================== *)
(** * Sample inputs                                                        *)
(* ===================================================================== *)

Module samples.
Import Py models stocks_models.

(** A transport that gives the same outcome at every attempt; attempt [n]
    reads the clock at second [n]. *)
Definition always (w : api_client.wire) : nat -> Q * api_client.wire :=
  fun n => (inject_Z (Z.of_nat n), w).

Definition http (code : Z) : api_client.Response :=
  {| api_client.status_code := code;
     api_client.retry_after := api_client.Absent;
     api_client.payload := None |}.

(** Two rate-limited answers, then a good one. *)
Definition limited_twice_then_ok : nat -> Q * api_client.wire :=
  fun n => (0%Q, api_client.Answered (if (n <=? 2)%nat then http 429 else http 200)).

(** A tickers payload with three elements, the second without a symbol. *)
Definition tickers_two_of_three : pyval :=
  PDict [("body",
          PList [PDict [("symbol", PStr "AAPL"); ("marketCap", PStr "2,900,000")];
                 PDict [("name", PStr "no symbol")];
                 PDict [("symbol", PStr "MSFT")]])].

(** A search payload that names another currency and country. *)
Definition search_payload : pyval :=
  PDict [("body",
          PList [PDict [("symbol", PStr "SAP"); ("longname", PStr "SAP SE");
                        ("exchDisp", PStr "XETRA"); ("currency", PStr "EUR");
                        ("country", PStr "DE")]])].

Definition search_hit : Stock.t :=
  {| Stock.symbol := "SAP"; Stock.name := Some "SAP SE";
     Stock.exchange := Some "XETRA"; Stock.sector := None;
     Stock.industry := None; Stock.market_cap := None;
     Stock.currency := "USD"; Stock.country := Some "US";
     Stock.website := None; Stock.description := None |}.

(** A payload whose only element has the empty string as its symbol. *)
Definition body_with_empty_symbol : pyval :=
  PDict [("body", PList [PDict [("symbol", PStr "")]])].

(** An extractor environment with a working disk. *)
Definition env0 : extractors.Env :=
  {| extractors.time_s := 1700000000;
     extractors.utcnow := 1700000000000000;
     extractors.disk_ok := true |}.

Definition ok_response (d : pyval) : APIResponse :=
  {| success := true; data := d; error := None |}.

(** What [_make_api_call] returns when the request raised. *)
Definition failed_response : APIResponse :=
  {| success := false; data := PNone; error := Some "Request failed" |}.

Definition news_item : pyval :=
  PDict [("title", PStr "Earnings beat estimates");
         ("url", PStr "https://example.com/a");
         ("source", PStr "Newswire")].

(** A news payload with [n] records. *)
Definition news_payload (n : nat) : pyval :=
  PDict [("body", PList (List.repeat news_item n))].

Definition three_symbols : list string := ["AAPL"; "MSFT"; "GOOGL"].

(** One record for the first and the third symbol, a failed call for the
    second. *)
Definition one_failure_one_record_each : list APIResponse :=
  [ok_response (news_payload 1); failed_response; ok_response (news_payload 1)].

(** The same with two records per successful call. *)
Definition one_failure_two_records_each : list APIResponse :=
  [ok_response (news_payload 2); failed_response; ok_response (news_payload 2)].

Definition quote_item (symbol : string) : pyval :=
  PDict [("symbol", PStr symbol); ("regularMarketPrice", PInt 150)].

Definition quotes_payload (symbols : list string) : pyval :=
  PDict [("body", PList (List.map quote_item symbols))].

(** The default configuration with another batch size. *)
Definition config_with_batch (n : Z) : extractors.Config :=
  {| extractors.batch_size := n;
     extractors.tickers_pages := 5;
     extractors.tickers_types := ["STOCKS"];
     extractors.quote_symbols := ["AAPL"; "MSFT"; "GOOGL"; "AMZN"; "TSLA"];
     extractors.history_symbols := ["AAPL"; "MSFT"; "GOOGL"];
     extractors.history_intervals := ["1d"; "1h"];
     extractors.history_limits := [("1d", 30); ("1h", 168); ("1m", 1440)];
     extractors.screener_lists := ["day_gainers"; "day_losers"; "most_actives"];
     extractors.news_symbols := ["AAPL"; "MSFT"; "GOOGL"; "AMZN"; "TSLA"] |}.

(** A news payload whose only record has no title. *)
Definition news_without_title : pyval :=
  PDict [("body", PList [PDict [("url", PStr "https://example.com/b");
                                ("source", PStr "Newswire")]])].

(** The default configuration with a batch size of one. *)
Definition config_batch_1 : extractors.Config :=
  {| extractors.batch_size := 1;
     extractors.tickers_pages := 5;
     extractors.tickers_types := ["STOCKS"];
     extractors.quote_symbols := ["AAPL"; "MSFT"; "GOOGL"; "AMZN"; "TSLA"];
     extractors.history_symbols := ["AAPL"; "MSFT"; "GOOGL"];
     extractors.history_intervals := ["1d"; "1h"];
     extractors.history_limits := [("1d", 30); ("1h", 168); ("1m", 1440)];
     extractors.screener_lists := ["day_gainers"; "day_losers"; "most_actives"];
     extractors.news_symbols := ["AAPL"; "MSFT"; "GOOGL"; "AMZN"; "TSLA"] |}.

(** Transform-stage records. *)
Definition quote_record (symbol : string) (price : float) : gmap string pyval :=
  {[ "symbol" := PStr symbol; "price" := PFloat price ]}.

Definition quote_record_without_price (symbol : string) : gmap string pyval :=
  {[ "symbol" := PStr symbol ]}.

(** Four quote records, one of them without a price. *)
Definition four_quotes_one_without_price : list (gmap string pyval) :=
  [quote_record "AAPL" 150; quote_record "MSFT" 300;
   quote_record_without_price "GOOGL"; quote_record "AMZN" 120].

(** Twenty quote records, three of them without a price. *)
Definition twenty_quotes_three_without_price : list (gmap string pyval) :=
  List.repeat (quote_record "AAPL" 150) 17
  ++ List.repeat (quote_record_without_price "MSFT") 3.

(** Records of a source with the single required field [symbol]: [k] of
    the [n] records have no symbol. *)
Definition module_records (n k : nat) : list (gmap string pyval) :=
  List.repeat ({[ "module_type" := PStr "asset-profile" ]} : gmap string pyval) k
  ++ List.repeat ({[ "symbol" := PStr "AAPL" ]} : gmap string pyval) (n - k).

(** A quote whose price did not arrive as a number. *)
Definition quote_with_unparsed_price : gmap string pyval :=
  {[ "symbol" := PStr " aapl "; "price" := PStr "N/A" ]}.

(** A quote whose numeric fields all parse. *)
Definition quote_with_text_price : gmap string pyval :=
  {[ "symbol" := PStr " aapl "; "price" := PStr "$1,234.50"; "volume" := PInt 100 ]}.

(** A stock whose market cap did not arrive as a number. *)
Definition stock_with_unparsed_cap : gmap string pyval :=
  {[ "symbol" := PStr "aapl"; "market_cap" := PStr "n/a" ]}.

(** A job created at [created] (microseconds) in the given state. *)
Definition job_at (id : string) (st : PipelineStatus) (created : Z) : PipelineJob :=
  {| job_id := id; job_type := "extract"; status := st;
     data_source := STOCK_QUOTES; created_at := created;
     total_items := None; processed_items := 0; failed_items := 0;
     error_message := None |}.

Definition day : Z := 86400000000.

(** A store read at day 100: a job still running since day 10, a job
    completed on day 20 and a job completed on day 99. *)
Definition store_with_running_job : gmap string PipelineJob :=
  {[ "stock_quotes_extract_1" := job_at "stock_quotes_extract_1" RUNNING (10 * day);
     "stock_quotes_extract_2" := job_at "stock_quotes_extract_2" COMPLETED (20 * day);
     "stock_quotes_extract_3" := job_at "stock_quotes_extract_3" COMPLETED (99 * day) ]}.

(** A failed completeness check. *)
Definition error_check (kind msg : string) : DataQualityCheck :=
  {| check_id := kind +:+ "_stock_quotes_1700000000";
     check_data_source := STOCK_QUOTES;
     check_type := kind;
     check_status := ERROR;
     message := msg;
     models.record_count := 0;
     detail_fields := [];
     detail_percentage := None |}.

(** Two failed checks of one transform run. *)
Definition two_error_checks : list DataQualityCheck :=
  [error_check "completeness" "No data found";
   error_check "validity" "50.0% of records have invalid values"].

(** A clock that stays within second 1700000000. *)
Definition same_second : nat -> Z := fun _ => 1700000000.

(** A quote whose volume is an integer no float can hold. *)
Definition quote_with_huge_volume : gmap string pyval :=
  {[ "symbol" := PStr "AAPL"; "volume" := PInt (10 ^ 400) ]}.

(** The timestamp every enrichment reads. *)
Definition iso_clock : nat -> string := fun _ => "2024-01-01T00:00:00".

(** 16:05 and 16:30 on a Monday. *)
Definition monday_16_05 : scheduler.wallclock :=
  {| scheduler.hour := 16; scheduler.minute := 5; scheduler.weekday := 0 |}.

Definition monday_16_30 : scheduler.wallclock :=
  {| scheduler.hour := 16; scheduler.minute := 30; scheduler.weekday := 0 |}.

(** Every execution of a schedule reads the same clocks. *)
Definition world0 (schedule_id : string) : Z * extractors.Env :=
  (extractors.utcnow env0, env0).

(** The default schedule of the news. *)
Definition stock_news_frequent : models.PipelineSchedule :=
  {| models.schedule_id := "stock_news_frequent";
     models.schedule_data_source := models.STOCK_NEWS;
     models.cron_expression := "*/30 * * * *";
     models.enabled := true;
     models.last_run := None |}.

End samples.

(* ===================================================================== *)
(** * Properties of the rate limiter                                       *)
(* ===================================================================== *)

Section rate_limiter.
Import Py api_client.

Lemma newer_than_spec (bound t : Q) :
  newer_than bound t = true <-> (bound < t)%Q.
Proof.
  unfold newer_than.
  destruct (Qlt_le_dec bound t) as [Hlt|Hle]; split; intros; try done.
  exfalso. apply (Qlt_not_le _ _ H). exact Hle.
Qed.


(** One acquisition, spelled out: the stale timestamps are pruned; when the
    pruned window is full the call sleeps until its oldest timestamp leaves
    the window and drops it; then the clock reading is recorded. *)
Lemma wait_if_needed_step (now : Q) (self : RateLimiter) :
  1 <= requests_per_minute self ->
  let reqs := List.filter (newer_than (now - 60)%Q) (requests self) in
  exists slept l,
    wait_if_needed now self =
      Ok (slept, {| requests_per_minute := requests_per_minute self;
                    burst := burst self; requests := l ++ [now] |}) /\
    ((Z.of_nat (length reqs) < requests_per_minute self /\ slept = None /\ l = reqs) \/
     (requests_per_minute self <= Z.of_nat (length reqs) /\
      exists oldest, reqs = oldest :: l /\
                     slept = Some (60 - (now - oldest))%Q /\
                     (0 < 60 - (now - oldest))%Q)).
Proof.
  intros Hrpm reqs. unfold wait_if_needed. fold reqs.
  destruct (Z.geb_spec (Z.of_nat (length reqs)) (requests_per_minute self))
    as [Hfull|Hroom].
  - destruct reqs as [|oldest rest] eqn:Hreqs; [simpl in Hfull; lia|].
    assert (Hnew : newer_than (now - 60)%Q oldest = true).
    { assert (Hin : In oldest (List.filter (newer_than (now - 60)%Q) (requests self))).
      { fold reqs. rewrite Hreqs. now left. }
      apply filter_In in Hin. tauto. }
    apply newer_than_spec in Hnew.
    assert (Hpos : (0 < 60 - (now - oldest))%Q) by lra.
    destruct (Qlt_le_dec 0 (60 - (now - oldest))) as [_|Hle].
    + exists (Some (60 - (now - oldest))%Q), rest. split; [reflexivity|].
      right. split; [lia|]. exists oldest. auto.
    + exfalso. apply (Qlt_not_le _ _ Hpos). exact Hle.
  - exists None, reqs. split; [reflexivity|]. left. split; [lia|]. auto.
Qed.


Lemma wait_if_needed_ok now self :
  1 <= requests_per_minute self ->
  exists slept self',
    wait_if_needed now self = Ok (slept, self') /\
    requests_per_minute self' = requests_per_minute self.
Proof.
  intros Hrpm.
  destruct (wait_if_needed_step now self Hrpm) as (slept & l & Heq & _).
  eauto.
Qed.





(** The third call of the sample finds the window full, sleeps 58 seconds
    and replaces the oldest timestamp. *)
Example third_call_waits :
  acquire_all [(false, 0%Q); (false, 1%Q)] (RateLimiter_init 2 10)
  = Ok {| requests_per_minute := 2; burst := 10; requests := [0%Q; 1%Q] |} /\
  wait_if_needed 2 {| requests_per_minute := 2; burst := 10; requests := [0%Q; 1%Q] |}
  = Ok (Some (60 - (2 - 0))%Q,
        {| requests_per_minute := 2; burst := 10; requests := [1%Q; 2%Q] |}).
Proof. split; reflexivity. Qed.

End rate_limiter.

(* ===================================================================== *)
(** * Properties of the retrying request                                   *)
(* ===================================================================== *)

Section request.
Import Py api_client samples.

(** An HTTP error status other than 401 and 429 leaves the [try] block as
    an [HTTPError]. *)
Lemma try_block_http_error r :
  400 <= status_code r < 600 -> status_code r <> 401 -> status_code r <> 429 ->
  try_block (Answered r) = (Raise HTTPError, [Sent]).
Proof.
  intros Hr H401 H429. unfold try_block, raise_for_status.
  destruct (Z.eqb_spec (status_code r) 429); [done|].
  destruct (Z.eqb_spec (status_code r) 401); [done|].
  destruct (Z.leb_spec 400 (status_code r)); [|lia].
  destruct (Z.ltb_spec (status_code r) 600); [|lia].
  reflexivity.
Qed.

(** C3, what the code does. An answer with an HTTP error status other than
    401 and 429 makes [_make_request] raise [APIError] after a single
    request, whatever [max_retries] is: the handler inside the body has
    turned the [HTTPError] into an [APIError], which the retry predicate
    does not match. *)
Theorem http_error_raised_on_first_attempt
    (max_retries : Z) (world : nat -> Q * wire) (rl : RateLimiter)
    (now : Q) (r : Response) :
  world 1%nat = (now, Answered r) ->
  400 <= status_code r < 600 -> status_code r <> 401 -> status_code r <> 429 ->
  1 <= requests_per_minute rl ->
  exists rl' slept,
    _make_request max_retries world rl
    = (Raise APIError, rl', [Throttled slept; Sent]).
Proof.
  intros Hw Hr H401 H429 Hrpm.
  destruct (wait_if_needed_ok now rl Hrpm) as (slept & rl' & Hwait & _).
  exists rl', slept.
  unfold _make_request.
  destruct (Z.to_nat (max_retries - 1)) as [|left];
    simpl; rewrite Hw; unfold attempt; rewrite Hwait;
    rewrite (try_block_http_error r Hr H401 H429); reflexivity.
Qed.

Lemma http_error_raised_on_first_attempt_witness :
  exists rl' slept,
    _make_request 3 (always (Answered (http 500))) (RateLimiter_init 60 10)
    = (Raise APIError, rl', [Throttled slept; Sent]).
Proof.
  apply (http_error_raised_on_first_attempt 3 (always (Answered (http 500)))
           (RateLimiter_init 60 10) 1%Q (http 500)).
  - reflexivity.
  - simpl. lia.
  - simpl. lia.
  - simpl. lia.
  - simpl. lia.
Defined.

(** A transport failure is converted to [APIError] in the same way and is
    not retried either. *)
Lemma transport_failure_not_retried max_retries world rl now :
  world 1%nat = (now, Failed) ->
  1 <= requests_per_minute rl ->
  exists rl' slept,
    _make_request max_retries world rl
    = (Raise APIError, rl', [Throttled slept; Sent]).
Proof.
  intros Hw Hrpm.
  destruct (wait_if_needed_ok now rl Hrpm) as (slept & rl' & Hwait & _).
  exists rl', slept. unfold _make_request.
  destruct (Z.to_nat (max_retries - 1)) as [|left];
    simpl; rewrite Hw; unfold attempt; rewrite Hwait; reflexivity.
Qed.

(** HTTP 401 raises [AuthenticationError] on the first attempt. *)
Lemma authentication_error_not_retried max_retries world rl now r :
  world 1%nat = (now, Answered r) ->
  status_code r = 401 ->
  1 <= requests_per_minute rl ->
  exists rl' slept,
    _make_request max_retries world rl
    = (Raise AuthenticationError, rl', [Throttled slept; Sent]).
Proof.
  intros Hw Hr Hrpm.
  destruct (wait_if_needed_ok now rl Hrpm) as (slept & rl' & Hwait & _).
  exists rl', slept. unfold _make_request.
  destruct (Z.to_nat (max_retries - 1)) as [|left];
    simpl; rewrite Hw; unfold attempt; rewrite Hwait;
    unfold try_block; rewrite Hr; reflexivity.
Qed.

(** With a [Retry-After] it can sleep, the 429 branch sleeps and raises
    [RateLimitError]. *)
Lemma try_block_rate_limited r :
  status_code r = 429 -> sleepable (retry_after r) = true ->
  exists seconds,
    try_block (Answered r) = (Raise RateLimitError, [Sent; Slept seconds]).
Proof.
  intros Hr Hh. unfold try_block. rewrite Hr. simpl.
  destruct (retry_after r) as [|z|z|]; simpl in Hh; try discriminate; [eauto|].
  destruct (sleep_check z); [eauto|discriminate].
Qed.

(** HTTP 429 is what the retry predicate matches: the request is sent again
    until [stop_after_attempt] ends the loop with [RetryError]. *)
Lemma rate_limited_retried_until_exhausted world :
  (forall n, exists now r, world n = (now, Answered r) /\ status_code r = 429
                            /\ sleepable (retry_after r) = true) ->
  forall left attempt_number rl,
  1 <= requests_per_minute rl ->
  exists rl' tr,
    retrying left attempt_number world rl = (Raise RetryError, rl', tr) /\
    sent tr = Datatypes.S left.
Proof.
  intros Hworld. induction left as [|left IH]; intros n rl Hrpm.
  - destruct (Hworld n) as (now & r & Hw & Hr & Hh).
    destruct (wait_if_needed_ok now rl Hrpm) as (slept & rl' & Hwait & _).
    destruct (try_block_rate_limited r Hr Hh) as (seconds & Htry).
    simpl. rewrite Hw. unfold attempt. rewrite Hwait, Htry. simpl. eauto.
  - destruct (Hworld n) as (now & r & Hw & Hr & Hh).
    destruct (wait_if_needed_ok now rl Hrpm) as (slept & rl' & Hwait & Hrpm').
    destruct (IH (Datatypes.S n) rl') as (rl2 & tr2 & Hrec & Hsent); [lia|].
    destruct (try_block_rate_limited r Hr Hh) as (seconds & Htry).
    simpl. rewrite Hw. unfold attempt. rewrite Hwait, Htry. simpl.
    simpl in Hrec. rewrite Hrec.
    eexists _, _. split; [reflexivity|].
    unfold sent in *. cbn. rewrite Hsent. reflexivity.
Qed.

Example three_requests_on_429 :
  let '(r, _, tr) :=
    _make_request 3 (always (Answered (http 429))) (RateLimiter_init 60 10) in
  r = Raise RetryError /\ sent tr = 3%nat.
Proof. vm_compute. split; reflexivity. Qed.

(** The same with a [Retry-After] of two seconds, which is slept at each
    attempt. *)
Example three_requests_on_429_with_retry_after :
  let limited := {| status_code := 429; retry_after := IntText 2; payload := None |} in
  let '(r, _, tr) :=
    _make_request 3 (always (Answered limited)) (RateLimiter_init 60 10) in
  r = Raise RetryError /\ sent tr = 3%nat /\
  List.filter (fun e => match e with Slept _ => true | _ => false end) tr
  = [Slept 2; Slept 2; Slept 2].
Proof. vm_compute. repeat split; reflexivity. Qed.

Example one_request_on_500 :
  let '(r, _, tr) :=
    _make_request 3 (always (Answered (http 500))) (RateLimiter_init 60 10) in
  r = Raise APIError /\ sent tr = 1%nat.
Proof. vm_compute. split; reflexivity. Qed.

(** A negative [Retry-After] makes [time.sleep] raise [ValueError], and a
    text that is not an integer makes [int()] raise it: neither is
    retried. *)
Example one_request_on_negative_retry_after :
  let limited h := {| status_code := 429; retry_after := h; payload := None |} in
  let '(r1, _, tr1) :=
    _make_request 3 (always (Answered (limited (IntText (-5)))))
      (RateLimiter_init 60 10) in
  let '(r2, _, tr2) :=
    _make_request 3 (always (Answered (limited OtherText)))
      (RateLimiter_init 60 10) in
  r1 = Raise ValueError /\ sent tr1 = 1%nat /\
  r2 = Raise ValueError /\ sent tr2 = 1%nat.
Proof. vm_compute. repeat split; reflexivity. Qed.

End request.

(* ===================================================================== *)
(** * Properties of the response parsers                                   *)
(* ===================================================================== *)

Section parsers.
Import Py models stocks_models updated_yahoo_client.
Context `{RT : Runtime}.

Lemma required_only_validation {A} (v : pyval -> option A) kw k :
  only_validation (required v kw k).
Proof. unfold required. destruct (assoc_get kw k) as [x|]; [destruct (v x)|]; done. Qed.

Lemma optional_only_validation {A} (v : pyval -> option A) kw k :
  only_validation (optional v kw k).
Proof.
  unfold optional. destruct (assoc_get kw k) as [x|]; [|done].
  destruct x; try done; destruct (v _); done.
Qed.

Lemma defaulted_only_validation {A} (v : pyval -> option A) d kw k :
  only_validation (defaulted v d kw k).
Proof. unfold defaulted. destruct (assoc_get kw k) as [x|]; [destruct (v x)|]; done. Qed.

Lemma bind_only_validation {A B} (r : result A) (k : A -> result B) :
  only_validation r -> (forall a, only_validation (k a)) ->
  only_validation (r ≫= k).
Proof. destruct r; simpl; auto. Qed.

Ltac validation_chain :=
  repeat (apply bind_only_validation;
          [ first [ apply required_only_validation
                  | apply optional_only_validation
                  | apply defaulted_only_validation ]
          | intros ? ]);
  exact I.

Lemma Stock_init_only_validation kw : only_validation (Stock_init kw).
Proof. unfold Stock_init. validation_chain. Qed.

Lemma StockQuote_init_only_validation kw : only_validation (StockQuote_init kw).
Proof. unfold StockQuote_init. validation_chain. Qed.

(** Inverting a successful bind. *)
Lemma bind_Ok {A B} (r : result A) (k : A -> result B) b :
  r ≫= k = Ok b -> exists a, r = Ok a /\ k a = Ok b.
Proof. destruct r; simpl; [eauto|discriminate]. Qed.

Lemma Stock_init_symbol kw s :
  Stock_init kw = Ok s -> required as_str kw "symbol" = Ok (Stock.symbol s).
Proof.
  unfold Stock_init. intros H.
  repeat (apply bind_Ok in H; destruct H as (? & ? & H)).
  injection H as <-. assumption.
Qed.

Lemma StockQuote_init_symbol kw q :
  StockQuote_init kw = Ok q -> required as_str kw "symbol" = Ok (StockQuote.symbol q).
Proof.
  unfold StockQuote_init. intros H.
  repeat (apply bind_Ok in H; destruct H as (? & ? & H)).
  injection H as <-. assumption.
Qed.

Lemma assoc_get_drop_none_None kw k :
  assoc_get kw k = None -> assoc_get (drop_none kw) k = None.
Proof.
  induction kw as [|[k' v] kw IH]; simpl; [done|].
  destruct (String.eqb k' k) eqn:E; [discriminate|]. intros Hn.
  destruct (is_None v); simpl; [auto|]. rewrite E. auto.
Qed.

(** The [symbol] keyword survives [drop_none] exactly when it is a string. *)
Lemma required_symbol_head (symbol : pyval) rest s :
  assoc_get rest "symbol" = None ->
  required as_str (drop_none (("symbol", symbol) :: rest)) "symbol" = Ok s ->
  symbol = PStr s.
Proof.
  intros Hrest. unfold required, drop_none. simpl.
  destruct (is_None symbol) eqn:En; simpl.
  - fold (drop_none rest). rewrite (assoc_get_drop_none_None _ _ Hrest). discriminate.
  - destruct symbol; simpl; try discriminate. congruence.
Qed.

Lemma get_Ok x k v : get x k = Ok v -> exists d, x = PDict d.
Proof. destruct x; simpl; try discriminate. eauto. Qed.

Lemma parse_ticker_data_symbol x s :
  parse_ticker_data x = Ok s -> get x "symbol" = Ok (PStr (Stock.symbol s)).
Proof.
  unfold parse_ticker_data. intros H.
  do 10 (apply bind_Ok in H; destruct H as (? & ? & H)).
  apply Stock_init_symbol in H.
  apply required_symbol_head in H; [|reflexivity]. congruence.
Qed.

Lemma parse_quote_data_symbol x q :
  parse_quote_data x = Ok q -> get x "symbol" = Ok (PStr (StockQuote.symbol q)).
Proof.
  unfold parse_quote_data. intros H.
  do 18 (apply bind_Ok in H; destruct H as (? & ? & H)).
  apply StockQuote_init_symbol in H.
  apply required_symbol_head in H; [|reflexivity]. congruence.
Qed.

Lemma parse_ticker_data_dict d : only_validation (parse_ticker_data (PDict d)).
Proof. unfold parse_ticker_data. simpl. apply Stock_init_only_validation. Qed.

Lemma parse_quote_data_dict d : only_validation (parse_quote_data (PDict d)).
Proof.
  unfold parse_quote_data.
  repeat (apply bind_only_validation;
          [ first [ exact I | destruct (truthy _); exact I ] | intros ? ]).
  apply StockQuote_init_only_validation.
Qed.

Lemma parse_each_spec {A} (f : pyval -> result A) body : forall rs,
  parse_each f body = Ok rs ->
  (length rs <= length body)%nat /\
  Forall (fun r => exists x, In x body /\ f x = Ok r) rs.
Proof.
  induction body as [|x body IH]; simpl; intros rs H.
  - injection H as <-. split; [simpl; lia|constructor].
  - destruct (f x) as [a|e] eqn:Ef.
    + apply bind_Ok in H. destruct H as (rest & Hrest & H). injection H as <-.
      destruct (IH _ Hrest) as [Hlen Hall]. split; [simpl; lia|].
      constructor; [eauto|].
      eapply Forall_impl; [exact Hall|]. intros r (y & Hy & Hfy). eauto.
    + assert (e = ValidationError) as -> by (destruct e; congruence).
      destruct (IH _ H) as [Hlen Hall]. split; [lia|].
      eapply Forall_impl; [exact Hall|]. intros r (y & Hy & Hfy). eauto.
Qed.

Lemma parse_each_total {A} (f : pyval -> result A) body :
  Forall (fun x => only_validation (f x)) body ->
  exists rs, parse_each f body = Ok rs.
Proof.
  induction 1 as [|x body Hx _ IH]; simpl; [eauto|].
  destruct IH as (rs & ->). destruct (f x) as [a|e]; simpl; [eauto|].
  simpl in Hx. subst e. eauto.
Qed.

Lemma parse_response_inv {A} (f : pyval -> result A) response_data rs :
  (has_body ← contains "body" response_data;
   if has_body : bool then
     body ← getitem response_data "body";
     match body with
     | PList l => parse_each f l
     | _ => Ok []
     end
   else Ok []) = Ok rs ->
  rs = [] \/ exists body, body_of response_data = Some body /\ parse_each f body = Ok rs.
Proof.
  intros H. apply bind_Ok in H. destruct H as (has & Hc & H).
  destruct has; [|left; congruence].
  apply bind_Ok in H. destruct H as (body & Hb & H).
  destruct response_data; simpl in Hb; try discriminate.
  destruct (assoc_get d "body") as [v|] eqn:Ed; [|discriminate].
  injection Hb as ->.
  destruct body; try (left; congruence).
  right. exists l. unfold body_of. rewrite Ed. auto.
Qed.

(** C4, as the code has it. The parsers return at most one record per
    element of [body]; the symbol of every returned record is the string
    stored under the [symbol] key of an element, kept as it is (the empty
    string included); and when every element of [body] is an object the
    parsers return: an element that fails validation is dropped. *)
Theorem parsed_records_bounded_and_keyed (response_data : pyval) :
  (forall stocks,
      parse_tickers_response response_data = Ok stocks ->
      (length stocks <= body_length response_data)%nat /\
      Forall (fun s => exists x, In x (default [] (body_of response_data)) /\
                                 get x "symbol" = Ok (PStr (Stock.symbol s)))
             stocks) /\
  (forall quotes,
      parse_quotes_response response_data = Ok quotes ->
      (length quotes <= body_length response_data)%nat /\
      Forall (fun q => exists x, In x (default [] (body_of response_data)) /\
                                 get x "symbol" = Ok (PStr (StockQuote.symbol q)))
             quotes) /\
  (forall body,
      body_of response_data = Some body -> Forall is_dict body ->
      is_ok (parse_tickers_response response_data) = true /\
      is_ok (parse_quotes_response response_data) = true).
Proof.
  split; [|split].
  - intros stocks H. apply parse_response_inv in H.
    destruct H as [->|(body & Hb & H)]; [split; [simpl; lia|constructor]|].
    unfold body_length. rewrite Hb. simpl.
    destruct (parse_each_spec _ _ _ H) as [Hlen Hall]. split; [exact Hlen|].
    eapply Forall_impl; [exact Hall|].
    intros s (x & Hx & Hp). exists x. split; [exact Hx|].
    now apply parse_ticker_data_symbol.
  - intros quotes H. apply parse_response_inv in H.
    destruct H as [->|(body & Hb & H)]; [split; [simpl; lia|constructor]|].
    unfold body_length. rewrite Hb. simpl.
    destruct (parse_each_spec _ _ _ H) as [Hlen Hall]. split; [exact Hlen|].
    eapply Forall_impl; [exact Hall|].
    intros q (x & Hx & Hp). exists x. split; [exact Hx|].
    now apply parse_quote_data_symbol.
  - intros body Hb Hdict.
    destruct response_data as [| | | | | |d]; simpl in Hb; try discriminate.
    destruct (assoc_get d "body") as [v|] eqn:Ed; [|discriminate].
    destruct v; try discriminate. injection Hb as ->.
    unfold parse_tickers_response, parse_quotes_response. simpl. rewrite Ed. simpl.
    destruct (parse_each_total parse_ticker_data body) as (rs & ->).
    { eapply Forall_impl; [exact Hdict|]. intros x (dx & ->).
      apply parse_ticker_data_dict. }
    destruct (parse_each_total parse_quote_data body) as (qs & ->).
    { eapply Forall_impl; [exact Hdict|]. intros x (dx & ->).
      apply parse_quote_data_dict. }
    split; reflexivity.
Qed.

(** C5, as the code has it. For an object payload whose [body] is missing
    or is not a list, both parsers return the empty list: the outcome of a
    payload with an empty [body] array. *)
Theorem payload_without_body_parses_to_empty (d : list (string * pyval)) :
  body_of (PDict d) = None ->
  parse_tickers_response (PDict d) = Ok [] /\
  parse_quotes_response (PDict d) = Ok [].
Proof.
  unfold body_of, parse_tickers_response, parse_quotes_response. simpl.
  destruct (assoc_get d "body") as [v|] eqn:Ed; simpl; [|auto].
  destruct v; try discriminate; auto.
Qed.

End parsers.

Section parser_examples.
Import Py models stocks_models updated_yahoo_client samples.

Lemma parsed_records_bounded_and_keyed_witness :
  body_of tickers_two_of_three
  = Some [PDict [("symbol", PStr "AAPL"); ("marketCap", PStr "2,900,000")];
          PDict [("name", PStr "no symbol")];
          PDict [("symbol", PStr "MSFT")]] /\
  Forall is_dict [PDict [("symbol", PStr "AAPL"); ("marketCap", PStr "2,900,000")];
                  PDict [("name", PStr "no symbol")];
                  PDict [("symbol", PStr "MSFT")]] /\
  is_ok (parse_tickers_response (RT:=reference.runtime) tickers_two_of_three) = true /\
  is_ok (parse_quotes_response (RT:=reference.runtime) tickers_two_of_three) = true.
Proof.
  split; [reflexivity|].
  assert (Hd : Forall is_dict
                 [PDict [("symbol", PStr "AAPL"); ("marketCap", PStr "2,900,000")];
                  PDict [("name", PStr "no symbol")];
                  PDict [("symbol", PStr "MSFT")]]).
  { repeat constructor; eexists; reflexivity. }
  split; [exact Hd|].
  exact (proj2 (proj2 (parsed_records_bounded_and_keyed
                         (RT:=reference.runtime) tickers_two_of_three))
               _ eq_refl Hd).
Defined.

(** The element without a symbol is dropped, the other two are returned. *)
Example tickers_two_of_three_parsed :
  List.map Stock.symbol
    <$> (match parse_tickers_response (RT:=reference.runtime) tickers_two_of_three with
         | Ok l => Some l | Raise _ => None end)
  = Some ["AAPL"; "MSFT"].
Proof. vm_compute. reflexivity. Qed.

(** C4, where the claim fails. An element whose symbol is the empty string
    passes validation: the returned record has an empty identifying key. *)
Lemma empty_symbol_is_returned :
  exists s q,
    parse_tickers_response (RT:=reference.runtime) body_with_empty_symbol = Ok [s] /\
    parse_quotes_response (RT:=reference.runtime) body_with_empty_symbol = Ok [q] /\
    Stock.symbol s = "" /\ StockQuote.symbol q = "".
Proof. eexists _, _. vm_compute. repeat split; reflexivity. Qed.

(** An element that is not an object makes the parser raise. *)
Example non_object_element_raises :
  parse_tickers_response (RT:=reference.runtime)
    (PDict [("body", PList [PInt 1])]) = Raise AttributeError.
Proof. vm_compute. reflexivity. Qed.

Lemma payload_without_body_parses_to_empty_witness :
  body_of (PDict [("message", PStr "quota exceeded")]) = None /\
  parse_tickers_response (RT:=reference.runtime)
    (PDict [("message", PStr "quota exceeded")]) = Ok [] /\
  parse_quotes_response (RT:=reference.runtime)
    (PDict [("message", PStr "quota exceeded")]) = Ok [].
Proof.
  split; [reflexivity|].
  apply (payload_without_body_parses_to_empty (RT:=reference.runtime)
           [("message", PStr "quota exceeded")]).
  reflexivity.
Defined.

(** C5, where the claim fails. A payload without [body], a payload whose
    [body] is not a list and a payload with an empty [body] array all give
    the same outcome, [Ok []]: the caller cannot tell them apart. *)
Lemma unparseable_payload_looks_empty :
  parse_quotes_response (RT:=reference.runtime) (PDict []) = Ok [] /\
  parse_quotes_response (RT:=reference.runtime) (PDict [("body", PStr "oops")]) = Ok [] /\
  parse_quotes_response (RT:=reference.runtime) (PDict [("body", PList [])]) = Ok [] /\
  parse_tickers_response (RT:=reference.runtime) (PDict []) = Ok [] /\
  parse_tickers_response (RT:=reference.runtime) (PDict [("body", PStr "oops")]) = Ok [] /\
  parse_tickers_response (RT:=reference.runtime) (PDict [("body", PList [])]) = Ok [].
Proof. vm_compute. repeat split; reflexivity. Qed.

(** A payload that is not a container does raise. *)
Example null_payload_raises :
  parse_quotes_response (RT:=reference.runtime) PNone = Raise TypeError.
Proof. vm_compute. reflexivity. Qed.

End parser_examples.

(* ===================================================================== *)
(** * Properties of the extractors                                         *)
(* ===================================================================== *)

Section sub_call_loop.
Import Py models stocks_models extractors.
Context {S Call Item : Type}.
Variable request : Call -> S -> APIResponse * S.
Variable on_success : Call -> pyval -> result (list Item * Z).
Variable on_failure : Call -> Z.


(** Whatever the outcomes, [processed_items] moves with the number of
    accumulated items, [failed_items] never decreases and the total is not
    touched by the loop. *)
Lemma sub_calls_invariant :
  (forall c d new_items n,
      on_success c d = Ok (new_items, n) -> n = Z.of_nat (length new_items)) ->
  (forall c, 0 <= on_failure c) ->
  forall calls p cl p' cl' e,
    sub_calls request on_success on_failure calls p cl = (p', cl', e) ->
    processed_items (job p') - Z.of_nat (length (items p'))
    = processed_items (job p) - Z.of_nat (length (items p)) /\
    failed_items (job p) <= failed_items (job p') /\
    total_items (job p') = total_items (job p).
Proof.
  intros Hcount Hpos. induction calls as [|c calls IH]; intros p cl p' cl' e; simpl.
  - intros [= <- <- <-]. repeat split; lia.
  - destruct (request c cl) as [r cl1]. destruct (success r).
    + destruct (on_success c (data r)) as [[new_items n]|ex] eqn:Eh.
      * intros Hrun. apply IH in Hrun. simpl in Hrun.
        apply Hcount in Eh. rewrite length_app in Hrun.
        destruct Hrun as (H1 & H2 & H3). repeat split; try lia. exact H3.
      * intros [= <- <- <-]. repeat split; lia.
    + intros Hrun. apply IH in Hrun. simpl in Hrun.
      specialize (Hpos c). destruct Hrun as (H1 & H2 & H3).
      repeat split; try lia. exact H3.
Qed.





End sub_call_loop.

Section extractor_properties.
Import Py models stocks_models updated_yahoo_client extractors.
Context `{RT : Runtime} {S : Type} `{CL : Client S}.
Variable config : Config.

Lemma for_each_length {A B} (f : A -> result B) xs : forall ys,
  for_each f xs = Ok ys -> length ys = length xs.
Proof.
  induction xs as [|x xs IH]; simpl; intros ys H.
  - now injection H as <-.
  - apply bind_Ok in H. destruct H as (y & _ & H).
    apply bind_Ok in H. destruct H as (ys' & Hys & H).
    injection H as <-. simpl. f_equal. now apply IH.
Qed.

Lemma length_list_ascii_of_string s :
  length (String.list_ascii_of_string s) = String.length s.
Proof. induction s; simpl; congruence. Qed.

Lemma iterate_len x l n :
  iterate x = Ok l -> len x = Ok n -> n = Z.of_nat (length l).
Proof.
  destruct x; simpl; try discriminate; intros [= <-] [= <-].
  - now rewrite length_map, length_list_ascii_of_string.
  - reflexivity.
  - now rewrite length_map.
Qed.

Lemma tickers_on_success_count c d new_items n :
  tickers_on_success c d = Ok (new_items, n) -> n = Z.of_nat (length new_items).
Proof.
  unfold tickers_on_success. intros H.
  apply bind_Ok in H. destruct H as (? & _ & H). now injection H as <- <-.
Qed.

Lemma quotes_on_success_count c d new_items n :
  quotes_on_success c d = Ok (new_items, n) -> n = Z.of_nat (length new_items).
Proof.
  unfold quotes_on_success. intros H.
  apply bind_Ok in H. destruct H as (? & _ & H). now injection H as <- <-.
Qed.

Lemma history_on_success_count c d new_items n :
  history_on_success c d = Ok (new_items, n) -> n = Z.of_nat (length new_items).
Proof.
  unfold history_on_success. intros H.
  apply bind_Ok in H. destruct H as (body & _ & H).
  apply bind_Ok in H. destruct H as (records & Hit & H).
  apply bind_Ok in H. destruct H as (hs & Hfor & H).
  apply bind_Ok in H. destruct H as (m & Hlen & H).
  injection H as <- <-.
  rewrite (for_each_length _ _ _ Hfor). eapply iterate_len; eassumption.
Qed.

Lemma screener_on_success_count c d new_items n :
  screener_on_success c d = Ok (new_items, n) -> n = Z.of_nat (length new_items).
Proof.
  unfold screener_on_success. intros H.
  apply bind_Ok in H. destruct H as (body & _ & H).
  apply bind_Ok in H. destruct H as (records & Hit & H).
  apply bind_Ok in H. destruct H as (ss & Hfor & H).
  apply bind_Ok in H. destruct H as (m & Hlen & H).
  injection H as <- <-.
  rewrite (for_each_length _ _ _ Hfor), length_combine, length_seq, Nat.min_id.
  eapply iterate_len; eassumption.
Qed.

Lemma news_on_success_count c d new_items n :
  news_on_success c d = Ok (new_items, n) -> n = Z.of_nat (length new_items).
Proof.
  unfold news_on_success. intros H.
  apply bind_Ok in H. destruct H as (body & _ & H).
  apply bind_Ok in H. destruct H as (records & Hit & H).
  apply bind_Ok in H. destruct H as (ns & Hfor & H).
  apply bind_Ok in H. destruct H as (m & Hlen & H).
  injection H as <- <-.
  rewrite (for_each_length _ _ _ Hfor). eapply iterate_len; eassumption.
Qed.



(** With a batch size of one, the quotes extractor issues one call per
    symbol. *)
Lemma chunks_of_one symbols : forall fuel,
  (length symbols <= fuel)%nat ->
  chunks fuel 1 symbols = List.map (fun s => [s]) symbols.
Proof.
  induction symbols as [|s symbols IH]; intros [|fuel] Hf; simpl in *;
    try reflexivity; try lia.
  f_equal. apply IH. lia.
Qed.

Lemma batches_of_one symbols :
  batches 1 symbols = Ok (List.map (fun s => [s]) symbols).
Proof. unfold batches. simpl. f_equal. now apply chunks_of_one. Qed.

End extractor_properties.

Section extractor_examples.
Import Py models stocks_models updated_yahoo_client extractors samples.


(** The scenario, evaluated: three symbols, the second call fails, the
    other two return one record each. *)
Example three_symbols_one_failure :
  let j := fst (StockNewsExtractor_extract default_config env0
                  (Some three_symbols) one_failure_one_record_each) in
  status j = COMPLETED /\ total_items j = Some 2 /\
  processed_items j = 2 /\ failed_items j = 1.
Proof. vm_compute. repeat split; reflexivity. Qed.

(** The same scenario on the quotes extractor with a batch size of one. *)
Example three_quotes_one_failure :
  let j := fst (StockQuotesExtractor_extract (RT:=reference.runtime) config_batch_1 env0
                  (Some three_symbols)
                  [ok_response (quotes_payload ["AAPL"]); failed_response;
                   ok_response (quotes_payload ["GOOGL"])]) in
  status j = COMPLETED /\ processed_items j = 2 /\ failed_items j = 1.
Proof. vm_compute. repeat split; reflexivity. Qed.

(** With the default batch size the three symbols travel in one call; when
    it fails all three are counted as failed. *)
Example three_quotes_one_batch :
  let j := fst (StockQuotesExtractor_extract (RT:=reference.runtime) default_config env0
                  (Some three_symbols) [failed_response]) in
  status j = COMPLETED /\ processed_items j = 0 /\ failed_items j = 3.
Proof. vm_compute. repeat split; reflexivity. Qed.

(** [processed_items] counts records, not successful calls: when the two
    successful calls of the scenario return two records each, the job is
    completed with [failed_items = 1] and [processed_items = 4]. *)
Example processed_items_counts_records :
  let j := fst (StockNewsExtractor_extract default_config env0
                  (Some three_symbols) one_failure_two_records_each) in
  length (outcomes (fun symbol => get_stock_news [symbol]) three_symbols
                   one_failure_two_records_each) = 3%nat /\
  failures (outcomes (fun symbol => get_stock_news [symbol]) three_symbols
                     one_failure_two_records_each) = 1%nat /\
  status j = COMPLETED /\ failed_items j = 1 /\
  processed_items j = 4 /\ processed_items j <> 2.
Proof. vm_compute. repeat split; try reflexivity. discriminate. Qed.


(** The same on the tickers extractor: one page, one type, a failed call. *)
Example failed_tickers_call_exceeds_total :
  let j := fst (MarketTickersExtractor_extract (RT:=reference.runtime) default_config env0
                  (Some 1) (Some ["STOCKS"]) [failed_response]) in
  status j = COMPLETED /\ total_items j = Some 0 /\
  processed_items j = 0 /\ failed_items j = 1.
Proof. vm_compute. repeat split; reflexivity. Qed.

(** A record that fails validation inside a successful news call is not
    skipped: the run ends [FAILED] and the total stays unset. *)
Example news_record_without_title_fails_the_job :
  let j := fst (StockNewsExtractor_extract default_config env0
                  (Some ["AAPL"])
                  [ok_response (PDict [("body", PList [PDict [("url", PStr "u")]])])]) in
  status j = FAILED /\ total_items j = None.
Proof. vm_compute. split; reflexivity. Qed.

End extractor_examples.

(* ===================================================================== *)
(** * Binary64 rounding of a quotient and of a product                     *)
(* ===================================================================== *)

Section rounding.
Import Py.

Lemma digits2_pos_size p : digits2_pos p = Pos.size p.
Proof. induction p; simpl; congruence. Qed.

(** [digits2_pos] counts the binary digits. *)
Lemma digits2_pos_bounds p :
  2 ^ (Z.pos (digits2_pos p) - 1) <= Z.pos p < 2 ^ Z.pos (digits2_pos p).
Proof.
  rewrite digits2_pos_size. split.
  - pose proof (Pos.size_le p) as H.
    assert (H2 : 2 ^ Z.pos (Pos.size p) <= 2 * Z.pos p).
    { change (2 * Z.pos p) with (Z.pos p~0). rewrite <- Pos2Z.inj_pow. exact H. }
    replace (Z.pos (Pos.size p)) with (Z.pos (Pos.size p) - 1 + 1) in H2 by lia.
    rewrite Z.pow_add_r in H2 by lia. lia.
  - pose proof (Pos.size_gt p) as H.
    change 2 with (Z.pos 2). rewrite <- Pos2Z.inj_pow. exact H.
Qed.

Lemma digits2_pos_unique p d :
  2 ^ (d - 1) <= Z.pos p < 2 ^ d -> Z.pos (digits2_pos p) = d.
Proof.
  intros [Hlo Hhi]. pose proof (digits2_pos_bounds p) as [Hlo' Hhi'].
  set (d' := Z.pos (digits2_pos p)) in *.
  assert (0 < d).
  { destruct (Z.ltb_spec 0 d); [assumption|].
    rewrite Z.pow_neg_r in Hlo by lia.
    destruct (Z.eq_dec d 0) as [->|]; [simpl in Hhi; lia|].
    rewrite Z.pow_neg_r in Hhi by lia. lia. }
  destruct (Z.lt_trichotomy d' d) as [Hlt|[Heq|Hgt]]; [|exact Heq|].
  - assert (2 ^ d' <= 2 ^ (d - 1)) by (apply Z.pow_le_mono_r; lia). lia.
  - assert (2 ^ d <= 2 ^ (d' - 1)) by (apply Z.pow_le_mono_r; lia). lia.
Qed.

Variables N D : Z.
Hypothesis HN : 0 <= N.
Hypothesis HD : 0 < D.

Lemma stands_for_shr_1 k mrs :
  0 <= k -> stands_for N D k mrs -> stands_for N D (k + 1) (shr_1 mrs).
Proof.
  intros Hk (Hm & Hr & Hs). unfold stands_for in *.
  rewrite Z.pow_add_r by lia. change (2 ^ 1) with 2.
  set (W := D * 2 ^ k) in *.
  assert (HW : 0 < W) by (unfold W; apply Z.mul_pos_pos; [lia|apply Z.pow_pos_nonneg; lia]).
  replace (D * (2 ^ k * 2)) with (2 * W) by (unfold W; ring).
  pose proof (Z.div_mod N W ltac:(lia)) as Hdm.
  pose proof (Z.mod_pos_bound N W HW) as Hrem.
  set (q := N / W) in *. set (R := N mod W) in *.
  assert (Hq : 0 <= q) by (unfold q; apply Z.div_pos; lia).
  destruct mrs as [m r s]. simpl in Hm, Hr, Hs. subst m r s.
  assert (Hcases : exists p bit, q = 2 * p + bit /\ 0 <= p /\ (bit = 0 \/ bit = 1)).
  { exists (q / 2), (q mod 2). pose proof (Z.div_mod q 2 ltac:(lia)).
    pose proof (Z.mod_pos_bound q 2 ltac:(lia)).
    split; [lia|]. split; [apply Z.div_pos; lia|lia]. }
  destruct Hcases as (p & bit & Hqp & Hp & Hbit).
  assert (Hdiv : N / (2 * W) = p).
  { symmetry. apply (Z.div_unique N (2 * W) p (W * bit + R)); [nia|nia]. }
  assert (Hmod : N mod (2 * W) = W * bit + R).
  { symmetry. apply (Z.mod_unique N (2 * W) p (W * bit + R)); [nia|nia]. }
  rewrite Hdiv, Hmod.
  assert (Hsticky : (W <=? 2 * R) || negb ((R =? 0) || (2 * R =? W)) = negb (R =? 0)).
  { destruct (Z.eqb_spec R 0) as [->|HR].
    - simpl. destruct (Z.leb_spec W (2 * 0)); [lia|reflexivity].
    - simpl. destruct (Z.leb_spec W (2 * R)); [reflexivity|].
      destruct (Z.eqb_spec (2 * R) W); [lia|reflexivity]. }
  destruct Hbit as [-> | ->].
  - (* even *)
    assert (q = 2 * p) by lia.
    replace (W * 0 + R) with R by ring.
    destruct q as [|[pq|pq|]|pq]; try lia; simpl;
      rewrite ?Hsticky;
      (split; [lia|]);
      (split; [destruct (Z.leb_spec (2 * W) (2 * R)); [lia|reflexivity]|]);
      destruct (Z.eqb_spec R 0); destruct (Z.eqb_spec (2 * R) (2 * W)); simpl; try reflexivity; lia.
  - assert (q = 2 * p + 1) by lia.
    destruct q as [|[pq|pq|]|pq]; try lia; simpl;
      rewrite ?Hsticky;
      (split; [lia|]);
      (split; [destruct (Z.leb_spec (2 * W) (2 * (W * 1 + R))); [reflexivity|lia]|]);
      destruct (Z.eqb_spec R 0); destruct (Z.eqb_spec (W * 1 + R) 0);
      destruct (Z.eqb_spec (2 * (W * 1 + R)) (2 * W)); simpl; try reflexivity; lia.
Qed.

Lemma stands_for_iter p : forall k mrs,
  0 <= k -> stands_for N D k mrs -> stands_for N D (k + Z.pos p) (iter_pos shr_1 p mrs).
Proof.
  induction p as [p IH|p IH|]; intros k mrs Hk H; simpl.
  - replace (k + Z.pos p~1) with (k + 1 + Z.pos p + Z.pos p) by lia.
    apply IH; [lia|]. apply IH; [lia|]. now apply stands_for_shr_1.
  - replace (k + Z.pos p~0) with (k + Z.pos p + Z.pos p) by lia.
    apply IH; [lia|]. now apply IH.
  - now apply stands_for_shr_1.
Qed.

(** [binary_round_aux] on a mantissa of [53 + n] digits, away from the
    subnormal and the overflow range: the result is a normal number whose
    mantissa is within half a unit of the quotient [N / D] it stands
    for, or exactly that quotient when no digit is lost. *)
Lemma binary_round_aux_spec sx mx ex lx n :
  0 <= n ->
  stands_for N D 0 (shr_record_of_loc mx lx) ->
  2 ^ (52 + n) <= mx < 2 ^ (53 + n) ->
  -1074 <= n + ex -> n + ex + 1 <= 971 ->
  exists m k,
    binary_round_aux prec emax sx mx ex lx = S754_finite sx m (ex + k) /\
    (k = n \/ k = n + 1) /\
    2 ^ 52 <= Z.pos m < 2 ^ 53 /\
    D * 2 ^ k * (2 * Z.pos m - 1) <= 2 * N <= D * 2 ^ k * (2 * Z.pos m + 1) /\
    (N mod (D * 2 ^ n) = 0 -> k = n /\ Z.pos m * (D * 2 ^ n) = N).
Proof.
  intros Hn H0 Hmx Hlo Hhi.
  assert (Hpow : 0 < 2 ^ n) by (apply Z.pow_pos_nonneg; lia).
  assert (Hmxpos : 0 < mx).
  { assert (0 < 2 ^ (52 + n)) by (apply Z.pow_pos_nonneg; lia). lia. }
  destruct mx as [|pmx|pmx]; try lia.
  assert (Hdig : Z.pos (digits2_pos pmx) = 53 + n).
  { apply digits2_pos_unique. replace (53 + n - 1) with (52 + n) by lia. exact Hmx. }
  (* the first shift *)
  assert (Hfirst : exists mrs',
             shr_fexp prec emax (Z.pos pmx) ex lx = (mrs', ex + n) /\
             stands_for N D n mrs').
  { unfold shr_fexp, fexp, SpecFloat.emin, Zdigits2. rewrite Hdig.
    change prec with 53. change emax with 1024.
    replace (Z.max (53 + n + ex - 53) (3 - 1024 - 53) - ex) with n by lia.
    unfold shr. destruct n as [|pn|pn]; try lia.
    - eexists. split; [f_equal; lia|exact H0].
    - eexists. split; [reflexivity|].
      apply (stands_for_iter pn 0 _ ltac:(lia) H0). }
  destruct Hfirst as (mrs' & Hshr & (Hm & Hr & Hs)).
  set (W := D * 2 ^ n) in *.
  assert (HW : 0 < W) by (unfold W; apply Z.mul_pos_pos; lia).
  pose proof (Z.div_mod N W ltac:(lia)) as Hdm.
  pose proof (Z.mod_pos_bound N W HW) as Hrem.
  set (R := N mod W) in *.
  (* its mantissa has 53 digits *)
  assert (Hm1 : 2 ^ 52 <= shr_m mrs' < 2 ^ 53).
  { destruct H0 as (H0m & _). simpl in H0m.
    assert (Hmx' : shr_m (shr_record_of_loc (Z.pos pmx) lx) = Z.pos pmx)
      by (destruct lx as [|[]]; reflexivity).
    rewrite Hmx' in H0m. rewrite Z.mul_1_r in H0m.
    rewrite Hm. unfold W. rewrite <- Z.div_div by lia. rewrite <- H0m.
    rewrite !Z.pow_add_r in Hmx by lia.
    split.
    - apply Z.div_le_lower_bound; lia.
    - apply Z.div_lt_upper_bound; lia. }
  set (m1 := shr_m mrs') in *.
  set (m2 := round_nearest_even m1 (loc_of_shr_record mrs')).
  assert (Hm2 : (m2 = m1 \/ m2 = m1 + 1) /\
                W * (2 * m2 - 1) <= 2 * N <= W * (2 * m2 + 1) /\
                (R = 0 -> m2 = m1)).
  { unfold m2. destruct mrs' as [m r s]. simpl in Hr, Hs. subst m1. simpl in *.
    subst r s.
    destruct (Z.leb_spec W (2 * R)) as [Hhalf|Hhalf];
      destruct (Z.eqb_spec R 0) as [HR0|HR0];
      destruct (Z.eqb_spec (2 * R) W) as [HRW|HRW]; simpl; try lia;
      try (destruct (Z.even m)); repeat split; try lia; try nia. }
  destruct Hm2 as (Hm2case & Hm2bound & Hm2exact).
  unfold binary_round_aux. rewrite Hshr. fold m1. fold m2.
  destruct (Z.eq_dec m2 (2 ^ 53)) as [Hcarry|Hnocarry].
  - (* the rounding carried into a 54th digit *)
    exists (4503599627370496%positive), (n + 1).
    assert (Hsecond : shr_fexp prec emax m2 (ex + n) loc_Exact
                      = ({| shr_m := 2 ^ 52; shr_r := false; shr_s := false |},
                         ex + (n + 1))).
    { rewrite Hcarry. unfold shr_fexp, fexp, SpecFloat.emin.
      change (Zdigits2 (2 ^ 53)) with 54.
      change prec with 53. change emax with 1024.
      replace (Z.max (54 + (ex + n) - 53) (3 - 1024 - 53) - (ex + n)) with 1 by lia.
      simpl. f_equal. lia. }
    rewrite Hsecond. cbn [shr_m]. change (2 ^ 52) with (Z.pos 4503599627370496).
    cbv iota beta.
    change prec with 53. change emax with 1024.
    destruct (Z.leb_spec (ex + (n + 1)) (1024 - 53)); [|lia].
    split; [reflexivity|]. split; [right; reflexivity|].
    split; [split; [reflexivity|reflexivity]|].
    rewrite Z.pow_add_r by lia. change (2 ^ 1) with 2. fold W.
    change (Z.pos 4503599627370496) with (2 ^ 52).
    rewrite Hcarry in Hm2bound.
    split; [split; nia|].
    intros HR. specialize (Hm2exact HR). lia.
  - assert (Hm2range : 2 ^ 52 <= m2 < 2 ^ 53) by lia.
    destruct m2 as [|pm2|pm2] eqn:Em2; try lia.
    exists pm2, n.
    assert (Hsecond : shr_fexp prec emax (Z.pos pm2) (ex + n) loc_Exact
                      = ({| shr_m := Z.pos pm2; shr_r := false; shr_s := false |},
                         ex + n)).
    { unfold shr_fexp, fexp, SpecFloat.emin, Zdigits2.
      rewrite (digits2_pos_unique pm2 53) by exact Hm2range.
      change prec with 53. change emax with 1024.
      replace (Z.max (53 + (ex + n) - 53) (3 - 1024 - 53) - (ex + n)) with 0 by lia.
      reflexivity. }
    rewrite Hsecond. cbn [shr_m].
    change prec with 53. change emax with 1024.
    destruct (Z.leb_spec (ex + n) (1024 - 53)); [|lia].
    split; [reflexivity|]. split; [left; reflexivity|].
    split; [exact Hm2range|]. fold W.
    split; [exact Hm2bound|].
    intros HR. split; [reflexivity|]. specialize (Hm2exact HR). lia.
Qed.

End rounding.

Section binary64_facts.
Import Py transformers.

Lemma stands_for_exact (p : positive) :
  stands_for (Z.pos p) 1 0 (shr_record_of_loc (Z.pos p) loc_Exact).
Proof.
  unfold stands_for. simpl. rewrite Z.mod_1_r, Z.div_1_r. repeat split.
Qed.

Lemma stands_for_new_location (N D : Z) :
  0 <= N -> 0 < D ->
  stands_for N D 0 (shr_record_of_loc (N / D) (new_location D (N mod D))).
Proof.
  intros HN HD. unfold stands_for. rewrite Z.pow_0_r, Z.mul_1_r.
  pose proof (Z.mod_pos_bound N D HD) as HR.
  generalize dependent (N mod D). intros R HR.
  assert (Hodd : Z.even D = false -> 2 * R <> D).
  { intros Ev <-. rewrite Z.even_mul in Ev. discriminate. }
  unfold new_location, new_location_even, new_location_odd.
  destruct (Z.even D); [clear Hodd|specialize (Hodd eq_refl)];
    (destruct (Z.eqb_spec R 0) as [HR0|HR0];
     [|destruct (Z.compare_spec (2 * R) D) as [Hc|Hc|Hc];
       destruct (Z.compare_spec (2 * R + 1) D) as [Hc'|Hc'|Hc']; try lia]);
    cbn [shr_record_of_loc shr_m shr_r shr_s];
    destruct (Z.leb_spec D (2 * R)); try lia;
    destruct (Z.eqb_spec (2 * R) D); try lia; repeat split.
Qed.

(** A 53-digit mantissa with an exponent in range is a valid binary64
    number. *)
Lemma valid_binary_normal (s : bool) (m : positive) (e : Z) :
  2 ^ 52 <= Z.pos m < 2 ^ 53 -> -1074 <= e <= 971 ->
  valid_binary (S754_finite s m e) = true.
Proof.
  intros Hm He. unfold SpecFloat.valid_binary, bounded, canonical_mantissa, fexp, SpecFloat.emin.
  rewrite (digits2_pos_unique m 53) by exact Hm.
  change prec with 53. change emax with 1024.
  apply andb_true_intro. split; [apply Z.eqb_eq|apply Z.leb_le]; lia.
Qed.

(** The conversion of a positive integer below [2 ^ 53] is exact: the
    mantissa is the integer shifted to 53 digits. *)
Lemma binary_normalize_small (a : Z) :
  0 < a < 2 ^ 53 ->
  exists (m : positive) (d : Z),
    binary_normalize prec emax a 0 false = S754_finite false m (d - 53) /\
    1 <= d <= 53 /\
    2 ^ (d - 1) <= a < 2 ^ d /\
    Z.pos m = a * 2 ^ (53 - d) /\
    2 ^ 52 <= Z.pos m < 2 ^ 53.
Proof.
  intros Ha. destruct a as [|p|p]; try lia.
  pose proof (digits2_pos_bounds p) as Hd.
  set (d := Z.pos (digits2_pos p)) in *.
  assert (Hd53 : d <= 53).
  { destruct (Z.le_gt_cases d 53) as [|Hgt]; [assumption|].
    assert (2 ^ 53 <= 2 ^ (d - 1)) by (apply Z.pow_le_mono_r; lia). lia. }
  assert (Hd1 : 1 <= d) by (unfold d; lia).
  set (m := match 53 - d with Z.pos s => shift_pos s p | _ => p end).
  assert (Hm : Z.pos m = Z.pos p * 2 ^ (53 - d)).
  { unfold m. destruct (53 - d) as [|s|s] eqn:Es; try lia.
    rewrite shift_pos_correct, Z.pow_pos_fold. lia. }
  assert (Hrange : 2 ^ 52 <= Z.pos m < 2 ^ 53).
  { rewrite Hm.
    assert (E52 : 2 ^ 52 = 2 ^ (d - 1) * 2 ^ (53 - d))
      by (rewrite <- Z.pow_add_r by lia; f_equal; lia).
    assert (E53 : 2 ^ 53 = 2 ^ d * 2 ^ (53 - d))
      by (rewrite <- Z.pow_add_r by lia; f_equal; lia).
    rewrite E52, E53.
    assert (0 < 2 ^ (53 - d)) by (apply Z.pow_pos_nonneg; lia).
    split; [apply Z.mul_le_mono_nonneg_r|apply Z.mul_lt_mono_pos_r]; lia. }
  exists m, d.
  split; [|repeat split; try lia; try exact Hm].
  unfold binary_normalize, binary_round, fexp, SpecFloat.emin.
  fold d. change prec with 53. change emax with 1024.
  replace (Z.max (d + 0 - 53) (3 - 1024 - 53)) with (d - 53) by lia.
  assert (Haux : forall e, e = d - 53 ->
            binary_round_aux 53 1024 false (Z.pos m) e loc_Exact
            = S754_finite false m (d - 53)).
  { intros e ->.
    destruct (binary_round_aux_spec (Z.pos m) 1 ltac:(lia) ltac:(lia)
                false (Z.pos m) (d - 53) loc_Exact 0 ltac:(lia)
                (stands_for_exact m) Hrange ltac:(lia) ltac:(lia))
      as (m' & k & Hres & _ & _ & _ & Hexact).
    destruct Hexact as [-> Hmm].
    { rewrite Z.pow_0_r, Z.mul_1_r. apply Z.mod_1_r. }
    transitivity (S754_finite false m' (d - 53 + 0)); [exact Hres|].
    rewrite Z.pow_0_r in Hmm. f_equal; lia. }
  assert (Halign : shl_align p 0 (d - 53) = (m, d - 53)).
  { unfold shl_align. replace (d - 53 - 0) with (- (53 - d)) by lia.
    unfold m. destruct (53 - d) as [|s|s] eqn:Es; try lia; simpl.
    - f_equal. lia.
    - reflexivity. }
  rewrite Halign. apply Haux. reflexivity.
Qed.

(** The quotient of two integers below [2 ^ 53] is within half a unit in
    the last place of the exact quotient. *)
Lemma true_div_spec (a b : Z) :
  0 < a <= b -> b < 2 ^ 53 ->
  exists (m : positive) (t : Z),
    Prim2SF (true_div a b) = S754_finite false m (- t) /\
    51 <= t <= 105 /\
    2 ^ 52 <= Z.pos m < 2 ^ 53 /\
    b * (2 * Z.pos m - 1) <= 2 * a * 2 ^ t <= b * (2 * Z.pos m + 1).
Proof.
  intros Hab Hb.
  destruct (binary_normalize_small a ltac:(lia))
    as (ma & da & Ea & Hda & Hda' & Hma & Hmar).
  destruct (binary_normalize_small b ltac:(lia))
    as (mb & db & Eb & Hdb & Hdb' & Hmb & Hmbr).
  assert (Hdd : da <= db).
  { destruct (Z.le_gt_cases da db) as [|Hgt]; [assumption|].
    assert (2 ^ db <= 2 ^ (da - 1)) by (apply Z.pow_le_mono_r; lia). lia. }
  unfold true_div. rewrite div_spec, Ea, Eb.
  rewrite !Prim2SF_SF2Prim by (apply valid_binary_normal; lia).
  set (N := Z.pos ma * 2 ^ 53). set (D := Z.pos mb).
  assert (HN : 0 <= N) by (unfold N; lia).
  assert (HD : 0 < D) by (unfold D; lia).
  assert (Hcore : SFdiv_core_binary prec emax (Z.pos ma) (da - 53) (Z.pos mb) (db - 53)
                  = (N / D, da - db - 53, new_location D (N mod D))).
  { unfold SFdiv_core_binary, Zdigits2, fexp, SpecFloat.emin.
    rewrite (digits2_pos_unique ma 53), (digits2_pos_unique mb 53) by assumption.
    change prec with 53. change emax with 1024.
    replace (Z.min (Z.max (53 + (da - 53) - (53 + (db - 53)) - 53) (3 - 1024 - 53))
                   (da - 53 - (db - 53))) with (da - db - 53) by lia.
    replace (da - 53 - (db - 53) - (da - db - 53)) with 53 by lia.
    cbv iota. rewrite Z.shiftl_mul_pow2 by lia. fold N. fold D.
    unfold Z.div, Z.modulo. destruct (Z.div_eucl N D). reflexivity. }
  unfold SF64div, SFdiv. rewrite Hcore. cbn [xorb].
  assert (Hq : 2 ^ 52 <= N / D < 2 ^ 54).
  { split.
    - apply Z.div_le_lower_bound; [exact HD|]. unfold N, D. nia.
    - apply Z.div_lt_upper_bound; [exact HD|]. unfold N, D. nia. }
  assert (Hn : exists n, (n = 0 \/ n = 1) /\ 2 ^ (52 + n) <= N / D < 2 ^ (53 + n)).
  { destruct (Z.lt_ge_cases (N / D) (2 ^ 53)).
    - exists 0. split; [now left|]. simpl. lia.
    - exists 1. split; [now right|]. simpl. lia. }
  destruct Hn as (n & Hn01 & Hnq).
  destruct (binary_round_aux_spec N D HN HD false (N / D) (da - db - 53)
              (new_location D (N mod D)) n ltac:(lia)
              (stands_for_new_location N D HN HD) Hnq ltac:(lia) ltac:(lia))
    as (m & k & Hres & Hk & Hm & Hbound & _).
  exists m, (53 + db - da - k).
  split; [rewrite Hres; f_equal; lia|].
  split; [lia|]. split; [exact Hm|].
  set (t := 53 + db - da - k).
  set (P := 2 ^ (53 - db + k)).
  assert (HP : 0 < P) by (apply Z.pow_pos_nonneg; lia).
  assert (ED : D * 2 ^ k = b * P).
  { unfold D, P. rewrite Hmb, Z.pow_add_r by lia. ring. }
  assert (EN : 2 * N = 2 * a * 2 ^ t * P).
  { unfold N, P, t. rewrite Hma.
    rewrite <- !Z.mul_assoc, <- !Z.pow_add_r by lia.
    do 3 f_equal. lia. }
  rewrite ED, EN in Hbound.
  split.
  - apply (Z.mul_le_mono_pos_r _ _ P HP). lia.
  - apply (Z.mul_le_mono_pos_r _ _ P HP). lia.
Qed.

(** Multiplying a normal number by [100.0]. *)
Lemma times_100_spec (x : float) (m : positive) (t : Z) :
  Prim2SF x = S754_finite false m (- t) ->
  2 ^ 52 <= Z.pos m < 2 ^ 53 -> 0 <= t <= 200 ->
  exists (m' : positive) (k : Z),
    Prim2SF (x * 100) = S754_finite false m' (- t - 46 + k) /\
    52 <= k <= 54 /\
    2 ^ 52 <= Z.pos m' < 2 ^ 53 /\
    2 ^ k * (2 * Z.pos m' - 1) <= 2 * (Z.pos m * 7036874417766400)
      <= 2 ^ k * (2 * Z.pos m' + 1).
Proof.
  intros Hx Hm Ht.
  rewrite mul_spec, Hx.
  change (Prim2SF 100) with (S754_finite false 7036874417766400 (-46)).
  unfold SF64mul, SFmul. cbn [xorb]. rewrite Pos2Z.inj_mul.
  set (N := Z.pos m * 7036874417766400).
  assert (HNr : 2 ^ 104 <= N < 2 ^ 106) by (unfold N; lia).
  assert (Hn : exists n, (n = 52 \/ n = 53) /\ 2 ^ (52 + n) <= N < 2 ^ (53 + n)).
  { destruct (Z.lt_ge_cases N (2 ^ 105)).
    - exists 52. split; [now left|]. simpl. lia.
    - exists 53. split; [now right|]. simpl. lia. }
  destruct Hn as (n & Hn' & Hnr).
  assert (Hst : stands_for N 1 0 (shr_record_of_loc N loc_Exact)).
  { unfold N. rewrite <- Pos2Z.inj_mul. apply stands_for_exact. }
  destruct (binary_round_aux_spec N 1 ltac:(lia) ltac:(lia) false N (- t + -46)
              loc_Exact n ltac:(lia) Hst Hnr ltac:(lia) ltac:(lia))
    as (m' & k & Hres & Hk & Hm' & Hbound & _).
  exists m', k.
  split; [rewrite Hres; f_equal; lia|].
  split; [lia|]. split; [exact Hm'|].
  rewrite Z.mul_1_l in Hbound. exact Hbound.
Qed.

Lemma SFltb_finite (m m' : positive) (e e' : Z) :
  SFltb (S754_finite false m e) (S754_finite false m' e')
  = (e <? e') || ((e =? e') && (Z.pos m <? Z.pos m')).
Proof.
  unfold SFltb, SFcompare.
  change (Pos.compare_cont Eq m m') with (Z.pos m ?= Z.pos m').
  destruct (Z.compare_spec e e'); destruct (Z.compare_spec (Z.pos m) (Z.pos m'));
    destruct (Z.ltb_spec e e'); destruct (Z.eqb_spec e e');
    destruct (Z.ltb_spec (Z.pos m) (Z.pos m')); simpl; try reflexivity; lia.
Qed.

(** The comparison of the rounded percentage with [20.0], in integers:
    [m * 2 ^ (- t)] is the rounded quotient of [a] by [b], and
    [m' * 2 ^ (- t - 46 + k)] the rounded product with [100.0]. *)
Lemma rounded_percentage_above_twenty (a b m t m' k : Z) :
  0 < a -> 0 < b < 2 ^ 52 ->
  2 ^ 52 <= m < 2 ^ 53 -> 0 <= t ->
  b * (2 * m - 1) <= 2 * a * 2 ^ t <= b * (2 * m + 1) ->
  52 <= k <= 54 -> 2 ^ 52 <= m' < 2 ^ 53 ->
  2 ^ k * (2 * m' - 1) <= 2 * (m * 7036874417766400) <= 2 ^ k * (2 * m' + 1) ->
  (-48 <? - t - 46 + k) || ((-48 =? - t - 46 + k) && (5629499534213120 <? m'))
  = (b <? 5 * a).
Proof.
  intros Ha Hb Hm Ht Hq Hk Hm' Hp.
  assert (Hbm : b * 2 ^ 52 <= b * m) by (apply Z.mul_le_mono_nonneg_l; lia).
  assert (Hbm' : b * m <= b * (2 ^ 53 - 1)) by (apply Z.mul_le_mono_nonneg_l; lia).
  destruct (Z.ltb_spec b (5 * a)) as [Hlt|Hge].
  - (* more than a fifth *)
    assert (Ht55 : t <= 55).
    { destruct (Z.le_gt_cases t 55) as [|Hgt]; [assumption|].
      assert (2 ^ 56 <= 2 ^ t) by (apply Z.pow_le_mono_r; lia).
      assert (2 * a * 2 ^ 56 <= 2 * a * 2 ^ t) by (apply Z.mul_le_mono_nonneg_l; lia).
      lia. }
    assert (Hcases : t <= 53 \/ t = 54 \/ t = 55) by lia.
    destruct Hcases as [Hs|[->| ->]].
    + destruct (Z.ltb_spec (-48) (- t - 46 + k)); [reflexivity|lia].
    + assert (Hkc : k = 52 \/ k = 53 \/ k = 54) by lia.
      destruct Hkc as [->|[->| ->]]; simpl (_ <? _ + _); simpl (_ =? _ + _);
        cbn [orb andb]; try reflexivity.
      apply Z.ltb_lt. lia.
    + assert (Hm0 : 7205759403792795 <= m).
      { destruct (Z.le_gt_cases 7205759403792795 m) as [|Hgt]; [assumption|].
        assert (b * m <= b * 7205759403792794) by (apply Z.mul_le_mono_nonneg_l; lia).
        lia. }
      assert (Hkc : k = 52 \/ k = 53 \/ k = 54) by lia.
      destruct Hkc as [->|[->| ->]]; simpl (_ <? _ + _); simpl (_ =? _ + _);
        cbn [orb andb]; try reflexivity.
      * lia.
      * apply Z.ltb_lt. lia.
  - (* at most a fifth *)
    assert (Ht55 : 55 <= t).
    { destruct (Z.le_gt_cases 55 t) as [|Hgt]; [assumption|].
      assert (2 ^ t <= 2 ^ 54) by (apply Z.pow_le_mono_r; lia).
      assert (2 * a * 2 ^ t <= 2 * a * 2 ^ 54) by (apply Z.mul_le_mono_nonneg_l; lia).
      lia. }
    assert (Hcases : 57 <= t \/ t = 56 \/ t = 55) by lia.
    destruct Hcases as [Hs|[->| ->]].
    + destruct (Z.ltb_spec (-48) (- t - 46 + k)); [lia|].
      destruct (Z.eqb_spec (-48) (- t - 46 + k)); [lia|reflexivity].
    + assert (Hkc : k = 52 \/ k = 53 \/ k = 54) by lia.
      destruct Hkc as [->|[->| ->]]; simpl (_ <? _ + _); simpl (_ =? _ + _);
        cbn [orb andb]; try reflexivity.
      lia.
    + assert (Hm0 : m <= 7205759403792794).
      { destruct (Z.le_gt_cases m 7205759403792794) as [|Hgt]; [assumption|].
        assert (b * 7205759403792795 <= b * m) by (apply Z.mul_le_mono_nonneg_l; lia).
        lia. }
      assert (Hkc : k = 52 \/ k = 53 \/ k = 54) by lia.
      destruct Hkc as [->|[->| ->]]; simpl (_ <? _ + _); simpl (_ =? _ + _);
        cbn [orb andb]; try reflexivity.
      * apply Z.ltb_ge. lia.
      * lia.
Qed.

(** In binary64, on integers below [2 ^ 52], the percentage [a / b * 100]
    exceeds 20 (10) exactly when the exact quotient does. *)
Lemma binary64_exceeds (a b n : Z) :
  0 <= a <= b -> 0 < b < 2 ^ 52 -> n = 20 \/ n = 10 ->
  exceeds (Arith := binary64) (percentage (Arith := binary64) a b) n
  = (n * b <? 100 * a).
Proof.
  intros Hab Hb Hn. cbn [exceeds percentage binary64].
  rewrite ltb_spec.
  destruct (Z.eq_dec a 0) as [->|Ha0].
  - (* nothing is missing *)
    destruct (binary_normalize_small b ltac:(lia)) as (mb & db & Eb & Hdb & _ & _ & Hmb).
    rewrite mul_spec. unfold true_div. rewrite div_spec, Eb.
    rewrite (Prim2SF_SF2Prim (S754_finite _ _ _)) by (apply valid_binary_normal; lia).
    change (Prim2SF (SF2Prim (binary_normalize prec emax 0 0 false)))
      with (S754_zero false).
    change (Prim2SF 100) with (S754_finite false 7036874417766400 (-46)).
    cbn [SF64div SFdiv SF64mul SFmul xorb].
    destruct (Z.ltb_spec (n * b) (100 * 0)); [lia|].
    destruct Hn as [-> | ->]; reflexivity.
  - destruct (true_div_spec a b ltac:(lia) ltac:(lia)) as (m & t & Hq & Ht & Hm & Hbq).
    destruct (times_100_spec (true_div a b) m t Hq Hm ltac:(lia))
      as (m' & k & Hp & Hk & Hm' & Hbp).
    rewrite Hp.
    destruct Hn as [-> | ->].
    + change (Prim2SF (SF2Prim (binary_normalize prec emax 20 0 false)))
        with (S754_finite false 5629499534213120 (-48)).
      rewrite SFltb_finite.
      rewrite (rounded_percentage_above_twenty a b (Z.pos m) t (Z.pos m') k)
        by (assumption || lia).
      destruct (Z.ltb_spec b (5 * a)); destruct (Z.ltb_spec (20 * b) (100 * a));
        try reflexivity; lia.
    + change (Prim2SF (SF2Prim (binary_normalize prec emax 10 0 false)))
        with (S754_finite false 5629499534213120 (-49)).
      rewrite SFltb_finite.
      assert (Hbq' : b * (2 * Z.pos m - 1) <= 2 * (2 * a) * 2 ^ (t - 1)
                       <= b * (2 * Z.pos m + 1)).
      { replace (2 * (2 * a) * 2 ^ (t - 1)) with (2 * a * 2 ^ t); [exact Hbq|].
        replace t with ((t - 1) + 1) at 1 by lia.
        rewrite Z.pow_add_r by lia. ring. }
      pose proof (rounded_percentage_above_twenty (2 * a) b (Z.pos m) (t - 1) (Z.pos m') k
                    ltac:(lia) Hb Hm ltac:(lia) Hbq' Hk Hm' Hbp) as Harith.
      destruct (Z.ltb_spec b (5 * (2 * a))); destruct (Z.ltb_spec (10 * b) (100 * a));
        try lia;
        destruct (Z.ltb_spec (-49) (- t - 46 + k));
        destruct (Z.eqb_spec (-49) (- t - 46 + k));
        destruct (Z.ltb_spec (-48) (- (t - 1) - 46 + k));
        destruct (Z.eqb_spec (-48) (- (t - 1) - 46 + k));
        try lia; exact Harith.
Qed.

End binary64_facts.

(* ===================================================================== *)
(** * Properties of the completeness check                                 *)
(* ===================================================================== *)

Section completeness.
Import Py models transformers.

Lemma required_fields_nonempty data_type :
  (0 < length (_get_required_fields data_type))%nat.
Proof.
  unfold _get_required_fields.
  repeat (destruct (String.eqb data_type _); [simpl; lia|]). simpl. lia.
Qed.

(** With a single required field, the missing slots are the incomplete
    records. *)
Lemma missing_fields_single data field :
  length (missing_fields data [field]) = incomplete_records data [field].
Proof.
  unfold missing_fields, incomplete_records.
  induction data as [|r data IH]; [reflexivity|].
  change (length (List.filter (is_missing r) [field]
                  ++ flat_map (fun r => List.filter (is_missing r) [field]) data)
          = length (List.filter (fun r => existsb (is_missing r) [field]) (r :: data))).
  rewrite length_app, IH. simpl.
  destruct (is_missing r field); reflexivity.
Qed.

(** No more slots are missing than there are. *)
Lemma missing_fields_le_slots data required :
  (length (missing_fields data required) <= length data * length required)%nat.
Proof.
  assert (Hfilter : forall (f : string -> bool) l,
             (length (List.filter f l) <= length l)%nat).
  { intros f l. induction l as [|x l IH]; [reflexivity|].
    cbn [List.filter]. destruct (f x); cbn [length]; lia. }
  unfold missing_fields.
  induction data as [|r data IH]; [reflexivity|].
  cbn [flat_map length]. rewrite length_app.
  specialize (Hfilter (is_missing r) required). lia.
Qed.

(** The check built for a non-empty batch of a valid source type. *)
Lemma check_completeness_nonempty `{AR : Arith} data data_type ds :
  data <> [] ->
  DataSourceType_of_string data_type = Ok ds ->
  _check_completeness data data_type =
  let required_fields := _get_required_fields data_type in
  let missing := missing_fields data required_fields in
  let pct := percentage (Z.of_nat (length missing))
               (Z.of_nat (length data) * Z.of_nat (length required_fields)) in
  Ok {| data_source := ds;
        status := if exceeds pct 20 then ERROR
                  else if exceeds pct 10 then WARNING else VALID;
        record_count := Z.of_nat (length data);
        details_missing_fields := missing;
        missing_percentage := Some pct |}.
Proof.
  intros Hdata Hds. unfold _check_completeness.
  destruct data as [|r data']; [done|]. rewrite Hds. reflexivity.
Qed.

(** C7, as the code has it. On a non-empty batch of a valid source type
    with fewer than [2 ^ 52] (record, required field) slots, the status
    which the code computes in binary64 is [ERROR] when the missing slots
    are more than 20% of all slots, [WARNING] when more than 10%, else
    [VALID]: in that range the rounded percentage is on the same side of
    both thresholds as the exact one. When every incomplete record misses
    every required field, in particular when a single field is required,
    a batch with exactly 25% / 15% / 5% incomplete records is
    [ERROR] / [WARNING] / [VALID]. *)
Theorem completeness_status_by_missing_slots
    (data : list record) (data_type : string) (ds : DataSourceType) :
  data <> [] ->
  DataSourceType_of_string data_type = Ok ds ->
  let required := _get_required_fields data_type in
  let missing := Z.of_nat (length (missing_fields data required)) in
  let slots := Z.of_nat (length data) * Z.of_nat (length required) in
  let incomplete := Z.of_nat (incomplete_records data required) in
  slots < 2 ^ 52 ->
  exists c,
    _check_completeness (AR := binary64) data data_type = Ok c /\
    status c = (if 20 * slots <? 100 * missing then ERROR
                else if 10 * slots <? 100 * missing then WARNING
                else VALID) /\
    (missing = Z.of_nat (length required) * incomplete ->
     (4 * incomplete = Z.of_nat (length data) -> status c = ERROR) /\
     (20 * incomplete = 3 * Z.of_nat (length data) -> status c = WARNING) /\
     (20 * incomplete = Z.of_nat (length data) -> status c = VALID)).
Proof.
  intros Hdata Hds required missing slots incomplete Hsize.
  pose proof (required_fields_nonempty data_type) as Hreq. fold required in Hreq.
  assert (Hn : (0 < length data)%nat) by (destruct data; [done|simpl; lia]).
  assert (Hslots : 0 < slots) by (unfold slots; nia).
  assert (Hmissing : 0 <= missing <= slots).
  { pose proof (missing_fields_le_slots data required). unfold missing, slots. nia. }
  rewrite (check_completeness_nonempty data data_type ds Hdata Hds).
  eexists. split; [reflexivity|]. cbn [status].
  fold required. fold missing. fold slots.
  rewrite !(binary64_exceeds missing slots) by (auto; lia).
  split; [reflexivity|].
  intros Hall. unfold slots.
  assert (Hk : 0 < Z.of_nat (length required)) by lia.
  repeat split; intros Hpct.
  - destruct (Z.ltb_spec (20 * (Z.of_nat (length data) * Z.of_nat (length required)))
                         (100 * missing)); [reflexivity|nia].
  - destruct (Z.ltb_spec (20 * (Z.of_nat (length data) * Z.of_nat (length required)))
                         (100 * missing)); [nia|].
    destruct (Z.ltb_spec (10 * (Z.of_nat (length data) * Z.of_nat (length required)))
                         (100 * missing)); [reflexivity|nia].
  - destruct (Z.ltb_spec (20 * (Z.of_nat (length data) * Z.of_nat (length required)))
                         (100 * missing)); [nia|].
    destruct (Z.ltb_spec (10 * (Z.of_nat (length data) * Z.of_nat (length required)))
                         (100 * missing)); [nia|reflexivity].
Qed.

(** An empty batch is an error. *)
Lemma completeness_of_empty_batch `{AR : Arith} data_type ds :
  DataSourceType_of_string data_type = Ok ds ->
  exists c, _check_completeness [] data_type = Ok c /\
            status c = ERROR /\ record_count c = 0.
Proof. intros Hds. simpl. rewrite Hds. simpl. eauto. Qed.

(** A data type outside the enum is rejected when the check is built. *)
Lemma completeness_of_unknown_type `{AR : Arith} data data_type :
  DataSourceType_of_string data_type = Raise ValidationError ->
  _check_completeness data data_type = Raise ValidationError.
Proof. intros Hds. unfold _check_completeness. destruct data; rewrite Hds; reflexivity. Qed.

End completeness.

Section completeness_examples.
Import Py models transformers samples.

Lemma completeness_status_by_missing_slots_witness :
  module_records 20 5 <> [] /\
  DataSourceType_of_string "stock_modules" = Ok STOCK_MODULES /\
  Z.of_nat (length (module_records 20 5))
    * Z.of_nat (length (_get_required_fields "stock_modules")) < 2 ^ 52 /\
  exists c,
    _check_completeness (AR := binary64) (module_records 20 5) "stock_modules" = Ok c /\
    status c = ERROR.
Proof.
  split; [discriminate|]. split; [reflexivity|]. split; [reflexivity|].
  destruct (completeness_status_by_missing_slots
              (module_records 20 5) "stock_modules" STOCK_MODULES)
    as (c & Hc & _ & Hscen); [discriminate|reflexivity|reflexivity|].
  exists c. split; [exact Hc|].
  apply Hscen; vm_compute; reflexivity.
Defined.

(** The three scenarios on a source with one required field, as the code
    computes them. *)
Example single_field_scenarios :
  (status <$> (match _check_completeness (AR := binary64) (module_records 20 5) "stock_modules"
               with Ok c => Some c | Raise _ => None end) = Some ERROR) /\
  (status <$> (match _check_completeness (AR := binary64) (module_records 20 3) "stock_modules"
               with Ok c => Some c | Raise _ => None end) = Some WARNING) /\
  (status <$> (match _check_completeness (AR := binary64) (module_records 20 1) "stock_modules"
               with Ok c => Some c | Raise _ => None end) = Some VALID).
Proof. vm_compute. repeat split; reflexivity. Qed.

(** C7, where the claim fails. Exactly 25% of the quote records miss a
    required field (the price), yet the status is [WARNING]: the missing
    percentage is taken over record-field slots, 1 of 8, which is 12.5.
    Likewise 15% of the records give 7.5 and [VALID]. *)
Lemma quarter_of_records_incomplete_is_warning :
  (4 * incomplete_records four_quotes_one_without_price
         (_get_required_fields "stock_quotes")
   = length four_quotes_one_without_price)%nat /\
  match _check_completeness (AR := binary64) four_quotes_one_without_price
          "stock_quotes" with
  | Ok c => status c = WARNING /\ missing_percentage c = Some 12.5%float
  | Raise _ => False
  end /\
  (20 * incomplete_records twenty_quotes_three_without_price
          (_get_required_fields "stock_quotes")
   = 3 * length twenty_quotes_three_without_price)%nat /\
  match _check_completeness (AR := binary64) twenty_quotes_three_without_price
          "stock_quotes" with
  | Ok c => status c = VALID /\ missing_percentage c = Some 7.5%float
  | Raise _ => False
  end.
Proof. vm_compute. repeat split; reflexivity. Qed.

End completeness_examples.

(* ===================================================================== *)
(** * Properties of the Clean stage                                        *)
(* ===================================================================== *)

Section strings.
Import Py.

Lemma is_space_upper_char c : is_space (upper_char c) = is_space c.
Proof. destruct c as [[] [] [] [] [] [] [] []]; reflexivity. Qed.

Lemma upper_char_idem c : upper_char (upper_char c) = upper_char c.
Proof. destruct c as [[] [] [] [] [] [] [] []]; reflexivity. Qed.

Lemma upper_idem s : upper (upper s) = upper s.
Proof. induction s as [|c s IH]; simpl; [reflexivity|]. now rewrite upper_char_idem, IH. Qed.

Lemma lstrip_upper s : lstrip (upper s) = upper (lstrip s).
Proof.
  induction s as [|c s IH]; simpl; [reflexivity|].
  rewrite is_space_upper_char. destruct (is_space c); [exact IH|reflexivity].
Qed.

Lemma upper_empty s : upper s = EmptyString -> s = EmptyString.
Proof. destruct s; simpl; [reflexivity|discriminate]. Qed.

Lemma rstrip_upper s : rstrip (upper s) = upper (rstrip s).
Proof.
  induction s as [|c s IH]; simpl; [reflexivity|].
  rewrite IH, is_space_upper_char.
  destruct (rstrip s) as [|c' r]; simpl; [destruct (is_space c)|]; reflexivity.
Qed.

Lemma strip_upper s : strip (upper s) = upper (strip s).
Proof. unfold strip. now rewrite lstrip_upper, rstrip_upper. Qed.

Lemma no_lead_lstrip s : no_lead (lstrip s).
Proof.
  induction s as [|c s IH]; simpl; [exact I|].
  destruct (is_space c) eqn:E; [exact IH|exact E].
Qed.

Lemma lstrip_no_lead s : no_lead s -> lstrip s = s.
Proof. destruct s as [|c s]; simpl; [reflexivity|]. now intros ->. Qed.

Lemma no_lead_rstrip s : no_lead s -> no_lead (rstrip s).
Proof.
  destruct s as [|c s]; simpl; [auto|]. intros Hc.
  destruct (rstrip s); simpl; [rewrite Hc; simpl|]; exact Hc.
Qed.

Lemma rstrip_cons c s :
  rstrip (String c s) =
  match rstrip s with
  | EmptyString => if is_space c then EmptyString else String c EmptyString
  | r => String c r
  end.
Proof. reflexivity. Qed.

Lemma rstrip_idem s : rstrip (rstrip s) = rstrip s.
Proof.
  induction s as [|c s IH]; [reflexivity|].
  rewrite (rstrip_cons c s).
  destruct (rstrip s) as [|c' r] eqn:E.
  - destruct (is_space c) eqn:Ec; [reflexivity|].
    rewrite rstrip_cons. simpl. now rewrite Ec.
  - rewrite rstrip_cons, IH. reflexivity.
Qed.

Lemma strip_idem s : strip (strip s) = strip s.
Proof.
  unfold strip.
  rewrite (lstrip_no_lead (rstrip (lstrip s)))
    by (apply no_lead_rstrip, no_lead_lstrip).
  apply rstrip_idem.
Qed.

(** Normalising a symbol twice changes nothing. *)
Lemma clean_symbol_idem s : upper (strip (upper (strip s))) = upper (strip s).
Proof. now rewrite strip_upper, strip_idem, upper_idem. Qed.

End strings.

Section cleaner.
Import Py models transformers.
Context `{RT : Runtime}.

Lemma without_none_lookup (r : record) k :
  without_none r !! k =
  match r !! k with
  | Some PNone => None
  | o => o
  end.
Proof.
  unfold without_none. rewrite map_lookup_filter.
  destruct (r !! k) as [v|]; simpl; [|reflexivity].
  destruct v; simpl; reflexivity.
Qed.

Lemma without_none_no_none (r : record) : no_none (without_none r).
Proof.
  intros k. rewrite without_none_lookup.
  destruct (r !! k) as [[]|]; congruence.
Qed.

Lemma without_none_id (r : record) : without_none r = r <-> no_none r.
Proof.
  split.
  - intros <-. apply without_none_no_none.
  - intros Hr. apply map_eq. intros k. rewrite without_none_lookup.
    specialize (Hr k). destruct (r !! k) as [[]|]; congruence.
Qed.

Lemma map_without_none_id (l : list record) :
  List.map without_none l = l <-> Forall no_none l.
Proof.
  induction l as [|r l IH]; simpl.
  - split; [constructor|reflexivity].
  - split.
    + intros [= Hr Hl]. constructor; [now apply without_none_id|now apply IH].
    + intros Hall. apply Forall_cons in Hall. destruct Hall as [Hr Hl].
      f_equal; [now apply without_none_id|now apply IH].
Qed.

Lemma parse_numeric_shape v v' :
  _parse_numeric v = Ok v' -> v' = PNone \/ exists f, v' = PFloat f.
Proof.
  destruct v; simpl; try (intros [= <-]; eauto; fail).
  - destruct (float_of_int z); simpl; [intros [= <-]; eauto|discriminate].
  - destruct (float_of_str _); intros [= <-]; eauto.
Qed.

(** Fields outside the list are not touched. *)
Lemma clean_numeric_outside fields : forall m m' k,
  clean_numeric fields m = Ok m' -> ~ In k fields -> m' !! k = m !! k.
Proof.
  induction fields as [|f fields IH]; simpl; intros m m' k H Hk.
  - now injection H as <-.
  - destruct (m !! f) as [v|] eqn:Ef.
    + apply bind_Ok in H. destruct H as (v' & _ & H).
      rewrite (IH _ _ k H) by tauto.
      apply lookup_insert_ne. intros ->. tauto.
    + apply (IH _ _ k H). tauto.
Qed.

(** Fields of the list end as a float or [None]. *)
Lemma clean_numeric_inside fields : forall m m' k v,
  clean_numeric fields m = Ok m' -> In k fields -> m' !! k = Some v ->
  v = PNone \/ exists f, v = PFloat f.
Proof.
  induction fields as [|f fields IH]; simpl; intros m m' k v H Hk Hv; [done|].
  destruct (in_dec String.string_dec k fields) as [Hin|Hout].
  - destruct (m !! f) as [x|]; [|eauto].
    apply bind_Ok in H. destruct H as (x' & _ & H). eauto.
  - destruct Hk as [->|Hk]; [|done].
    destruct (m !! k) as [x|] eqn:Ek.
    + apply bind_Ok in H. destruct H as (x' & Hx & H).
      rewrite (clean_numeric_outside _ _ _ k H Hout), lookup_insert_eq in Hv.
      injection Hv as <-. eapply parse_numeric_shape; eassumption.
    + rewrite (clean_numeric_outside _ _ _ k H Hout), Ek in Hv. discriminate.
Qed.

(** A record whose listed fields already hold floats goes through
    unchanged. *)
Lemma clean_numeric_fixed fields : forall m,
  (forall k v, In k fields -> m !! k = Some v -> exists f, v = PFloat f) ->
  clean_numeric fields m = Ok m.
Proof.
  induction fields as [|f fields IH]; simpl; intros m Hm; [reflexivity|].
  destruct (m !! f) as [v|] eqn:Ef.
  - destruct (Hm f v (or_introl eq_refl) Ef) as (x & ->). simpl.
    rewrite (insert_id m f (PFloat x) Ef). apply IH. intros; eapply Hm; eauto.
  - apply IH. intros; eapply Hm; eauto.
Qed.

Lemma symbol_not_numeric : ~ In "symbol" numeric_fields.
Proof. simpl. intuition discriminate. Qed.

Lemma currency_not_numeric : ~ In "currency" numeric_fields.
Proof. simpl. intuition discriminate. Qed.

Lemma clean_quote_record_shape quote c :
  _clean_quote_record quote = Some c -> quote_shape c.
Proof.
  unfold _clean_quote_record.
  set (c0 := without_none quote).
  set (c1 := match c0 !! "symbol" with
             | Some v => <["symbol" := PStr (upper (strip (str v)))]> c0
             | None => c0
             end).
  destruct (clean_numeric numeric_fields c1) as [c2|e] eqn:Enum; [|discriminate].
  intros [= <-].
  assert (Hc0 : no_none c0) by apply without_none_no_none.
  assert (Hc1 : forall k, c1 !! k <> Some PNone).
  { intros k. unfold c1. destruct (c0 !! "symbol") as [v|]; [|apply Hc0].
    destruct (decide (k = "symbol")) as [->|Hk].
    - rewrite lookup_insert_eq. discriminate.
    - rewrite lookup_insert_ne by congruence. apply Hc0. }
  assert (Hsym : forall v, c1 !! "symbol" = Some v -> exists s, v = PStr (upper (strip s))).
  { intros v. unfold c1. destruct (c0 !! "symbol") as [x|] eqn:Ex.
    - rewrite lookup_insert_eq. intros [= <-]. eauto.
    - rewrite Ex. discriminate. }
  assert (Hshape2 :
    (forall v, c2 !! "symbol" = Some v -> exists s, v = PStr (upper (strip s))) /\
    (forall k v, In k numeric_fields -> c2 !! k = Some v ->
                 v = PNone \/ exists f, v = PFloat f) /\
    (forall k, ~ In k numeric_fields -> c2 !! k <> Some PNone)).
  { split; [|split].
    - intros v. rewrite (clean_numeric_outside _ _ _ _ Enum symbol_not_numeric). apply Hsym.
    - intros k v Hk Hv. eapply clean_numeric_inside; eassumption.
    - intros k Hk. rewrite (clean_numeric_outside _ _ _ _ Enum Hk). apply Hc1. }
  destruct Hshape2 as (H1 & H2 & H3).
  destruct (c2 !! "currency") as [cur|] eqn:Ecur.
  - unfold quote_shape. rewrite Ecur. repeat split; eauto.
  - unfold quote_shape. repeat split.
    + intros v. rewrite lookup_insert_ne by discriminate. apply H1.
    + intros k v Hk. rewrite lookup_insert_ne; [now apply H2|].
      intros <-. now apply currency_not_numeric.
    + intros k Hk. destruct (decide (k = "currency")) as [->|Hne].
      * rewrite lookup_insert_eq. discriminate.
      * rewrite lookup_insert_ne by congruence. now apply H3.
    + rewrite lookup_insert_eq. eauto.
Qed.

(** Cleaning a cleaned quote record only removes its [None] fields. *)
Lemma clean_quote_record_again c :
  quote_shape c -> _clean_quote_record c = Some (without_none c).
Proof.
  intros (Hsym & Hnum & Hother & Hcur).
  unfold _clean_quote_record.
  set (c0 := without_none c).
  assert (E1 : match c0 !! "symbol" with
               | Some v => <["symbol" := PStr (upper (strip (str v)))]> c0
               | None => c0
               end = c0).
  { destruct (c0 !! "symbol") as [v|] eqn:Ev; [|reflexivity].
    apply insert_id. rewrite Ev. f_equal.
    unfold c0 in Ev. rewrite without_none_lookup in Ev.
    destruct (c !! "symbol") as [x|] eqn:Ex; [|discriminate].
    destruct (Hsym x eq_refl) as (s & ->). injection Ev as <-.
    simpl. now rewrite clean_symbol_idem. }
  rewrite E1.
  rewrite clean_numeric_fixed.
  - destruct (c0 !! "currency") as [cur|] eqn:Ecur; [reflexivity|].
    exfalso. unfold c0 in Ecur. rewrite without_none_lookup in Ecur.
    destruct Hcur as (x & Hx). rewrite Hx in Ecur.
    destruct x; try discriminate.
    now apply (Hother "currency" currency_not_numeric).
  - intros k v Hk. unfold c0. rewrite without_none_lookup.
    destruct (c !! k) as [x|] eqn:Ex; [|discriminate].
    destruct (Hnum k x Hk Ex) as [->|(f & ->)]; [discriminate|].
    intros [= <-]. eauto.
Qed.

Lemma nonempty_size (m : record) k v : m !! k = Some v -> (size m =? 0)%nat = false.
Proof.
  intros Hk. apply Nat.eqb_neq. intros Hs.
  apply map_size_empty_iff in Hs. subst m. rewrite lookup_empty in Hk. discriminate.
Qed.

Lemma keep_shape (P : record -> Prop) (o : option record) c :
  (forall c', o = Some c' -> P c') -> In c (keep o) -> P c.
Proof.
  destruct o as [c'|]; simpl; [|tauto].
  destruct (size c' =? 0)%nat; simpl; [tauto|].
  intros HP [<-|[]]. now apply HP.
Qed.

Lemma clean_quote_data_shape quotes :
  Forall quote_shape (clean_quote_data quotes).
Proof.
  apply List.Forall_forall. intros c Hc.
  unfold clean_quote_data in Hc. apply in_flat_map in Hc.
  destruct Hc as (q & _ & Hc).
  eapply keep_shape; [|exact Hc]. apply clean_quote_record_shape.
Qed.

Lemma clean_quote_data_again l :
  Forall quote_shape l -> clean_quote_data l = List.map without_none l.
Proof.
  induction 1 as [|c l Hc _ IH]; [reflexivity|].
  unfold clean_quote_data in *. simpl. rewrite IH.
  rewrite (clean_quote_record_again c Hc). simpl.
  destruct Hc as (_ & _ & Hother & (cur & Hcur)).
  assert (Hk : without_none c !! "currency" = Some cur).
  { rewrite without_none_lookup, Hcur. destruct cur; try reflexivity.
    exfalso. now apply (Hother "currency" currency_not_numeric). }
  now rewrite (nonempty_size _ _ _ Hk).
Qed.

Ltac goal_decide :=
  match goal with
  | |- context [decide ?P] => destruct (decide P)
  end.

(** Lookups after an update in place, after the market-cap update and
    after the currency default. *)
Lemma update_lookup (m : record) k (f : pyval -> pyval) j :
  (match m !! k with Some v => <[k := f v]> m | None => m end) !! j
  = if decide (j = k) then f <$> m !! k else m !! j.
Proof.
  destruct (m !! k) as [v|] eqn:E; case_decide; subst;
    rewrite ?lookup_insert_eq, ?lookup_insert_ne by done; rewrite ?E; done.
Qed.

Lemma market_cap_update (m : record) :
  match m !! "market_cap" with
  | Some (PStr s) => <["market_cap" := _parse_market_cap s]> m
  | _ => m
  end
  = match m !! "market_cap" with
    | Some v => <["market_cap" := match v with
                                  | PStr s => _parse_market_cap s
                                  | _ => v
                                  end]> m
    | None => m
    end.
Proof.
  destruct (m !! "market_cap") as [v|] eqn:E; [|reflexivity].
  destruct v; try (now rewrite insert_id); reflexivity.
Qed.

Lemma default_lookup (m : record) k d j :
  (match m !! k with None => <[k := d]> m | Some _ => m end) !! j
  = if decide (j = k) then Some (default d (m !! k)) else m !! j.
Proof.
  destruct (m !! k) as [v|] eqn:E; case_decide; subst;
    rewrite ?lookup_insert_eq, ?lookup_insert_ne by done; rewrite ?E; done.
Qed.

(** The fields of a cleaned stock record, read off the input. *)
Lemma clean_stock_record_lookup (stock : record) :
  exists c, _clean_stock_record stock = Some c /\
  forall j,
    c !! j =
    if decide (j = "currency")
    then Some (default (PStr "USD") (without_none stock !! "currency"))
    else if decide (j = "market_cap")
    then (fun v => match v with PStr s => _parse_market_cap s | _ => v end)
           <$> without_none stock !! "market_cap"
    else if decide (j = "name")
    then (fun v => PStr (strip (str v))) <$> without_none stock !! "name"
    else if decide (j = "symbol")
    then (fun v => PStr (upper (strip (str v)))) <$> without_none stock !! "symbol"
    else without_none stock !! j.
Proof.
  eexists. split; [reflexivity|]. intros j. cbv zeta.
  set (c0 := without_none stock).
  set (c1 := match c0 !! "symbol" with
             | Some v => <["symbol" := PStr (upper (strip (str v)))]> c0
             | None => c0
             end).
  set (c2 := match c1 !! "name" with
             | Some v => <["name" := PStr (strip (str v))]> c1
             | None => c1
             end).
  rewrite default_lookup, market_cap_update, !update_lookup.
  assert (Hname : c2 !! j = if decide (j = "name")
                            then (fun v => PStr (strip (str v))) <$> c1 !! "name"
                            else c1 !! j) by apply update_lookup.
  assert (Hsym : forall i, c1 !! i = if decide (i = "symbol")
                            then (fun v => PStr (upper (strip (str v)))) <$> c0 !! "symbol"
                            else c0 !! i) by (intros; apply update_lookup).
  assert (Hcur : c2 !! "currency" = c0 !! "currency").
  { unfold c2. rewrite update_lookup. goal_decide; [discriminate|].
    rewrite Hsym. goal_decide; [discriminate|reflexivity]. }
  assert (Hmc : c2 !! "market_cap" = c0 !! "market_cap").
  { unfold c2. rewrite update_lookup. goal_decide; [discriminate|].
    rewrite Hsym. goal_decide; [discriminate|reflexivity]. }
  assert (Hnm : c1 !! "name" = c0 !! "name").
  { rewrite Hsym. goal_decide; [discriminate|reflexivity]. }
  goal_decide; [subst; goal_decide; [discriminate|]; now rewrite Hcur|].
  goal_decide; [now rewrite Hmc|].
  rewrite Hname, Hnm. goal_decide; [reflexivity|]. apply Hsym.
Qed.

Lemma parse_market_cap_shape s t : _parse_market_cap s <> PStr t.
Proof. unfold _parse_market_cap. destruct (float_of_str _); discriminate. Qed.

Lemma clean_stock_record_shape stock c :
  _clean_stock_record stock = Some c -> stock_shape c.
Proof.
  destruct (clean_stock_record_lookup stock) as (c' & -> & Hc). intros [= <-].
  pose proof (without_none_no_none stock) as Hnn.
  unfold stock_shape. repeat split.
  - intros v. rewrite Hc. repeat (goal_decide; [discriminate|]).
    goal_decide; [|congruence].
    destruct (without_none stock !! "symbol"); simpl; intros [= <-]; eauto.
  - intros v. rewrite Hc. repeat (goal_decide; [discriminate|]).
    goal_decide; [|congruence].
    destruct (without_none stock !! "name"); simpl; intros [= <-]; eauto.
  - intros s. rewrite Hc. goal_decide; [discriminate|]. goal_decide; [|congruence].
    destruct (without_none stock !! "market_cap") as [v|]; simpl; [|discriminate].
    destruct v; try discriminate. intros [= Hs]. now apply parse_market_cap_shape in Hs.
  - intros k Hk. rewrite Hc. specialize (Hnn "currency") as Hcur.
    goal_decide.
    { destruct (without_none stock !! "currency") as [[]|]; simpl; congruence. }
    goal_decide; [congruence|].
    goal_decide.
    { destruct (without_none stock !! "name"); simpl; discriminate. }
    goal_decide.
    { destruct (without_none stock !! "symbol"); simpl; discriminate. }
    apply Hnn.
  - rewrite Hc. goal_decide; [eauto|congruence].
Qed.

(** Cleaning a cleaned stock record only removes its [None] fields. *)
Lemma clean_stock_record_again c :
  stock_shape c -> _clean_stock_record c = Some (without_none c).
Proof.
  intros (Hsym & Hname & Hmc & Hother & (cur & Hcur)).
  destruct (clean_stock_record_lookup c) as (c' & -> & Hc). f_equal.
  apply map_eq. intros j. rewrite Hc.
  goal_decide.
  { subst j. destruct (without_none c !! "currency") as [x|] eqn:Ex; [reflexivity|].
    exfalso. rewrite without_none_lookup, Hcur in Ex.
    destruct cur; try discriminate. now apply (Hother "currency"). }
  goal_decide.
  { subst j. rewrite without_none_lookup.
    destruct (c !! "market_cap") as [x|] eqn:Ex; [|reflexivity].
    destruct x; try reflexivity. exfalso. exact (Hmc _ eq_refl). }
  goal_decide.
  { subst j. rewrite without_none_lookup.
    destruct (c !! "name") as [x|] eqn:Ex; [|reflexivity].
    destruct (Hname x eq_refl) as (s & ->). simpl. now rewrite strip_idem. }
  goal_decide.
  { subst j. rewrite without_none_lookup.
    destruct (c !! "symbol") as [x|] eqn:Ex; [|reflexivity].
    destruct (Hsym x eq_refl) as (s & ->). simpl. now rewrite clean_symbol_idem. }
  reflexivity.
Qed.

Lemma clean_stock_data_shape stocks :
  Forall stock_shape (clean_stock_data stocks).
Proof.
  apply List.Forall_forall. intros c Hc.
  unfold clean_stock_data in Hc. apply in_flat_map in Hc.
  destruct Hc as (q & _ & Hc).
  eapply keep_shape; [|exact Hc]. apply clean_stock_record_shape.
Qed.

Lemma clean_stock_data_again l :
  Forall stock_shape l -> clean_stock_data l = List.map without_none l.
Proof.
  induction 1 as [|c l Hc _ IH]; [reflexivity|].
  unfold clean_stock_data in *.
  change (keep (_clean_stock_record c)
          ++ flat_map (fun stock => keep (_clean_stock_record stock)) l
          = without_none c :: List.map without_none l).
  rewrite IH, (clean_stock_record_again c Hc). cbn [keep].
  destruct Hc as (_ & _ & _ & Hother & (cur & Hcur)).
  assert (Hk : without_none c !! "currency" = Some cur).
  { rewrite without_none_lookup, Hcur. destruct cur; try reflexivity.
    exfalso. now apply (Hother "currency"). }
  now rewrite (nonempty_size _ _ _ Hk).
Qed.

(** C8, as the code has it. Applying either cleaner to its own output
    returns that output with the fields holding [None] removed (a numeric
    field, or a market cap, that did not parse is stored as [None] by the
    first pass and dropped by the second). The second pass is the identity
    exactly when the first output holds no [None]. *)
Theorem cleaning_again_drops_none_fields (quotes stocks : list record) :
  (clean_quote_data (clean_quote_data quotes)
   = List.map without_none (clean_quote_data quotes)) /\
  (clean_quote_data (clean_quote_data quotes) = clean_quote_data quotes
   <-> Forall no_none (clean_quote_data quotes)) /\
  (clean_stock_data (clean_stock_data stocks)
   = List.map without_none (clean_stock_data stocks)) /\
  (clean_stock_data (clean_stock_data stocks) = clean_stock_data stocks
   <-> Forall no_none (clean_stock_data stocks)).
Proof.
  pose proof (clean_quote_data_again _ (clean_quote_data_shape quotes)) as Hq.
  pose proof (clean_stock_data_again _ (clean_stock_data_shape stocks)) as Hs.
  split; [exact Hq|]. split; [rewrite Hq; apply map_without_none_id|].
  split; [exact Hs|]. rewrite Hs. apply map_without_none_id.
Qed.

End cleaner.

Section cleaner_examples.
Import Py models transformers samples.

(** C8, where the claim fails. A price that does not parse is stored as
    [None] by the first pass; the second pass drops the field, so its
    output differs from its input. The same happens to a market cap in the
    stock cleaner, which is the one the transform pipeline runs. *)
Lemma cleaning_twice_differs :
  clean_quote_data (RT := reference.runtime) [quote_with_unparsed_price]
  = [ {[ "symbol" := PStr "AAPL"; "price" := PNone; "currency" := PStr "USD" ]} ] /\
  clean_quote_data (RT := reference.runtime)
    (clean_quote_data (RT := reference.runtime) [quote_with_unparsed_price])
  = [ {[ "symbol" := PStr "AAPL"; "currency" := PStr "USD" ]} ] /\
  clean_quote_data (RT := reference.runtime)
    (clean_quote_data (RT := reference.runtime) [quote_with_unparsed_price])
  <> clean_quote_data (RT := reference.runtime) [quote_with_unparsed_price] /\
  clean_stock_data (RT := reference.runtime)
    (clean_stock_data (RT := reference.runtime) [stock_with_unparsed_cap])
  <> clean_stock_data (RT := reference.runtime) [stock_with_unparsed_cap].
Proof.
  split; [vm_compute; reflexivity|]. split; [vm_compute; reflexivity|]. split.
  - intros H.
    apply (f_equal (fun l => (List.hd ∅ l : gmap string pyval) !! "price")) in H.
    vm_compute in H. discriminate H.
  - intros H.
    apply (f_equal (fun l => (List.hd ∅ l : gmap string pyval) !! "market_cap")) in H.
    vm_compute in H. discriminate H.
Qed.

(** When every numeric field parses, the second pass changes nothing. *)
Example cleaning_parsed_quote_twice :
  clean_quote_data (RT := reference.runtime) [quote_with_text_price]
  = [ {[ "symbol" := PStr "AAPL"; "price" := PFloat 1234.5;
         "volume" := PFloat 100; "currency" := PStr "USD" ]} ] /\
  clean_quote_data (RT := reference.runtime)
    (clean_quote_data (RT := reference.runtime) [quote_with_text_price])
  = clean_quote_data (RT := reference.runtime) [quote_with_text_price].
Proof. split; vm_compute; reflexivity. Qed.

End cleaner_examples.

(* ===================================================================== *)
(** * Properties of the job store                                          *)
(* ===================================================================== *)

Section job_store.
Import Py models scheduler.

Lemma fold_delete_lookup (l : list string) : forall (m : gmap string PipelineJob) k,
  fold_left (fun m job_id => delete job_id m) l m !! k
  = if bool_decide (k ∈ l) then None else m !! k.
Proof.
  induction l as [|x l IH]; intros m k; cbn [fold_left].
  - destruct (bool_decide_reflect (k ∈ @nil string)) as [Hin|_]; [|reflexivity].
    now apply not_elem_of_nil in Hin.
  - rewrite IH. destruct (decide (x = k)) as [->|Hne].
    + rewrite lookup_delete_eq, (bool_decide_eq_true_2 (k ∈ k :: l)) by (now left).
      now destruct (bool_decide (k ∈ l)).
    + rewrite lookup_delete_ne by exact Hne.
      destruct (bool_decide_reflect (k ∈ l)) as [Hin|Hout].
      * now rewrite bool_decide_eq_true_2 by (now right).
      * rewrite bool_decide_eq_false_2; [reflexivity|].
        intros Hin. apply elem_of_cons in Hin. destruct Hin; congruence.
Qed.

Lemma old_jobs_spec (jobs : gmap string PipelineJob) cutoff k :
  In k (List.map fst
          (List.filter (fun kv => created_at (snd kv) <? cutoff) (map_to_list jobs)))
  <-> exists j, jobs !! k = Some j /\ created_at j < cutoff.
Proof.
  rewrite in_map_iff. split.
  - intros ([k' j] & <- & Hin). apply filter_In in Hin. destruct Hin as [Hin Hold].
    apply list_elem_of_In, elem_of_map_to_list in Hin.
    exists j. split; [exact Hin|]. now apply Z.ltb_lt.
  - intros (j & Hj & Hold). exists (k, j). split; [reflexivity|].
    apply filter_In. split.
    + now apply list_elem_of_In, elem_of_map_to_list.
    + now apply Z.ltb_lt.
Qed.

(** C9, as the code has it. For a retention argument and a clock within
    the range of [timedelta] and [datetime], the cleanup returns, and it
    removes exactly the job records created before the cutoff, whatever
    their status; every other record is kept unchanged. *)
Theorem cleanup_removes_jobs_older_than_cutoff
    (now days : Z) (jobs : gmap string PipelineJob) :
  -999999999 <= days <= 999999999 ->
  datetime_min <= now - days * 86400000000 <= datetime_max ->
  exists jobs',
    cleanup_old_jobs now days jobs = Ok jobs' /\
    forall id,
      jobs' !! id =
      match jobs !! id with
      | Some j => if created_at j <? now - days * 86400000000 then None else Some j
      | None => None
      end.
Proof.
  intros Hdays Hrange. unfold cleanup_old_jobs, timedelta_days, datetime_sub.
  destruct (Z.leb_spec (-999999999) days); [|lia].
  destruct (Z.leb_spec days 999999999); [|lia]. simpl.
  destruct (Z.leb_spec datetime_min (now - days * 86400000000)); [|lia].
  destruct (Z.leb_spec (now - days * 86400000000) datetime_max); [|lia]. simpl.
  eexists. split; [reflexivity|]. intros id.
  rewrite fold_delete_lookup.
  destruct (bool_decide_reflect
              (id ∈ List.map fst
                      (List.filter
                         (fun kv => created_at (snd kv) <? now - days * 86400000000)
                         (map_to_list jobs)))) as [Hin|Hout].
  - apply list_elem_of_In, old_jobs_spec in Hin. destruct Hin as (j & -> & Hold).
    now apply Z.ltb_lt in Hold as ->.
  - destruct (jobs !! id) as [j|] eqn:Ej; [|reflexivity].
    destruct (Z.ltb_spec (created_at j) (now - days * 86400000000)); [|reflexivity].
    exfalso. apply Hout, list_elem_of_In, old_jobs_spec. eauto.
Qed.

(** On a store that holds only completed and failed jobs, as the scheduler
    fills it, the removed records are the completed and failed ones past
    the cutoff. *)
Lemma extract_ends_completed_or_failed {S Call Item}
    (request : Call -> S -> stocks_models.APIResponse * S) on_success on_failure
    env ds (calls : result (list Call)) cl :
  let j := fst (extractors.run (Item := Item) request on_success on_failure env ds calls cl) in
  status j = COMPLETED \/ status j = FAILED.
Proof.
  unfold extractors.run. destruct calls as [calls|e]; [|right; reflexivity].
  destruct (extractors.sub_calls _ _ _ _ _ _) as [[p cl'] [e|]]; simpl; [now right|].
  destruct (extractors.disk_ok env); simpl; auto.
Qed.

(** A retention argument beyond what [timedelta] accepts raises instead of
    cleaning. *)
Lemma cleanup_rejects_huge_retention now days jobs :
  999999999 < days -> cleanup_old_jobs now days jobs = Raise OverflowError.
Proof.
  intros Hdays. unfold cleanup_old_jobs, timedelta_days.
  destruct (Z.leb_spec days 999999999); [lia|].
  now rewrite andb_false_r.
Qed.

End job_store.

Section job_store_examples.
Import Py models scheduler samples.

Lemma cleanup_removes_jobs_older_than_cutoff_witness :
  -999999999 <= 7 <= 999999999 /\
  datetime_min <= 100 * day - 7 * 86400000000 <= datetime_max /\
  exists jobs',
    cleanup_old_jobs (100 * day) 7 store_with_running_job = Ok jobs' /\
    forall id,
      jobs' !! id =
      match store_with_running_job !! id with
      | Some j => if created_at j <? 100 * day - 7 * 86400000000 then None else Some j
      | None => None
      end.
Proof.
  split; [lia|]. split; [vm_compute; split; discriminate|].
  apply (cleanup_removes_jobs_older_than_cutoff (100 * day) 7 store_with_running_job).
  - lia.
  - vm_compute; split; discriminate.
Defined.

(** C9, where the claim fails. A job that is still [RUNNING] and older than
    the retention is removed together with the old completed one; only the
    recent job stays. *)
Lemma cleanup_removes_running_job :
  status <$> store_with_running_job !! "stock_quotes_extract_1" = Some RUNNING /\
  match cleanup_old_jobs (100 * day) 7 store_with_running_job with
  | Ok jobs' =>
      jobs' !! "stock_quotes_extract_1" = None /\
      jobs' !! "stock_quotes_extract_2" = None /\
      status <$> jobs' !! "stock_quotes_extract_3" = Some COMPLETED
  | Raise _ => False
  end.
Proof. vm_compute. repeat split; reflexivity. Qed.

End job_store_examples.

(* ===================================================================== *)
(** * Properties of the alert store                                        *)
(* ===================================================================== *)

Section alerts.
Import Py models monitoring.

Lemma store_alerts_app l1 l2 store :
  store_alerts (l1 ++ l2) store = store_alerts l2 (store_alerts l1 store).
Proof. unfold store_alerts. apply fold_left_app. Qed.

(** Alerts stored later under other identifiers leave an entry alone. *)
Lemma store_alerts_other l : forall store id,
  (forall c, In c l -> alert_id c <> id) ->
  store_alerts l store !! id = store !! id.
Proof.
  induction l as [|a l IH]; intros store id Hid; [reflexivity|].
  change (store_alerts l (<[alert_id a := a]> store) !! id = store !! id).
  rewrite IH by (intros; apply Hid; now right).
  apply lookup_insert_ne. apply Hid. now left.
Qed.

(** The store keeps, under an identifier, the last alert of the list that
    carries it. *)
Lemma store_alerts_last l1 b l3 store :
  (forall c, In c l3 -> alert_id c <> alert_id b) ->
  store_alerts (l1 ++ b :: l3) store !! alert_id b = Some b.
Proof.
  intros Hlast. rewrite store_alerts_app.
  change (store_alerts l3 (<[alert_id b := b]> (store_alerts l1 store)) !! alert_id b
          = Some b).
  rewrite store_alerts_other by exact Hlast. apply lookup_insert_eq.
Qed.

Lemma check_alert_id now check a :
  check_alert now check = Some a ->
  alert_id a = alert_type a +:+ "_" +:+ pretty now.
Proof.
  unfold check_alert. destruct (check_status check); intros [= <-]; reflexivity.
Qed.

(** Every alert built by the first loop is identified by its type and the
    second read when it was built. *)
Lemma check_alerts_ids clock checks : forall alerts,
  (forall i a, alerts !! i = Some a ->
               alert_id a = alert_type a +:+ "_" +:+ pretty (clock i)) ->
  forall i a, check_alerts clock checks alerts !! i = Some a ->
              alert_id a = alert_type a +:+ "_" +:+ pretty (clock i).
Proof.
  induction checks as [|check checks IH]; intros alerts Hacc; simpl; [exact Hacc|].
  destruct (check_alert (clock (length alerts)) check) as [a0|] eqn:Ea; [|now apply IH].
  apply IH. intros i a Hi.
  destruct (lookup_app_Some alerts [a0] i a) as [Hsplit _].
  destruct (Hsplit Hi) as [Hl|[Hge Hr]]; [now apply Hacc|].
  destruct (i - length alerts)%nat eqn:Ei; [|discriminate Hr].
  injection Hr as <-. assert (i = length alerts) as -> by lia.
  eapply check_alert_id; eassumption.
Qed.

Lemma check_alerts_length clock checks : forall alerts,
  length (check_alerts clock checks alerts) = (length alerts + flagged checks)%nat.
Proof.
  unfold flagged.
  induction checks as [|check checks IH]; intros alerts; simpl; [lia|].
  unfold check_alert.
  destruct (check_status check); simpl; rewrite IH, ?length_app; simpl; lia.
Qed.

Context `{RT : Runtime}.

(** C10. Every [ERROR] or [WARNING] check yields one alert in the returned
    list, and the average-score alert may follow; each alert is identified
    by its type and the integer second at which it was built. If two
    returned alerts have the same type and were built within the same
    second, they carry the same identifier, and the stored map holds under
    it the later one (when no alert after it repeats the identifier): the
    earlier alert is in the returned list but not in the store. *)
Theorem same_second_alert_overwritten
    (clock : nat -> Z) (quality_checks : list DataQualityCheck)
    (store : gmap string Alert) :
  let '(alerts, store') := monitor_data_quality clock quality_checks store in
  (length alerts =
   flagged quality_checks
   + (if PrimFloat.ltb (_calculate_average_quality_score quality_checks) 0.8
      then 1 else 0))%nat /\
  (forall i a, alerts !! i = Some a ->
               alert_id a = alert_type a +:+ "_" +:+ pretty (clock i)) /\
  (forall i j a b,
      (i < j)%nat -> alerts !! i = Some a -> alerts !! j = Some b ->
      alert_type a = alert_type b -> clock i = clock j ->
      (forall k c, (j < k)%nat -> alerts !! k = Some c -> alert_id c <> alert_id b) ->
      alert_id a = alert_id b /\ In a alerts /\ In b alerts /\
      store' !! alert_id a = Some b).
Proof.
  unfold monitor_data_quality.
  set (first_loop := check_alerts clock quality_checks []).
  set (alerts := if PrimFloat.ltb _ _ then _ else _).
  assert (Hids : forall i a, alerts !! i = Some a ->
                   alert_id a = alert_type a +:+ "_" +:+ pretty (clock i)).
  { assert (H1 : forall i a, first_loop !! i = Some a ->
                   alert_id a = alert_type a +:+ "_" +:+ pretty (clock i)).
    { apply check_alerts_ids. intros i a Hi. rewrite lookup_nil in Hi. discriminate. }
    unfold alerts. destruct (PrimFloat.ltb _ _); [|exact H1].
    intros i a Hi.
    apply lookup_app_Some in Hi.
    destruct Hi as [Hl|[Hge Hr]]; [now apply H1|].
    destruct (i - length first_loop)%nat eqn:Ei; [|discriminate Hr].
    injection Hr as <-. assert (i = length first_loop) as -> by lia. reflexivity. }
  split; [|split; [exact Hids|]].
  - unfold alerts, first_loop.
    destruct (PrimFloat.ltb _ _); rewrite ?length_app, check_alerts_length; simpl; lia.
  - intros i j a b Hij Hi Hj Htype Hclock Hlast.
    assert (Hid : alert_id a = alert_id b).
    { rewrite (Hids i a Hi), (Hids j b Hj), Htype, Hclock. reflexivity. }
    split; [exact Hid|].
    split; [apply list_elem_of_In; eapply list_elem_of_lookup_2; exact Hi|].
    split; [apply list_elem_of_In; eapply list_elem_of_lookup_2; exact Hj|].
    rewrite Hid.
    destruct (list_elem_of_split_length alerts j b Hj) as (l1 & l3 & Heq & Hlen).
    rewrite Heq. apply store_alerts_last.
    intros c Hc. apply list_elem_of_In, list_elem_of_lookup in Hc.
    destruct Hc as (k & Hk).
    apply (Hlast (length l1 + Datatypes.S k)%nat c); [lia|].
    rewrite Heq, lookup_app_r by lia.
    replace (length l1 + Datatypes.S k - length l1)%nat with (Datatypes.S k) by lia.
    exact Hk.
Qed.

End alerts.

Section alert_examples.
Import Py models monitoring samples.

Lemma same_second_alert_overwritten_witness :
  let '(alerts, store') :=
    monitor_data_quality (RT := reference.runtime) same_second two_error_checks ∅ in
  exists a b,
    (0 < 1)%nat /\ alerts !! 0%nat = Some a /\ alerts !! 1%nat = Some b /\
    alert_type a = alert_type b /\ same_second 0%nat = same_second 1%nat /\
    alert_id a = alert_id b /\ In a alerts /\ In b alerts /\
    store' !! alert_id a = Some b.
Proof.
  pose proof (same_second_alert_overwritten (RT := reference.runtime)
                same_second two_error_checks ∅) as H.
  destruct (monitor_data_quality same_second two_error_checks ∅)
    as [alerts store'] eqn:E.
  destruct H as (_ & _ & H).
  apply (f_equal fst) in E. vm_compute in E. subst alerts.
  eexists _, _.
  split; [lia|]. split; [reflexivity|]. split; [reflexivity|].
  split; [reflexivity|]. split; [reflexivity|].
  apply (H 0%nat 1%nat); try reflexivity; [lia|].
  intros k c Hk Hc.
  destruct k as [|[|[|k]]]; try lia; [|discriminate Hc].
  injection Hc as <-. discriminate.
Defined.

(** Evaluated: three alerts are returned, two entries are stored, and the
    entry [error_1700000000] is the second error alert. *)
Example two_errors_in_one_second :
  let '(alerts, store') :=
    monitor_data_quality (RT := reference.runtime) same_second two_error_checks ∅ in
  List.map alert_id alerts
  = ["error_1700000000"; "error_1700000000"; "warning_1700000000"] /\
  size store' = 2%nat /\
  alert_message <$> store' !! "error_1700000000"
  = Some "validity: 50.0% of records have invalid values".
Proof. vm_compute. repeat split; reflexivity. Qed.

End alert_examples.

(* ===================================================================== *)
(** * Further properties of the rate limiter and of the request path       *)
(* ===================================================================== *)

Section rate_limiter_more.
Import Py api_client.

Lemma filter_newer_all bound l :
  Forall (fun t => (bound < t)%Q) (List.filter (newer_than bound) l).
Proof.
  apply List.Forall_forall. intros t Ht. apply filter_In in Ht.
  now apply newer_than_spec.
Qed.

(** X1. After an acquisition at time [now] every recorded timestamp, the new
    one included, lies in the window that ends at [now]. *)
Theorem no_stale_timestamp_after_call (now : Q) (self : RateLimiter) :
  1 <= requests_per_minute self ->
  exists slept self',
    wait_if_needed now self = Ok (slept, self') /\
    Forall (fun t => (now - 60 < t)%Q) (requests self').
Proof.
  intros Hrpm.
  destruct (wait_if_needed_step now self Hrpm) as (slept & l & Heq & Hcase).
  exists slept. eexists. split; [exact Heq|]. simpl.
  pose proof (filter_newer_all (now - 60)%Q (requests self)) as Hf.
  apply Forall_app. split.
  - destruct Hcase as [(_ & _ & ->)|(_ & oldest & Hreqs & _)]; [exact Hf|].
    rewrite Hreqs in Hf. now apply Forall_cons in Hf.
  - constructor; [lra|constructor].
Qed.

Lemma no_stale_timestamp_after_call_witness :
  1 <= 2 /\
  exists slept self',
    wait_if_needed 100 {| requests_per_minute := 2; burst := 10;
                          requests := [10%Q; 50%Q; 99%Q] |} = Ok (slept, self') /\
    Forall (fun t => (100 - 60 < t)%Q) (requests self').
Proof.
  split; [lia|].
  apply (no_stale_timestamp_after_call 100
           {| requests_per_minute := 2; burst := 10; requests := [10%Q; 50%Q; 99%Q] |}).
  simpl. lia.
Defined.

(** X2. A limit of zero or less cannot be served: when no recorded timestamp
    is fresh, in particular on a new limiter, the call raises [IndexError]
    at [self.requests[0]]. *)
Theorem non_positive_limit_raises (now : Q) (self : RateLimiter) :
  requests_per_minute self <= 0 ->
  Forall (fun t => (t <= now - 60)%Q) (requests self) ->
  wait_if_needed now self = Raise IndexError /\
  async_wait_if_needed now self = Raise IndexError.
Proof.
  intros Hrpm Hold.
  assert (Hnil : List.filter (newer_than (now - 60)%Q) (requests self) = []).
  { induction Hold as [|t l Ht _ IH]; [reflexivity|]. simpl.
    destruct (newer_than (now - 60)%Q t) eqn:E; [|exact IH].
    apply newer_than_spec in E. exfalso. apply (Qlt_not_le _ _ E). exact Ht. }
  assert (Hsync : wait_if_needed now self = Raise IndexError).
  { unfold wait_if_needed. rewrite Hnil. simpl.
    change (Z.of_nat 0) with 0.
    destruct (Z.geb_spec 0 (requests_per_minute self)); [reflexivity|lia]. }
  split; [exact Hsync|]. exact Hsync.
Qed.

Lemma non_positive_limit_raises_witness :
  requests_per_minute (RateLimiter_init 0 10) <= 0 /\
  Forall (fun t => (t <= 5 - 60)%Q) (requests (RateLimiter_init 0 10)) /\
  wait_if_needed 5 (RateLimiter_init 0 10) = Raise IndexError /\
  async_wait_if_needed 5 (RateLimiter_init 0 10) = Raise IndexError.
Proof.
  split; [simpl; lia|]. split; [constructor|].
  apply (non_positive_limit_raises 5 (RateLimiter_init 0 10)); [simpl; lia|constructor].
Defined.

Lemma filter_sorted (f : Q -> bool) l :
  StronglySorted Qle l -> StronglySorted Qle (List.filter f l).
Proof.
  induction 1 as [|t l Hs IH Hall]; simpl; [constructor|].
  destruct (f t); [|exact IH]. constructor; [exact IH|].
  apply List.Forall_forall. intros x Hx. apply filter_In in Hx.
  rewrite List.Forall_forall in Hall. apply Hall. tauto.
Qed.

Lemma sorted_snoc l (now : Q) :
  StronglySorted Qle l -> Forall (fun t => (t <= now)%Q) l ->
  StronglySorted Qle (l ++ [now]).
Proof.
  induction 1 as [|t l Hs IH Hall]; intros Hle; simpl.
  - repeat constructor.
  - apply Forall_cons in Hle. destruct Hle as [Ht Hle].
    constructor; [now apply IH|].
    apply Forall_app. split; [exact Hall|]. constructor; [exact Ht|constructor].
Qed.

Lemma filter_Forall {A} (P : A -> Prop) (f : A -> bool) l :
  Forall P l -> Forall P (List.filter f l).
Proof.
  intros H. apply List.Forall_forall. intros x Hx. apply filter_In in Hx.
  rewrite List.Forall_forall in H. apply H. tauto.
Qed.

(** X3. With clock readings that never go back, the recorded timestamps stay
    in increasing order, so [self.requests[0]] is the oldest one, and a
    call that waits sleeps for a positive time of at most 60 seconds. *)
Theorem timestamps_stay_sorted (now : Q) (self : RateLimiter) :
  1 <= requests_per_minute self ->
  StronglySorted Qle (requests self) ->
  Forall (fun t => (t <= now)%Q) (requests self) ->
  exists slept self',
    wait_if_needed now self = Ok (slept, self') /\
    StronglySorted Qle (requests self') /\
    Forall (fun t => (t <= now)%Q) (requests self') /\
    (forall s, slept = Some s -> (0 < s)%Q /\ (s <= 60)%Q).
Proof.
  intros Hrpm Hsorted Hle.
  destruct (wait_if_needed_step now self Hrpm) as (slept & l & Heq & Hcase).
  exists slept. eexists. split; [exact Heq|]. simpl.
  pose proof (filter_sorted (newer_than (now - 60)%Q) _ Hsorted) as Hfs.
  pose proof (filter_Forall _ (newer_than (now - 60)%Q) _ Hle) as Hfl.
  assert (Hl : StronglySorted Qle l /\ Forall (fun t => (t <= now)%Q) l).
  { destruct Hcase as [(_ & _ & ->)|(_ & oldest & Hreqs & _)]; [auto|].
    rewrite Hreqs in Hfs, Hfl. apply StronglySorted_inv in Hfs.
    apply Forall_cons in Hfl. tauto. }
  destruct Hl as [Hls Hll].
  split; [now apply sorted_snoc|]. split.
  - apply Forall_app. split; [exact Hll|]. constructor; [apply Qle_refl|constructor].
  - intros s ->.
    destruct Hcase as [(_ & Hs & _)|(_ & oldest & Hreqs & Hs & Hpos)]; [discriminate|].
    injection Hs as ->. split; [exact Hpos|].
    rewrite Hreqs in Hfl. apply Forall_cons in Hfl. destruct Hfl as [Ho _]. lra.
Qed.

Lemma timestamps_stay_sorted_witness :
  1 <= 2 /\
  StronglySorted Qle [10%Q; 50%Q; 99%Q] /\
  Forall (fun t => (t <= 100)%Q) [10%Q; 50%Q; 99%Q] /\
  exists slept self',
    wait_if_needed 100 {| requests_per_minute := 2; burst := 10;
                          requests := [10%Q; 50%Q; 99%Q] |} = Ok (slept, self') /\
    StronglySorted Qle (requests self') /\
    Forall (fun t => (t <= 100)%Q) (requests self') /\
    (forall s, slept = Some s -> (0 < s)%Q /\ (s <= 60)%Q).
Proof.
  assert (Hs : StronglySorted Qle [10%Q; 50%Q; 99%Q]).
  { repeat constructor; unfold Qle; simpl; lia. }
  assert (Hl : Forall (fun t => (t <= 100)%Q) [10%Q; 50%Q; 99%Q]).
  { repeat constructor; unfold Qle; simpl; lia. }
  split; [lia|]. split; [exact Hs|]. split; [exact Hl|].
  apply (timestamps_stay_sorted 100
           {| requests_per_minute := 2; burst := 10; requests := [10%Q; 50%Q; 99%Q] |});
    [simpl; lia|exact Hs|exact Hl].
Defined.

End rate_limiter_more.

Section request_more.
Import Py api_client samples.

(** X4. An upstream that answers every attempt with 429 and a [Retry-After]
    the code can sleep (absent, or an integer from 0 to 9223372036 that
    the platform does not refuse) is asked [max(1, max_retries)] times;
    then the call ends with [RetryError]. A negative, oversized or
    non-integer [Retry-After] is outside this case: it raises from
    [time.sleep] or [int()] and is not retried. *)
Theorem always_rate_limited_exhausts_retries
    (max_retries : Z) (world : nat -> Q * wire) (rl : RateLimiter) :
  (forall n, exists now r, world n = (now, Answered r) /\ status_code r = 429
                            /\ sleepable (retry_after r) = true) ->
  1 <= requests_per_minute rl ->
  exists rl' tr,
    _make_request max_retries world rl = (Raise RetryError, rl', tr) /\
    Z.of_nat (sent tr) = Z.max 1 max_retries.
Proof.
  intros Hworld Hrpm. unfold _make_request.
  destruct (rate_limited_retried_until_exhausted world Hworld
              (Z.to_nat (max_retries - 1)) 1%nat rl Hrpm) as (rl' & tr & Hrun & Hsent).
  exists rl', tr. split; [exact Hrun|]. rewrite Hsent. lia.
Qed.

Lemma always_rate_limited_exhausts_retries_witness :
  exists rl' tr,
    _make_request 3 (always (Answered (http 429))) (RateLimiter_init 60 10)
    = (Raise RetryError, rl', tr) /\
    Z.of_nat (sent tr) = Z.max 1 3.
Proof.
  apply (always_rate_limited_exhausts_retries 3 (always (Answered (http 429)))
           (RateLimiter_init 60 10)).
  - intros n. exists (inject_Z (Z.of_nat n)), (http 429).
    split; [reflexivity|]. split; reflexivity.
  - simpl. lia.
Defined.

(** An answer that is not an HTTP error comes back from the [try] block. *)
Lemma try_block_success r :
  status_code r < 400 \/ 600 <= status_code r ->
  try_block (Answered r) = (Ok r, [Sent]).
Proof.
  intros Hr. unfold try_block, raise_for_status.
  destruct (Z.eqb_spec (status_code r) 429); [lia|].
  destruct (Z.eqb_spec (status_code r) 401); [lia|].
  destruct (Z.leb_spec 400 (status_code r)); simpl; [|reflexivity].
  destruct (Z.ltb_spec (status_code r) 600); [lia|reflexivity].
Qed.

Lemma retrying_after_rate_limits world r k : forall left n rl,
  (forall i, (n <= i < n + k)%nat ->
             exists now r', world i = (now, Answered r') /\ status_code r' = 429
                            /\ sleepable (retry_after r') = true) ->
  (exists now, world (n + k)%nat = (now, Answered r)) ->
  status_code r < 400 \/ 600 <= status_code r ->
  (k <= left)%nat ->
  1 <= requests_per_minute rl ->
  exists rl' tr,
    retrying left n world rl = (Ok r, rl', tr) /\ sent tr = Datatypes.S k.
Proof.
  induction k as [|k IH]; intros left n rl Hlim (now & Hok) Hr Hleft Hrpm.
  - rewrite Nat.add_0_r in Hok.
    destruct (wait_if_needed_ok now rl Hrpm) as (slept & rl' & Hwait & _).
    exists rl'. eexists.
    destruct left; simpl; rewrite Hok; unfold attempt; rewrite Hwait;
      rewrite (try_block_success r Hr); split; reflexivity.
  - destruct left as [|left]; [lia|].
    destruct (Hlim n) as (now1 & r1 & Hw1 & Hs1 & Hh1); [lia|].
    destruct (wait_if_needed_ok now1 rl Hrpm) as (slept & rl1 & Hwait & Hrpm1).
    destruct (IH left (Datatypes.S n) rl1) as (rl' & tr & Hrun & Hsent).
    + intros i Hi. apply Hlim. lia.
    + exists now. rewrite <- Hok. f_equal. lia.
    + exact Hr.
    + lia.
    + lia.
    + simpl. rewrite Hw1. unfold attempt. rewrite Hwait.
      destruct (try_block_rate_limited r1 Hs1 Hh1) as (seconds & Htry).
      rewrite Htry. simpl. simpl in Hrun. rewrite Hrun.
      eexists _, _. split; [reflexivity|].
      unfold sent in *. cbn. rewrite Hsent. reflexivity.
Qed.

(** X5. When the first [k] answers are 429 with a [Retry-After] the code
    can sleep (absent, or an integer from 0 to 9223372036 that the
    platform does not refuse) and the next one is not an HTTP error, and
    [k + 1] attempts are allowed, the call returns that answer after
    [k + 1] requests. *)
Theorem success_after_rate_limits
    (max_retries : Z) (world : nat -> Q * wire) (rl : RateLimiter)
    (k : nat) (r : Response) :
  (forall i, (1 <= i <= k)%nat ->
             exists now r', world i = (now, Answered r') /\ status_code r' = 429
                            /\ sleepable (retry_after r') = true) ->
  (exists now, world (Datatypes.S k) = (now, Answered r)) ->
  status_code r < 400 \/ 600 <= status_code r ->
  Z.of_nat k + 1 <= max_retries ->
  1 <= requests_per_minute rl ->
  exists rl' tr,
    _make_request max_retries world rl = (Ok r, rl', tr) /\
    sent tr = Datatypes.S k.
Proof.
  intros Hlim Hok Hr Hmax Hrpm. unfold _make_request.
  apply (retrying_after_rate_limits world r k); try assumption.
  - intros i Hi. apply Hlim. lia.
  - lia.
Qed.

Lemma success_after_rate_limits_witness :
  exists rl' tr,
    _make_request 3 limited_twice_then_ok (RateLimiter_init 60 10)
    = (Ok (http 200), rl', tr) /\
    sent tr = 3%nat.
Proof.
  apply (success_after_rate_limits 3 limited_twice_then_ok (RateLimiter_init 60 10)
           2%nat (http 200)).
  - intros i Hi. destruct i as [|[|[|i]]]; try lia;
      exists (inject_Z (Z.of_nat 0)), (http 429);
      (split; [reflexivity|]); (split; reflexivity).
  - exists (inject_Z (Z.of_nat 0)). reflexivity.
  - left. simpl. lia.
  - lia.
  - simpl. lia.
Defined.

(** X6. A transport failure and an HTTP 401 are raised after a single
    request, as [APIError] and [AuthenticationError], whatever
    [max_retries] is: the retry predicate matches [RateLimitError] and
    [RequestException] only, and the handler in the body has already
    turned the transport failure into an [APIError]. *)
Theorem failures_other_than_429_are_raised_at_once
    (max_retries : Z) (world : nat -> Q * wire) (rl : RateLimiter)
    (now : Q) (w : wire) :
  world 1%nat = (now, w) ->
  w = Failed \/ (exists r, w = Answered r /\ status_code r = 401) ->
  1 <= requests_per_minute rl ->
  exists rl' slept,
    _make_request max_retries world rl
    = (Raise (match w with
              | Failed => APIError
              | Answered _ => AuthenticationError
              end), rl', [Throttled slept; Sent]).
Proof.
  intros Hw [->|(r & -> & Hr)] Hrpm.
  - exact (transport_failure_not_retried max_retries world rl now Hw Hrpm).
  - exact (authentication_error_not_retried max_retries world rl now r Hw Hr Hrpm).
Qed.

Lemma failures_other_than_429_are_raised_at_once_witness :
  exists rl' slept,
    _make_request 3 (always (Answered (http 401))) (RateLimiter_init 60 10)
    = (Raise AuthenticationError, rl', [Throttled slept; Sent]).
Proof.
  apply (failures_other_than_429_are_raised_at_once 3 (always (Answered (http 401)))
           (RateLimiter_init 60 10) 1%Q (Answered (http 401))).
  - reflexivity.
  - right. exists (http 401). split; reflexivity.
  - simpl. lia.
Defined.

End request_more.

(* ===================================================================== *)
(** * Further properties of the parsers                                    *)
(* ===================================================================== *)

Section parsers_more.
Import Py models stocks_models updated_yahoo_client.
Context `{RT : Runtime}.

Lemma parse_each_accepted {A} (f : pyval -> result A) body :
  Forall (fun x => only_validation (f x)) body ->
  parse_each f body = Ok (accepted f body).
Proof.
  unfold accepted.
  induction 1 as [|x body Hx _ IH]; simpl; [reflexivity|].
  rewrite IH. destruct (f x) as [a|e]; simpl; [reflexivity|].
  simpl in Hx. now subst e.
Qed.

Lemma parse_search_result_dict d : only_validation (parse_search_result (PDict d)).
Proof.
  unfold parse_search_result.
  repeat (apply bind_only_validation;
          [ first [ exact I | destruct (truthy _); exact I ] | intros ? ]).
  apply Stock_init_only_validation.
Qed.

(** X7. On a payload whose [body] is a list of objects each parser returns, in
    body order, exactly the elements that its single-element parser
    accepts. *)
Theorem parsers_keep_accepted_elements_in_order
    (response_data : pyval) (body : list pyval) :
  body_of response_data = Some body ->
  Forall is_dict body ->
  parse_tickers_response response_data = Ok (accepted parse_ticker_data body) /\
  parse_quotes_response response_data = Ok (accepted parse_quote_data body) /\
  parse_search_response response_data = Ok (accepted parse_search_result body).
Proof.
  intros Hb Hdict.
  destruct response_data as [| | | | | |d]; simpl in Hb; try discriminate.
  destruct (assoc_get d "body") as [v|] eqn:Ed; [|discriminate].
  destruct v; try discriminate. injection Hb as ->.
  unfold parse_tickers_response, parse_quotes_response, parse_search_response.
  simpl. rewrite Ed. simpl.
  split; [|split]; apply parse_each_accepted;
    (eapply Forall_impl; [exact Hdict|]); intros x (dx & ->).
  - apply parse_ticker_data_dict.
  - apply parse_quote_data_dict.
  - apply parse_search_result_dict.
Qed.

Lemma parse_each_raises {A} (f : pyval -> result A) l1 x l2 e :
  Forall (fun y => only_validation (f y)) l1 ->
  f x = Raise e -> e <> ValidationError ->
  parse_each f (l1 ++ x :: l2) = Raise e.
Proof.
  intros Hl1 Hx He. induction Hl1 as [|y l1 Hy _ IH]; simpl.
  - rewrite Hx. destruct e; congruence.
  - rewrite IH. destruct (f y) as [a|e']; simpl; [reflexivity|].
    simpl in Hy. now subst e'.
Qed.

(** X8. A [body] element that is not an object is not skipped: the parser
    raises [AttributeError], whatever the elements after it are. *)
Theorem non_object_element_raises_attribute_error
    (d : list (string * pyval)) (l1 l2 : list pyval) (x : pyval) :
  assoc_get d "body" = Some (PList (l1 ++ x :: l2)) ->
  Forall is_dict l1 ->
  ~ is_dict x ->
  parse_tickers_response (PDict d) = Raise AttributeError /\
  parse_quotes_response (PDict d) = Raise AttributeError /\
  parse_search_response (PDict d) = Raise AttributeError.
Proof.
  intros Hb Hl1 Hx.
  assert (Hget : forall k, get x k = Raise AttributeError).
  { intros k. destruct x; try reflexivity. exfalso. apply Hx. eexists; reflexivity. }
  unfold parse_tickers_response, parse_quotes_response, parse_search_response.
  simpl. rewrite Hb. simpl.
  split; [|split]; apply parse_each_raises; try discriminate.
  - eapply Forall_impl; [exact Hl1|]. intros y (dy & ->). apply parse_ticker_data_dict.
  - unfold parse_ticker_data. rewrite (Hget "marketCap"). reflexivity.
  - eapply Forall_impl; [exact Hl1|]. intros y (dy & ->). apply parse_quote_data_dict.
  - unfold parse_quote_data. rewrite (Hget "symbol"). reflexivity.
  - eapply Forall_impl; [exact Hl1|]. intros y (dy & ->). apply parse_search_result_dict.
  - unfold parse_search_result. rewrite (Hget "symbol"). reflexivity.
Qed.

(** [drop_none] and lookup, for keyword lists without repeated keys. *)
Lemma assoc_get_drop_none kw k :
  NoDup (List.map fst kw) ->
  assoc_get (drop_none kw) k =
  match assoc_get kw k with
  | Some PNone => None
  | o => o
  end.
Proof.
  induction kw as [|[k' v] kw IH]; simpl; intros Hnd; [reflexivity|].
  apply NoDup_cons in Hnd. destruct Hnd as [Hk' Hnd].
  destruct (String.eqb k' k) eqn:E.
  - apply String.eqb_eq in E. subst k'.
    destruct (is_None v) eqn:Ev; simpl.
    + destruct v; try discriminate.
      apply assoc_get_drop_none_None.
      clear -Hk'. induction kw as [|[k2 v2] kw IH]; simpl; [reflexivity|].
      destruct (String.eqb k2 k) eqn:E2.
      * apply String.eqb_eq in E2. subst. exfalso. apply Hk'. simpl. now left.
      * apply IH. intros Hin. apply Hk'. simpl. now right.
    + rewrite String.eqb_refl. destruct v; try reflexivity. discriminate.
  - destruct (is_None v); simpl; [now apply IH|]. rewrite E. now apply IH.
Qed.

Lemma search_keys_nodup :
  NoDup ["symbol"; "name"; "exchange"; "sector"; "industry"; "currency"; "country"].
Proof.
  repeat (apply NoDup_cons_2;
          [rewrite ?not_elem_of_cons; repeat split;
           first [discriminate | apply not_elem_of_nil]|]).
  apply NoDup_nil_2.
Qed.

Lemma Stock_init_currency_country kw s :
  Stock_init kw = Ok s ->
  defaulted as_str "USD" kw "currency" = Ok (Stock.currency s) /\
  optional as_str kw "country" = Ok (Stock.country s).
Proof.
  unfold Stock_init. intros H.
  repeat (apply bind_Ok in H; destruct H as (? & ? & H)).
  injection H as <-. split; assumption.
Qed.

(** X9. Every record returned for a search has the currency [USD] and the
    country [US], whatever the payload says. *)
Theorem search_results_are_usd_us (response_data : pyval) (stocks : list Stock.t) :
  parse_search_response response_data = Ok stocks ->
  Forall (fun s => Stock.currency s = "USD" /\ Stock.country s = Some "US") stocks.
Proof.
  intros H. apply parse_response_inv in H.
  destruct H as [->|(body & _ & H)]; [constructor|].
  destruct (parse_each_spec _ _ _ H) as [_ Hall].
  eapply Forall_impl; [exact Hall|]. intros s (x & _ & Hp).
  unfold parse_search_result in Hp.
  do 8 (apply bind_Ok in Hp; destruct Hp as (? & ? & Hp)).
  apply Stock_init_currency_country in Hp. destruct Hp as [Hcur Hcountry].
  unfold defaulted in Hcur. unfold optional in Hcountry.
  rewrite assoc_get_drop_none in Hcur, Hcountry by exact search_keys_nodup.
  simpl in Hcur, Hcountry.
  injection Hcur as <-. injection Hcountry as <-. auto.
Qed.

(** X10. A ticker whose [marketCap] string does not parse is treated as a
    ticker without market cap: the element is not rejected for it. *)
Theorem unparsed_market_cap_is_dropped (d : list (string * pyval)) (s : string) :
  s <> "" ->
  float_of_str (remove_char "," s) = None ->
  parse_ticker_data (PDict (("marketCap", PStr s) :: d))
  = parse_ticker_data (PDict (("marketCap", PNone) :: d)).
Proof.
  intros Hs Hf. unfold parse_ticker_data. simpl.
  rewrite Hf. destruct s; [done|]. reflexivity.
Qed.

End parsers_more.

Section parsers_more_examples.
Import Py models stocks_models updated_yahoo_client samples.

Lemma parsers_keep_accepted_elements_in_order_witness :
  parse_tickers_response (RT := reference.runtime) tickers_two_of_three
  = Ok (accepted (parse_ticker_data (RT := reference.runtime))
          [PDict [("symbol", PStr "AAPL"); ("marketCap", PStr "2,900,000")];
           PDict [("name", PStr "no symbol")];
           PDict [("symbol", PStr "MSFT")]]).
Proof.
  apply (parsers_keep_accepted_elements_in_order (RT := reference.runtime)
           tickers_two_of_three _ eq_refl).
  repeat constructor; eexists; reflexivity.
Defined.

Lemma non_object_element_raises_attribute_error_witness :
  parse_tickers_response (RT := reference.runtime)
    (PDict [("body", PList ([PDict [("symbol", PStr "AAPL")]]
                             ++ PStr "MSFT" :: [PDict [("symbol", PStr "GOOGL")]]))])
  = Raise AttributeError.
Proof.
  apply (non_object_element_raises_attribute_error (RT := reference.runtime)
           [("body", PList ([PDict [("symbol", PStr "AAPL")]]
                            ++ PStr "MSFT" :: [PDict [("symbol", PStr "GOOGL")]]))]
           [PDict [("symbol", PStr "AAPL")]] [PDict [("symbol", PStr "GOOGL")]]
           (PStr "MSFT")).
  - reflexivity.
  - repeat constructor. eexists; reflexivity.
  - intros (dx & Hx). discriminate Hx.
Defined.

Lemma search_results_are_usd_us_witness :
  Forall (fun s => Stock.currency s = "USD" /\ Stock.country s = Some "US")
         [search_hit].
Proof.
  apply (search_results_are_usd_us (RT := reference.runtime) search_payload).
  vm_compute. reflexivity.
Defined.

Lemma unparsed_market_cap_is_dropped_witness :
  parse_ticker_data (RT := reference.runtime)
    (PDict [("marketCap", PStr "n/a"); ("symbol", PStr "AAPL")])
  = parse_ticker_data (RT := reference.runtime)
      (PDict [("marketCap", PNone); ("symbol", PStr "AAPL")]).
Proof.
  apply (unparsed_market_cap_is_dropped (RT := reference.runtime)
           [("symbol", PStr "AAPL")] "n/a").
  - discriminate.
  - reflexivity.
Defined.

End parsers_more_examples.

(* ===================================================================== *)
(** * Further properties of the extractors                                 *)
(* ===================================================================== *)

Section sub_call_loop_more.
Import Py models stocks_models extractors.
Context {S Call Item : Type}.
Variable request : Call -> S -> APIResponse * S.
Variable on_success : Call -> pyval -> result (list Item * Z).
Variable on_failure : Call -> Z.

(** The loop changes the counters of the job and nothing else. *)
Lemma sub_calls_keeps calls : forall p cl p' cl' e,
  sub_calls request on_success on_failure calls p cl = (p', cl', e) ->
  job_id (job p') = job_id (job p) /\
  status (job p') = status (job p) /\
  total_items (job p') = total_items (job p) /\
  error_message (job p') = error_message (job p).
Proof.
  induction calls as [|c calls IH]; intros p cl p' cl' e; simpl.
  - intros [= <- <- <-]. auto.
  - destruct (request c cl) as [r cl1]. destruct (success r).
    + destruct (on_success c (data r)) as [[new_items n]|ex].
      * intros Hrun. apply IH in Hrun. exact Hrun.
      * intros [= <- <- <-]. auto.
    + intros Hrun. apply IH in Hrun. exact Hrun.
Qed.

Lemma run_settled env ds (calls : result (list Call)) cl :
  settled (fst (run request on_success on_failure env ds calls cl)).
Proof.
  unfold run, settled. destruct calls as [calls|e]; [|right; simpl; eauto].
  destruct (sub_calls _ _ _ calls _ cl) as [[p cl'] e] eqn:Erun.
  apply sub_calls_keeps in Erun. simpl in Erun.
  destruct Erun as (_ & _ & _ & Herr).
  destruct e as [e|]; [right; simpl; eauto|].
  destruct (disk_ok env); simpl; [left|right]; eauto.
Qed.

Lemma run_job_id env ds (calls : result (list Call)) cl :
  job_id (fst (run request on_success on_failure env ds calls cl))
  = DataSourceType_value ds +:+ "_" +:+ "extract" +:+ "_" +:+ pretty (time_s env).
Proof.
  unfold run. destruct calls as [calls|e]; [|reflexivity].
  destruct (sub_calls _ _ _ calls _ cl) as [[p cl'] e] eqn:Erun.
  apply sub_calls_keeps in Erun. simpl in Erun. destruct Erun as (Hid & _).
  destruct e as [e|]; [exact Hid|]. destruct (disk_ok env); exact Hid.
Qed.

(** The loop does not touch what identifies the job. *)
Lemma sub_calls_identity calls : forall p cl p' cl' e,
  sub_calls request on_success on_failure calls p cl = (p', cl', e) ->
  data_source (job p') = data_source (job p) /\
  job_type (job p') = job_type (job p) /\
  created_at (job p') = created_at (job p).
Proof.
  induction calls as [|c calls IH]; intros p cl p' cl' e; simpl.
  - intros [= <- <- <-]. auto.
  - destruct (request c cl) as [r cl1]. destruct (success r).
    + destruct (on_success c (data r)) as [[new_items n]|ex].
      * intros Hrun. apply IH in Hrun. exact Hrun.
      * intros [= <- <- <-]. auto.
    + intros Hrun. apply IH in Hrun. exact Hrun.
Qed.

Lemma run_identity env ds (calls : result (list Call)) cl :
  data_source (fst (run request on_success on_failure env ds calls cl)) = ds /\
  job_type (fst (run request on_success on_failure env ds calls cl)) = "extract" /\
  created_at (fst (run request on_success on_failure env ds calls cl)) = utcnow env.
Proof.
  unfold run. destruct calls as [calls|e]; [|simpl; auto].
  destruct (sub_calls _ _ _ calls _ cl) as [[p cl'] e] eqn:Erun.
  apply sub_calls_identity in Erun. simpl in Erun.
  destruct e as [e|]; [exact Erun|]. destruct (disk_ok env); exact Erun.
Qed.



End sub_call_loop_more.

Section extractors_more.
Import Py models stocks_models updated_yahoo_client extractors.
Context `{RT : Runtime} {S : Type} `{CL : Client S}.
Variable config : Config.

(** X11. Every job handed back by an extractor is completed, with its total set
    and no error message, or failed, with an error message; it is never
    left pending or running. It is an [extract] job of the data source of
    its extractor, created at the time read, and its identifier is made of
    the data source and the second read by [create_job]. *)
Theorem extractors_return_settled_jobs (env : Env) (cl : S)
    (pages : option Z) (types symbols intervals lists : option (list string)) :
  handed_back env MARKET_TICKERS
    (fst (MarketTickersExtractor_extract config env pages types cl)) /\
  handed_back env STOCK_QUOTES
    (fst (StockQuotesExtractor_extract config env symbols cl)) /\
  handed_back env STOCK_HISTORY
    (fst (StockHistoryExtractor_extract config env symbols intervals cl)) /\
  handed_back env MARKET_SCREENERS
    (fst (MarketScreenerExtractor_extract config env lists cl)) /\
  handed_back env STOCK_NEWS
    (fst (StockNewsExtractor_extract config env symbols cl)).
Proof.
  assert (Hrun : forall (Call Item : Type) (request : Call -> S -> APIResponse * S)
                   (on_success : Call -> pyval -> result (list Item * Z))
                   (on_failure : Call -> Z) ds (calls : result (list Call)),
            handed_back env ds
              (fst (run request on_success on_failure env ds calls cl))).
  { intros Call Item request on_success on_failure ds calls.
    destruct (run_identity request on_success on_failure env ds calls cl)
      as (Hds & Htype & Hcreated).
    split; [apply run_settled|].
    split; [exact Hds|]. split; [exact Htype|]. split; [exact Hcreated|].
    rewrite run_job_id. reflexivity. }
  split; [|split; [|split; [|split]]]; apply Hrun.
Qed.


Lemma chunks_concat n : forall fuel l,
  (1 <= n)%nat -> (length l <= fuel)%nat ->
  List.concat (chunks fuel n l) = l /\
  Forall (fun b => (1 <= length b <= n)%nat) (chunks fuel n l).
Proof.
  induction fuel as [|fuel IH]; intros l Hn Hf.
  - destruct l; [split; [reflexivity|constructor]|simpl in Hf; lia].
  - destruct l as [|x l]; [split; [reflexivity|constructor]|].
    change (chunks (Datatypes.S fuel) n (x :: l))
      with (firstn n (x :: l) :: chunks fuel n (skipn n (x :: l))).
    destruct (IH (skipn n (x :: l)) Hn) as [Hc Hb].
    { rewrite length_skipn. simpl in *. lia. }
    split.
    + simpl List.concat. rewrite Hc. apply firstn_skipn.
    + constructor; [|exact Hb]. rewrite length_firstn. simpl. lia.
Qed.

(** X13. Batching keeps every symbol, in order: for a positive batch size the
    batches concatenate to the symbol list, and each batch holds between
    one and [batch_size] symbols. *)
Theorem batches_partition_the_symbols (batch_size : Z) (symbols : list string) :
  0 < batch_size ->
  exists bs,
    batches batch_size symbols = Ok bs /\
    List.concat bs = symbols /\
    Forall (fun b => 1 <= Z.of_nat (length b) <= batch_size) bs.
Proof.
  intros Hb. unfold batches.
  destruct (Z.eqb_spec batch_size 0); [lia|].
  destruct (Z.ltb_spec batch_size 0); [lia|].
  destruct (chunks_concat (Z.to_nat batch_size) (length symbols) symbols)
    as [Hc Hall]; [lia|lia|].
  eexists. split; [reflexivity|]. split; [exact Hc|].
  eapply Forall_impl; [exact Hall|]. intros b Hlen. simpl in Hlen. lia.
Qed.

(** X14. A batch size of zero fails the job and a negative one completes it
    with nothing extracted; in both cases no request is made. *)
Theorem non_positive_batch_size_requests_nothing
    (env : Env) (symbols : option (list string)) (cl : S) :
  batch_size config <= 0 ->
  let '(j, cl') := StockQuotesExtractor_extract config env symbols cl in
  cl' = cl /\ processed_items j = 0 /\ failed_items j = 0 /\
  (batch_size config = 0 -> status j = FAILED /\ total_items j = None) /\
  (batch_size config < 0 -> disk_ok env = true ->
   status j = COMPLETED /\ total_items j = Some 0).
Proof.
  intros Hb. unfold StockQuotesExtractor_extract, batches.
  destruct (Z.eqb_spec (batch_size config) 0) as [H0|H0].
  - simpl. repeat split; try reflexivity; lia.
  - destruct (Z.ltb_spec (batch_size config) 0); [|lia].
    unfold run. simpl. destruct (disk_ok env); simpl;
      repeat split; try reflexivity; try lia; intros; discriminate.
Qed.

End extractors_more.

Section extractors_more_examples.
Import Py models stocks_models updated_yahoo_client extractors samples.


(** Evaluated: one record was processed before the run was cut short. *)
Example invalid_news_record_counters :
  let j := fst (StockNewsExtractor_extract default_config env0
                  (Some ["AAPL"; "MSFT"; "GOOGL"])
                  [ok_response (news_payload 1); ok_response news_without_title;
                   ok_response (news_payload 1)]) in
  status j = FAILED /\ processed_items j = 1 /\ failed_items j = 0.
Proof. vm_compute. repeat split; reflexivity. Qed.

Lemma batches_partition_the_symbols_witness :
  0 < 2 /\
  exists bs,
    batches 2 ["AAPL"; "MSFT"; "GOOGL"] = Ok bs /\
    List.concat bs = ["AAPL"; "MSFT"; "GOOGL"] /\
    Forall (fun b => 1 <= Z.of_nat (length b) <= 2) bs.
Proof.
  split; [lia|].
  apply (batches_partition_the_symbols 2 ["AAPL"; "MSFT"; "GOOGL"]). lia.
Defined.

Example three_symbols_in_batches_of_two :
  batches 2 ["AAPL"; "MSFT"; "GOOGL"] = Ok [["AAPL"; "MSFT"]; ["GOOGL"]].
Proof. reflexivity. Qed.

Lemma non_positive_batch_size_requests_nothing_witness :
  batch_size (config_with_batch 0) <= 0 /\
  let '(j, cl') :=
    StockQuotesExtractor_extract (RT := reference.runtime) (config_with_batch 0)
      env0 (Some three_symbols) [failed_response] in
  cl' = [failed_response] /\ processed_items j = 0 /\ failed_items j = 0 /\
  (batch_size (config_with_batch 0) = 0 -> status j = FAILED /\ total_items j = None) /\
  (batch_size (config_with_batch 0) < 0 -> disk_ok env0 = true ->
   status j = COMPLETED /\ total_items j = Some 0).
Proof.
  split; [simpl; lia|].
  apply (non_positive_batch_size_requests_nothing (RT := reference.runtime)
           (config_with_batch 0) env0 (Some three_symbols) [failed_response]).
  simpl. lia.
Defined.

End extractors_more_examples.

Section counters.
Import Py models stocks_models extractors.
Context {S Call Item : Type}.
Variable request : Call -> S -> APIResponse * S.
Variable on_success : Call -> pyval -> result (list Item * Z).
Variable on_failure : Call -> Z.

(** Whether the run completes or fails, [processed_items] is the number
    of items accumulated and [failed_items] has only grown. *)
Lemma run_counters env ds (calls : result (list Call)) cl :
  (forall c d new_items n,
      on_success c d = Ok (new_items, n) -> n = Z.of_nat (length new_items)) ->
  (forall c, 0 <= on_failure c) ->
  0 <= processed_items (fst (run request on_success on_failure env ds calls cl)) /\
  0 <= failed_items (fst (run request on_success on_failure env ds calls cl)).
Proof.
  intros Hcount Hpos. unfold run.
  destruct calls as [calls|e]; [|simpl; lia].
  destruct (sub_calls _ _ _ calls _ cl) as [[p cl'] e] eqn:Erun.
  apply (sub_calls_invariant _ _ _ Hcount Hpos) in Erun. simpl in Erun.
  destruct Erun as (H1 & H2 & _).
  destruct e as [e|]; [simpl; lia|].
  destruct (disk_ok env); simpl; lia.
Qed.

End counters.

(* ===================================================================== *)
(** * Further properties of the scheduler                                  *)
(* ===================================================================== *)

Section job_identifiers.
Import Py models stocks_models extractors scheduler.

(** The identifier [create_job] builds tells the data source and the
    second apart, and nothing else. *)
Lemma job_id_eq_iff ds1 ds2 (t1 t2 : Z) :
  DataSourceType_value ds1 +:+ "_" +:+ "extract" +:+ "_" +:+ pretty t1
  = DataSourceType_value ds2 +:+ "_" +:+ "extract" +:+ "_" +:+ pretty t2
  <-> ds1 = ds2 /\ t1 = t2.
Proof.
  split; [|now intros [-> ->]].
  destruct ds1, ds2; simpl; intros H; try discriminate H;
    (split; [reflexivity|]);
    repeat (injection H as H); exact (inj pretty _ _ H).
Qed.

Context `{RT : Runtime} {S : Type} `{CL : Client S}.
Variable config : Config.

Lemma run_immediate_spec env ds cl jobs :
  ds <> STOCK_MODULES ->
  exists j cl',
    run_immediate config env ds cl jobs = Ok (j, cl', store_job j jobs) /\
    job_id j = DataSourceType_value ds +:+ "_" +:+ "extract" +:+ "_"
               +:+ pretty (time_s env).
Proof.
  intros Hds. unfold run_immediate.
  destruct ds; try (now contradiction Hds); eexists _, _;
    (split; [reflexivity|]); apply run_job_id.
Qed.

(** X15. Job identifiers have a resolution of one second. Two immediate runs
    are stored under the same identifier exactly when they are of the same
    data source and start in the same second; the second run then replaces
    the record of the first, which can no longer be looked up. Otherwise
    both records are kept. *)
Theorem immediate_runs_in_one_second_share_a_record
    (env1 env2 : Env) (ds1 ds2 : DataSourceType) (cl : S)
    (jobs : gmap string PipelineJob) :
  ds1 <> STOCK_MODULES -> ds2 <> STOCK_MODULES ->
  exists j1 cl1 jobs1 j2 cl2 jobs2,
    run_immediate config env1 ds1 cl jobs = Ok (j1, cl1, jobs1) /\
    run_immediate config env2 ds2 cl1 jobs1 = Ok (j2, cl2, jobs2) /\
    (job_id j1 = job_id j2 <-> ds1 = ds2 /\ time_s env1 = time_s env2) /\
    get_job_status (job_id j2) jobs2 = Some j2 /\
    (job_id j1 = job_id j2 -> jobs2 = store_job j2 jobs) /\
    (job_id j1 <> job_id j2 -> get_job_status (job_id j1) jobs2 = Some j1).
Proof.
  intros H1 H2.
  destruct (run_immediate_spec env1 ds1 cl jobs H1) as (j1 & cl1 & Hrun1 & Hid1).
  destruct (run_immediate_spec env2 ds2 cl1 (store_job j1 jobs) H2)
    as (j2 & cl2 & Hrun2 & Hid2).
  exists j1, cl1, (store_job j1 jobs), j2, cl2, (store_job j2 (store_job j1 jobs)).
  split; [exact Hrun1|]. split; [exact Hrun2|].
  split; [rewrite Hid1, Hid2; apply job_id_eq_iff|].
  unfold get_job_status, store_job.
  split; [apply lookup_insert_eq|].
  split.
  - intros ->. apply insert_insert_eq.
  - intros Hne. rewrite lookup_insert_ne by congruence. apply lookup_insert_eq.
Qed.

End job_identifiers.

Section cleanup_more.
Import Py models scheduler.

Lemma cleanup_lookup now days jobs jobs' :
  cleanup_old_jobs now days jobs = Ok jobs' ->
  -999999999 <= days <= 999999999 /\
  datetime_min <= now - days * 86400000000 <= datetime_max /\
  forall id,
    jobs' !! id =
    match jobs !! id with
    | Some j => if created_at j <? now - days * 86400000000 then None else Some j
    | None => None
    end.
Proof.
  unfold cleanup_old_jobs, timedelta_days, datetime_sub.
  destruct (Z.leb_spec (-999999999) days); [|discriminate].
  destruct (Z.leb_spec days 999999999); [|discriminate]. simpl.
  destruct (Z.leb_spec datetime_min (now - days * 86400000000)); [|discriminate].
  destruct (Z.leb_spec (now - days * 86400000000) datetime_max); [|discriminate].
  simpl. intros [= <-]. split; [lia|]. split; [lia|]. intros id.
  rewrite fold_delete_lookup.
  destruct (bool_decide_reflect
              (id ∈ List.map fst
                      (List.filter
                         (fun kv => created_at (snd kv) <? now - days * 86400000000)
                         (map_to_list jobs)))) as [Hin|Hout].
  - apply list_elem_of_In, old_jobs_spec in Hin. destruct Hin as (j & -> & Hold).
    now apply Z.ltb_lt in Hold as ->.
  - destruct (jobs !! id) as [j|] eqn:Ej; [|reflexivity].
    destruct (Z.ltb_spec (created_at j) (now - days * 86400000000)); [|reflexivity].
    exfalso. apply Hout, list_elem_of_In, old_jobs_spec. eauto.
Qed.

Lemma cleanup_returns now days jobs :
  -999999999 <= days <= 999999999 ->
  datetime_min <= now - days * 86400000000 <= datetime_max ->
  exists jobs', cleanup_old_jobs now days jobs = Ok jobs'.
Proof.
  intros Hdays Hrange. unfold cleanup_old_jobs, timedelta_days, datetime_sub.
  destruct (Z.leb_spec (-999999999) days); [|lia].
  destruct (Z.leb_spec days 999999999); [|lia]. simpl.
  destruct (Z.leb_spec datetime_min (now - days * 86400000000)); [|lia].
  destruct (Z.leb_spec (now - days * 86400000000) datetime_max); [|lia]. simpl.
  eauto.
Qed.

(** X16. Cleaning an already cleaned store changes nothing, at the same time
    or at an earlier one, or with a retention at least as long: what a
    cleanup keeps, a cleanup with an earlier cutoff keeps too. *)
Theorem cleanup_again_removes_nothing
    (now now2 days days2 : Z) (jobs : gmap string PipelineJob) :
  -999999999 <= days <= 999999999 ->
  datetime_min <= now - days * 86400000000 <= datetime_max ->
  -999999999 <= days2 <= 999999999 ->
  datetime_min <= now2 - days2 * 86400000000 <= now - days * 86400000000 ->
  exists jobs',
    cleanup_old_jobs now days jobs = Ok jobs' /\
    cleanup_old_jobs now2 days2 jobs' = Ok jobs'.
Proof.
  intros Hdays Hrange Hdays2 Hrange2.
  destruct (cleanup_returns now days jobs Hdays Hrange) as (jobs' & Hrun).
  destruct (cleanup_returns now2 days2 jobs' Hdays2) as (jobs'' & Hrun2); [lia|].
  exists jobs'. split; [exact Hrun|]. rewrite Hrun2. f_equal.
  apply cleanup_lookup in Hrun. destruct Hrun as (_ & _ & Hfirst).
  apply cleanup_lookup in Hrun2. destruct Hrun2 as (_ & _ & Hsecond).
  apply map_eq. intros id. rewrite Hsecond, Hfirst.
  destruct (jobs !! id) as [j|]; [|reflexivity].
  destruct (Z.ltb_spec (created_at j) (now - days * 86400000000)); [reflexivity|].
  destruct (Z.ltb_spec (created_at j) (now2 - days2 * 86400000000)); [lia|].
  reflexivity.
Qed.

(** X17. A retention outside what [timedelta] accepts, or one that moves the
    cutoff out of the range of [datetime], makes the cleanup raise
    [OverflowError]; no record is removed. *)
Theorem cleanup_out_of_range_raises
    (now days : Z) (jobs : gmap string PipelineJob) :
  days < -999999999 \/ 999999999 < days \/
  now - days * 86400000000 < datetime_min \/
  datetime_max < now - days * 86400000000 ->
  cleanup_old_jobs now days jobs = Raise OverflowError.
Proof.
  intros Hout. unfold cleanup_old_jobs, timedelta_days, datetime_sub.
  destruct (Z.leb_spec (-999999999) days); [|reflexivity].
  destruct (Z.leb_spec days 999999999); [|reflexivity]. simpl.
  destruct (Z.leb_spec datetime_min (now - days * 86400000000)); [|reflexivity].
  destruct (Z.leb_spec (now - days * 86400000000) datetime_max); [|reflexivity].
  lia.
Qed.

End cleanup_more.

Section ticks.
Import Py models stocks_models extractors scheduler.
Context `{RT : Runtime} {S : Type} `{CL : Client S}.
Variable config : Config.

Lemma execute_schedule_schedule now env s cl jobs :
  fst (fst (_execute_schedule config now env s cl jobs)) = set_last_run now s.
Proof. unfold _execute_schedule. simpl. now destruct (schedule_data_source s). Qed.

(** X18. A check of the schedules at a time at which no enabled schedule is
    due sends no request, stores no job and leaves every schedule as it
    is. *)
Theorem check_without_due_schedule_changes_nothing
    (current_time : wallclock) (world : string -> Z * Env)
    (schedules : list PipelineSchedule) (cl : S) (jobs : gmap string PipelineJob) :
  Forall (fun s => due current_time s = false) schedules ->
  _check_scheduled_jobs config current_time world schedules cl jobs
  = (schedules, cl, jobs).
Proof.
  induction 1 as [|s schedules Hs _ IH]; [reflexivity|].
  cbn [_check_scheduled_jobs]. unfold due in Hs. rewrite IH.
  destruct (enabled s); simpl in *; [|reflexivity]. now rewrite Hs.
Qed.

(** X19. A check runs the schedules that are enabled and due, and only them:
    it returns the schedules in their order, with [last_run] set on those
    that ran and the others untouched. A schedule whose expression is
    none of the five the scheduler knows never runs. *)
Theorem check_runs_exactly_the_due_schedules
    (current_time : wallclock) (world : string -> Z * Env)
    (schedules : list PipelineSchedule) (cl : S) (jobs : gmap string PipelineJob) :
  Forall2
    (fun s s' =>
       s' = (if due current_time s
             then set_last_run (fst (world (schedule_id s))) s else s) /\
       (due current_time s = true ->
        In (cron_expression s)
           ["0 6 * * *"; "*/5 9-16 * * 1-5"; "0 19 * * *";
            "*/15 9-16 * * 1-5"; "*/30 * * * *"]))
    schedules
    (fst (fst (_check_scheduled_jobs config current_time world schedules cl jobs))).
Proof.
  revert cl jobs. induction schedules as [|s schedules IH]; intros cl jobs.
  - constructor.
  - cbn [_check_scheduled_jobs].
    assert (Hknown : _should_run_schedule s current_time = true ->
              In (cron_expression s)
                 ["0 6 * * *"; "*/5 9-16 * * 1-5"; "0 19 * * *";
                  "*/15 9-16 * * 1-5"; "*/30 * * * *"]).
    { unfold _should_run_schedule.
      repeat match goal with
             | |- context [String.eqb ?a ?b] =>
                 destruct (String.eqb_spec a b) as [->|_]; [simpl; tauto|]
             end.
      discriminate. }
    destruct (enabled s) eqn:Een; cbn [negb].
    + destruct (_should_run_schedule s current_time) eqn:Erun.
      * pose proof (execute_schedule_schedule (fst (world (schedule_id s)))
                      (snd (world (schedule_id s))) s cl jobs) as Hs.
        destruct (_execute_schedule _ _ _ s cl jobs) as [[s' cl1] jobs1].
        cbn [fst] in Hs. subst s'.
        specialize (IH cl1 jobs1).
        destruct (_check_scheduled_jobs _ _ _ schedules cl1 jobs1) as [[rest cl'] jobs'].
        cbn [fst] in *. constructor; [|exact IH].
        unfold due. rewrite Een, Erun. split; [reflexivity|]. intros _.
        exact (Hknown eq_refl).
      * specialize (IH cl jobs).
        destruct (_check_scheduled_jobs _ _ _ schedules cl jobs) as [[rest cl'] jobs'].
        cbn [fst] in *. constructor; [|exact IH].
        unfold due. rewrite Een, Erun. split; [reflexivity|discriminate].
    + specialize (IH cl jobs).
      destruct (_check_scheduled_jobs _ _ _ schedules cl jobs) as [[rest cl'] jobs'].
      cbn [fst] in *. constructor; [|exact IH].
      unfold due. rewrite Een. split; [reflexivity|discriminate].
Qed.

(** X20. The two schedules written for the hours 9-16 stop at 15:59: at no
    minute of the hour 16, and at no time of a Saturday or Sunday, is any
    of the default schedules other than the half-hourly news and the two
    daily ones due. *)
Theorem market_hours_schedules_end_before_16 (current_time : wallclock)
    (s : PipelineSchedule) :
  In s default_schedules ->
  hour current_time = 16 \/ 5 <= weekday current_time ->
  due current_time s = true ->
  schedule_data_source s = STOCK_NEWS /\ minute current_time mod 30 = 0 \/
  schedule_data_source s = MARKET_TICKERS /\ hour current_time = 6 \/
  schedule_data_source s = STOCK_HISTORY /\ hour current_time = 19.
Proof.
  intros Hin Hwhen. unfold due.
  simpl in Hin.
  destruct Hin as [<-|[<-|[<-|[<-|[<-|[]]]]]]; cbn; intros Hdue.
  - right; left. split; [reflexivity|]. lia.
  - lia.
  - right; right. split; [reflexivity|]. lia.
  - lia.
  - left. split; [reflexivity|]. lia.
Qed.

End ticks.

Section scheduler_more_examples.
Import Py models stocks_models extractors scheduler samples.

Lemma immediate_runs_in_one_second_share_a_record_witness :
  exists j1 cl1 jobs1 j2 cl2 jobs2,
    run_immediate (RT := reference.runtime) default_config env0 STOCK_NEWS
      [failed_response] ∅ = Ok (j1, cl1, jobs1) /\
    run_immediate (RT := reference.runtime) default_config env0 STOCK_NEWS
      cl1 jobs1 = Ok (j2, cl2, jobs2) /\
    (job_id j1 = job_id j2 <-> STOCK_NEWS = STOCK_NEWS /\ time_s env0 = time_s env0) /\
    get_job_status (job_id j2) jobs2 = Some j2 /\
    (job_id j1 = job_id j2 -> jobs2 = store_job j2 ∅) /\
    (job_id j1 <> job_id j2 -> get_job_status (job_id j1) jobs2 = Some j1).
Proof.
  apply (immediate_runs_in_one_second_share_a_record (RT := reference.runtime)
           default_config env0 env0 STOCK_NEWS STOCK_NEWS [failed_response] ∅);
    discriminate.
Defined.

Lemma cleanup_again_removes_nothing_witness :
  exists jobs',
    cleanup_old_jobs (100 * day) 7 store_with_running_job = Ok jobs' /\
    cleanup_old_jobs (99 * day) 30 jobs' = Ok jobs'.
Proof.
  apply (cleanup_again_removes_nothing (100 * day) (99 * day) 7 30
           store_with_running_job).
  - lia.
  - vm_compute; split; discriminate.
  - lia.
  - vm_compute; split; discriminate.
Defined.

Lemma cleanup_out_of_range_raises_witness :
  cleanup_old_jobs (100 * day) 800000 store_with_running_job = Raise OverflowError.
Proof.
  apply (cleanup_out_of_range_raises (100 * day) 800000 store_with_running_job).
  right; right; left. vm_compute. reflexivity.
Defined.

Lemma check_without_due_schedule_changes_nothing_witness :
  _check_scheduled_jobs (RT := reference.runtime) default_config
    monday_16_05 world0 default_schedules [ok_response (news_payload 1)] ∅
  = (default_schedules, [ok_response (news_payload 1)], ∅).
Proof.
  apply (check_without_due_schedule_changes_nothing (RT := reference.runtime)
           default_config monday_16_05 world0 default_schedules
           [ok_response (news_payload 1)] ∅).
  repeat constructor.
Defined.

Lemma market_hours_schedules_end_before_16_witness :
  schedule_data_source stock_news_frequent = STOCK_NEWS /\
  minute monday_16_30 mod 30 = 0 \/
  schedule_data_source stock_news_frequent = MARKET_TICKERS /\
  hour monday_16_30 = 6 \/
  schedule_data_source stock_news_frequent = STOCK_HISTORY /\
  hour monday_16_30 = 19.
Proof.
  apply (market_hours_schedules_end_before_16 monday_16_30 stock_news_frequent).
  - simpl. tauto.
  - left. reflexivity.
  - reflexivity.
Defined.

(** At 16:30 on a Monday only the news schedule runs: its [last_run] is
    set and one job is stored. *)
Example check_on_monday_16_30 :
  let '(schedules, _, jobs) :=
    _check_scheduled_jobs (RT := reference.runtime) default_config
      monday_16_30 world0 default_schedules [] ∅ in
  List.map last_run schedules = [None; None; None; None; Some (utcnow env0)] /\
  size jobs = 1%nat.
Proof. vm_compute. split; reflexivity. Qed.

End scheduler_more_examples.

(* ===================================================================== *)
(** * Further properties of the monitor                                    *)
(* ===================================================================== *)

Section alert_store_more.
Import Py models monitoring.

Lemma store_alerts_snoc l x store :
  store_alerts (l ++ [x]) store = <[alert_id x := x]> (store_alerts l store).
Proof. rewrite store_alerts_app. reflexivity. Qed.

(** Under the identifier of an alert of the list, the store holds an alert
    of the list with that identifier. *)
Lemma store_alerts_holds l : forall store a,
  In a l ->
  exists b, In b l /\ alert_id b = alert_id a /\
            store_alerts l store !! alert_id a = Some b.
Proof.
  induction l as [|x l IH] using rev_ind; intros store a Hin; [destruct Hin|].
  rewrite store_alerts_snoc.
  destruct (decide (alert_id x = alert_id a)) as [Heq|Hne].
  - exists x. split; [apply in_or_app; right; now left|].
    split; [exact Heq|]. rewrite <- Heq. apply lookup_insert_eq.
  - apply in_app_or in Hin. destruct Hin as [Hin|[->|[]]]; [|congruence].
    destruct (IH store a Hin) as (b & Hb & Hid & Hlook).
    exists b. split; [apply in_or_app; now left|]. split; [exact Hid|].
    rewrite lookup_insert_ne by exact Hne. exact Hlook.
Qed.

Lemma check_alert_kind now check a :
  check_alert now check = Some a ->
  alert_type a = "error" /\ severity a = "high" \/
  alert_type a = "warning" /\ severity a = "medium".
Proof.
  unfold check_alert. destruct (check_status check); intros [= <-]; simpl; auto.
Qed.

Lemma check_alerts_kind clock checks : forall alerts,
  Forall (fun a => alert_type a = "error" /\ severity a = "high" \/
                   alert_type a = "warning" /\ severity a = "medium") alerts ->
  Forall (fun a => alert_type a = "error" /\ severity a = "high" \/
                   alert_type a = "warning" /\ severity a = "medium")
         (check_alerts clock checks alerts).
Proof.
  induction checks as [|check checks IH]; intros alerts Hacc; simpl; [exact Hacc|].
  destruct (check_alert (clock (length alerts)) check) as [a0|] eqn:Ea; [|now apply IH].
  apply IH. apply Forall_app. split; [exact Hacc|].
  constructor; [|constructor]. eapply check_alert_kind; eassumption.
Qed.

Context `{RT : Runtime}.

Lemma monitor_store clock quality_checks store :
  snd (monitor_data_quality clock quality_checks store)
  = store_alerts (fst (monitor_data_quality clock quality_checks store)) store.
Proof. reflexivity. Qed.

Lemma monitor_alert_ids clock quality_checks store i a :
  fst (monitor_data_quality clock quality_checks store) !! i = Some a ->
  alert_id a = alert_type a +:+ "_" +:+ pretty (clock i).
Proof.
  unfold monitor_data_quality. cbn [fst].
  set (first_loop := check_alerts clock quality_checks []).
  assert (H1 : forall i a, first_loop !! i = Some a ->
                 alert_id a = alert_type a +:+ "_" +:+ pretty (clock i)).
  { apply check_alerts_ids. intros j b Hj. rewrite lookup_nil in Hj. discriminate. }
  destruct (PrimFloat.ltb _ _); [|apply H1].
  intros Hi. apply lookup_app_Some in Hi.
  destruct Hi as [Hl|[Hge Hr]]; [now apply H1|].
  destruct (i - length first_loop)%nat eqn:Ei; [|discriminate Hr].
  injection Hr as <-. assert (i = length first_loop) as -> by lia. reflexivity.
Qed.

Lemma monitor_alert_kinds clock quality_checks store :
  Forall (fun a => alert_type a = "error" /\ severity a = "high" \/
                   alert_type a = "warning" /\ severity a = "medium")
         (fst (monitor_data_quality clock quality_checks store)).
Proof.
  unfold monitor_data_quality. cbn [fst].
  set (first_loop := check_alerts clock quality_checks []).
  assert (H1 : Forall (fun a => alert_type a = "error" /\ severity a = "high" \/
                                alert_type a = "warning" /\ severity a = "medium")
                 first_loop).
  { apply check_alerts_kind. constructor. }
  destruct (PrimFloat.ltb _ _); [|exact H1].
  apply Forall_app. split; [exact H1|].
  constructor; [|constructor]. right. split; reflexivity.
Qed.

(** X21. What a call of [monitor_data_quality] does to the store of alerts.
    Entries under identifiers that none of the returned alerts carries
    are kept as they are, so alerts of earlier calls survive unless a new
    alert reuses their identifier; under the identifier of a returned
    alert the store holds one of the returned alerts; the returned alerts
    are errors of high severity or warnings of medium severity. *)
Theorem alert_store_after_monitoring
    (clock : nat -> Z) (quality_checks : list DataQualityCheck)
    (store : gmap string Alert) :
  let '(alerts, store') := monitor_data_quality clock quality_checks store in
  (forall id, (forall a, In a alerts -> alert_id a <> id) ->
              store' !! id = store !! id) /\
  (forall a, In a alerts ->
             exists b, In b alerts /\ alert_id b = alert_id a /\
                       store' !! alert_id a = Some b) /\
  Forall (fun a => alert_type a = "error" /\ severity a = "high" \/
                   alert_type a = "warning" /\ severity a = "medium") alerts.
Proof.
  pose proof (monitor_store clock quality_checks store) as Hstore.
  pose proof (monitor_alert_kinds clock quality_checks store) as Hkinds.
  destruct (monitor_data_quality clock quality_checks store) as [alerts store'].
  cbn [fst snd] in *. subst store'.
  split; [|split; [|exact Hkinds]].
  - intros id Hid. now apply store_alerts_other.
  - intros a Ha. now apply store_alerts_holds.
Qed.

(** X22. When all the alerts of a call are built within one second, the call
    changes at most the two entries [error_<second>] and
    [warning_<second>] of the store, however many checks were flagged. *)
Theorem one_second_of_alerts_changes_two_entries
    (clock : nat -> Z) (now : Z) (quality_checks : list DataQualityCheck)
    (store : gmap string Alert) (id : string) :
  (forall i, clock i = now) ->
  id <> "error_" +:+ pretty now -> id <> "warning_" +:+ pretty now ->
  snd (monitor_data_quality clock quality_checks store) !! id = store !! id.
Proof.
  intros Hclock Herr Hwarn. rewrite monitor_store.
  pose proof (monitor_alert_kinds clock quality_checks store) as Hkinds.
  apply store_alerts_other. intros a Ha Hid.
  apply list_elem_of_In in Ha.
  rewrite Forall_forall in Hkinds. specialize (Hkinds a Ha).
  apply list_elem_of_lookup_1 in Ha. destruct Ha as (i & Hi).
  apply monitor_alert_ids in Hi. rewrite Hclock in Hi.
  destruct Hkinds as [[Ht _]|[Ht _]]; rewrite Ht in Hi;
    [apply Herr|apply Hwarn]; rewrite <- Hid, Hi; reflexivity.
Qed.

End alert_store_more.

Section metrics.
Import Py models stocks_models extractors monitoring.

(** X23. [collect_metrics] on a job whose failure counter is not negative
    returns, records the counters of the job, sets the score exactly when
    something was processed, and keeps the newest 1000 entries of the
    list, the new one last. *)
Theorem collect_metrics_keeps_the_newest_1000
    (job : PipelineJob) (metrics : list PipelineMetrics) :
  0 <= failed_items job ->
  exists m metrics',
    collect_metrics job metrics = Some (m, metrics') /\
    metrics_job_id m = job_id job /\
    records_processed m = processed_items job /\
    records_failed m = failed_items job /\
    (data_quality_score m = None <-> processed_items job <= 0) /\
    metrics' = drop (length metrics + 1 - 1000) (metrics ++ [m]) /\
    length metrics' = Nat.min (length metrics + 1) 1000 /\
    last metrics' = Some m.
Proof.
  intros Hfailed. unfold collect_metrics.
  set (score := if 0 <? processed_items job then _ else _).
  assert (Hscore : exists sc, score = Some sc /\
                     (sc = None <-> processed_items job <= 0)).
  { unfold score. destruct (Z.ltb_spec 0 (processed_items job)).
    - destruct (Z.eqb_spec (processed_items job + failed_items job) 0); [lia|].
      eexists. split; [reflexivity|]. split; [discriminate|lia].
    - eexists. split; [reflexivity|]. split; [lia|reflexivity]. }
  destruct Hscore as (sc & -> & Hsc).
  set (m := {| metrics_job_id := job_id job;
               metrics_data_source := data_source job;
               records_processed := processed_items job;
               records_failed := failed_items job;
               data_quality_score := sc |}).
  eexists m, _. split; [reflexivity|].
  split; [reflexivity|]. split; [reflexivity|]. split; [reflexivity|].
  split; [exact Hsc|].
  rewrite length_app. cbn [length].
  assert (Hdrop : (if (1000 <? length metrics + 1)%nat
                   then drop (length metrics + 1 - 1000) (metrics ++ [m])
                   else metrics ++ [m])
                  = drop (length metrics + 1 - 1000) (metrics ++ [m])).
  { destruct (Nat.ltb_spec 1000 (length metrics + 1)); [reflexivity|].
    replace (length metrics + 1 - 1000)%nat with 0%nat by lia. reflexivity. }
  rewrite Hdrop. split; [reflexivity|].
  split.
  - rewrite length_drop, length_app. cbn [length]. lia.
  - rewrite drop_app_le by lia. apply last_snoc.
Qed.

Context `{RT : Runtime} {S : Type} `{CL : Client S}.
Variable config : Config.

(** X24. The counters of a job handed back by an extractor are never negative,
    completed or failed, so its metrics can always be collected: the
    quotient of the score has a positive divisor. *)
Theorem metrics_of_extractor_jobs_are_collected (env : Env) (cl : S)
    (pages : option Z) (types symbols intervals lists : option (list string))
    (metrics : list PipelineMetrics) :
  Forall (fun j => 0 <= processed_items j /\ 0 <= failed_items j /\
                   is_Some (collect_metrics j metrics))
    [fst (MarketTickersExtractor_extract config env pages types cl);
     fst (StockQuotesExtractor_extract config env symbols cl);
     fst (StockHistoryExtractor_extract config env symbols intervals cl);
     fst (MarketScreenerExtractor_extract config env lists cl);
     fst (StockNewsExtractor_extract config env symbols cl)].
Proof.
  assert (Hcollect : forall j, 0 <= processed_items j /\ 0 <= failed_items j ->
            0 <= processed_items j /\ 0 <= failed_items j /\
            is_Some (collect_metrics j metrics)).
  { intros j [Hp Hf]. split; [exact Hp|]. split; [exact Hf|].
    unfold collect_metrics.
    destruct (Z.ltb_spec 0 (processed_items j)); [|eauto].
    destruct (Z.eqb_spec (processed_items j + failed_items j) 0); [lia|eauto]. }
  repeat constructor; apply Hcollect; apply run_counters;
    first [ apply tickers_on_success_count | apply quotes_on_success_count
          | apply history_on_success_count | apply screener_on_success_count
          | apply news_on_success_count
          | intros c; unfold quotes_on_failure; lia ].
Qed.

End metrics.

Section monitor_more_examples.
Import Py models monitoring samples.

Lemma one_second_of_alerts_changes_two_entries_witness :
  snd (monitor_data_quality (RT := reference.runtime) same_second
         two_error_checks ∅) !! "error_1699999999"
  = (∅ : gmap string Alert) !! "error_1699999999".
Proof.
  apply (one_second_of_alerts_changes_two_entries (RT := reference.runtime)
           same_second 1700000000 two_error_checks ∅ "error_1699999999").
  - intros i. reflexivity.
  - vm_compute. discriminate.
  - vm_compute. discriminate.
Defined.

Lemma collect_metrics_keeps_the_newest_1000_witness :
  exists m metrics',
    collect_metrics (job_at "stock_quotes_extract_3" COMPLETED (99 * day)) []
    = Some (m, metrics') /\
    metrics_job_id m = job_id (job_at "stock_quotes_extract_3" COMPLETED (99 * day)) /\
    records_processed m
    = processed_items (job_at "stock_quotes_extract_3" COMPLETED (99 * day)) /\
    records_failed m
    = failed_items (job_at "stock_quotes_extract_3" COMPLETED (99 * day)) /\
    (data_quality_score m = None
     <-> processed_items (job_at "stock_quotes_extract_3" COMPLETED (99 * day)) <= 0) /\
    metrics' = drop (length (@nil PipelineMetrics) + 1 - 1000) ([] ++ [m]) /\
    length metrics' = Nat.min (length (@nil PipelineMetrics) + 1) 1000 /\
    last metrics' = Some m.
Proof.
  apply (collect_metrics_keeps_the_newest_1000
           (job_at "stock_quotes_extract_3" COMPLETED (99 * day)) []).
  vm_compute. discriminate.
Defined.

End monitor_more_examples.

(* ===================================================================== *)
(** * Further properties of the transformers                               *)
(* ===================================================================== *)

(** Case analysis on the first decision the goal shows. *)
Ltac split_decide :=
  match goal with
  | |- context [decide ?P] => destruct (decide P)
  end.

Section cleaner_more.
Import Py models transformers.
Context `{RT : Runtime}.

Lemma keep_cleaned_stock stock :
  exists c, _clean_stock_record stock = Some c /\
            keep (_clean_stock_record stock) = [c].
Proof.
  destruct (clean_stock_record_lookup stock) as (c & Hc & Hlook).
  exists c. split; [exact Hc|]. rewrite Hc. cbn [keep].
  assert (Hcur : is_Some (c !! "currency")).
  { rewrite Hlook. split_decide; [eauto|congruence]. }
  destruct Hcur as (cur & Hcur). now rewrite (nonempty_size _ _ _ Hcur).
Qed.

(** X25. [clean_stock_data] drops no record. Each input record gives one
    cleaned record, in order: its symbol, name and market cap are
    normalised, its currency is the one it had or USD, no other field
    holds [None], and every other field that is not [None] is kept as it
    is. *)
Theorem stock_cleaning_keeps_every_record (stocks : list record) :
  length (clean_stock_data stocks) = length stocks /\
  Forall2
    (fun stock c =>
       _clean_stock_record stock = Some c /\ stock_shape c /\
       c !! "currency"
       = Some (match stock !! "currency" with
               | Some PNone | None => PStr "USD"
               | Some v => v
               end) /\
       forall j, ~ In j ["symbol"; "name"; "market_cap"; "currency"] ->
                 c !! j = without_none stock !! j)
    stocks (clean_stock_data stocks).
Proof.
  assert (H2 : Forall2
    (fun stock c =>
       _clean_stock_record stock = Some c /\ stock_shape c /\
       c !! "currency"
       = Some (match stock !! "currency" with
               | Some PNone | None => PStr "USD"
               | Some v => v
               end) /\
       forall j, ~ In j ["symbol"; "name"; "market_cap"; "currency"] ->
                 c !! j = without_none stock !! j)
    stocks (clean_stock_data stocks)).
  { induction stocks as [|stock stocks IH]; [constructor|].
    unfold clean_stock_data in *.
    change (flat_map (fun stock => keep (_clean_stock_record stock)) (stock :: stocks))
      with (keep (_clean_stock_record stock)
            ++ flat_map (fun stock => keep (_clean_stock_record stock)) stocks).
    destruct (keep_cleaned_stock stock) as (c & Hc & ->).
    constructor; [|exact IH].
    split; [exact Hc|]. split; [now apply (clean_stock_record_shape stock)|].
    destruct (clean_stock_record_lookup stock) as (c' & Hc' & Hlook).
    rewrite Hc in Hc'. injection Hc' as <-.
    split.
    - rewrite Hlook. split_decide; [|congruence]. f_equal.
      rewrite without_none_lookup.
      destruct (stock !! "currency") as [[]|]; reflexivity.
    - intros j Hj. rewrite Hlook. simpl in Hj.
      repeat (split_decide; [subst j; tauto|]). reflexivity. }
  split; [|exact H2]. symmetry. eapply Forall2_length. exact H2.
Qed.

Lemma parse_numeric_raise v e :
  _parse_numeric v = Raise e <-> exists z, v = PInt z /\ float_of_int z = Raise e.
Proof.
  split.
  - destruct v; simpl; try discriminate.
    + destruct (float_of_int z) eqn:Ez; simpl; [discriminate|].
      intros [= <-]. eauto.
    + destruct (float_of_str _); discriminate.
  - intros (z & -> & Hz). simpl. now rewrite Hz.
Qed.

Lemma float_of_int_raise z e : float_of_int z = Raise e -> e = OverflowError.
Proof.
  unfold float_of_int. destruct (PrimFloat.is_infinity _); [|discriminate].
  now intros [= <-].
Qed.

(** The loop over the numeric fields raises only at a field whose value
    does. *)
Lemma clean_numeric_raise_inv fields : forall m e,
  clean_numeric fields m = Raise e ->
  exists k v, In k fields /\ m !! k = Some v /\ _parse_numeric v = Raise e.
Proof.
  induction fields as [|f fields IH]; intros m e; simpl; [discriminate|].
  destruct (m !! f) as [v0|] eqn:Ef.
  - destruct (_parse_numeric v0) as [v0'|e0] eqn:Ep; simpl.
    + intros Hrec. destruct (IH _ _ Hrec) as (k & v & Hk & Hv & Hraise).
      destruct (decide (k = f)) as [->|Hne].
      * rewrite lookup_insert_eq in Hv. injection Hv as <-.
        apply parse_numeric_shape in Ep.
        destruct Ep as [->|(x & ->)]; discriminate Hraise.
      * rewrite lookup_insert_ne in Hv by congruence. eauto 6.
    + intros [= <-]. eauto 6.
  - intros Hrec. destruct (IH _ _ Hrec) as (k & v & Hk & Hv & Hraise). eauto 6.
Qed.

Lemma clean_numeric_raise fields : forall m k v e,
  In k fields -> m !! k = Some v -> _parse_numeric v = Raise e ->
  exists e', clean_numeric fields m = Raise e'.
Proof.
  induction fields as [|f fields IH]; intros m k v e Hk Hv Hraise; [destruct Hk|].
  simpl. destruct (m !! f) as [v0|] eqn:Ef.
  - destruct (_parse_numeric v0) as [v0'|e0] eqn:Ep; simpl; [|eauto].
    destruct (decide (k = f)) as [->|Hne]; [congruence|].
    destruct Hk as [->|Hk]; [congruence|].
    apply (IH _ k v e Hk); [|exact Hraise].
    now rewrite lookup_insert_ne by congruence.
  - destruct Hk as [->|Hk]; [congruence|]. now apply (IH m k v e).
Qed.

Lemma keep_cleaned_quote quote c :
  _clean_quote_record quote = Some c -> keep (Some c) = [c].
Proof.
  intros Hc. apply clean_quote_record_shape in Hc.
  destruct Hc as (_ & _ & _ & (cur & Hcur)).
  cbn [keep]. now rewrite (nonempty_size _ _ _ Hcur).
Qed.

(** X26. [clean_quote_data] drops a record in one case only: a numeric field
    holds an integer too large for a float, whose [OverflowError]
    [_parse_numeric] does not catch. Every other record is cleaned and
    kept, in order. *)
Theorem quote_record_dropped_iff_integer_overflows
    (quotes : list record) (quote : record) :
  (_clean_quote_record quote = None <->
   exists k z, In k numeric_fields /\ quote !! k = Some (PInt z) /\
               float_of_int z = Raise OverflowError) /\
  (forall c, In c (clean_quote_data quotes) <->
             exists q, In q quotes /\ _clean_quote_record q = Some c) /\
  (length (clean_quote_data quotes) <= length quotes)%nat.
Proof.
  split; [|split].
  - unfold _clean_quote_record.
    set (c0 := without_none quote).
    set (c1 := match c0 !! "symbol" with
               | Some v => <["symbol" := PStr (upper (strip (str v)))]> c0
               | None => c0
               end).
    assert (Hc1 : forall k, In k numeric_fields -> c1 !! k = without_none quote !! k).
    { intros k Hk. unfold c1. destruct (c0 !! "symbol"); [|reflexivity].
      apply lookup_insert_ne. intros <-. now apply symbol_not_numeric. }
    split.
    + destruct (clean_numeric numeric_fields c1) as [c2|e] eqn:Enum; [discriminate|].
      intros _. apply clean_numeric_raise_inv in Enum.
      destruct Enum as (k & v & Hk & Hv & Hraise).
      apply parse_numeric_raise in Hraise. destruct Hraise as (z & -> & Hz).
      pose proof (float_of_int_raise _ _ Hz) as ->.
      exists k, z. split; [exact Hk|]. split; [|exact Hz].
      rewrite (Hc1 k Hk), without_none_lookup in Hv.
      destruct (quote !! k) as [[]|]; congruence.
    + intros (k & z & Hk & Hq & Hz).
      assert (Hv : c1 !! k = Some (PInt z)).
      { rewrite (Hc1 k Hk), without_none_lookup, Hq. reflexivity. }
      destruct (clean_numeric_raise numeric_fields c1 k (PInt z) OverflowError Hk Hv)
        as (e' & ->); [|reflexivity].
      apply parse_numeric_raise. eauto.
  - intros c. unfold clean_quote_data. rewrite in_flat_map. split.
    + intros (q & Hq & Hc). exists q. split; [exact Hq|].
      destruct (_clean_quote_record q) as [c'|] eqn:Ec; [|destruct Hc].
      rewrite (keep_cleaned_quote _ _ Ec) in Hc. destruct Hc as [->|[]]. reflexivity.
    + intros (q & Hq & Hc). exists q. split; [exact Hq|].
      rewrite Hc, (keep_cleaned_quote _ _ Hc). now left.
  - unfold clean_quote_data. induction quotes as [|q quotes IH]; [reflexivity|].
    change (flat_map (fun quote => keep (_clean_quote_record quote)) (q :: quotes))
      with (keep (_clean_quote_record q)
            ++ flat_map (fun quote => keep (_clean_quote_record quote)) quotes).
    rewrite length_app. cbn [length].
    assert (length (keep (_clean_quote_record q)) <= 1)%nat; [|lia].
    destruct (_clean_quote_record q) as [c|]; cbn [keep]; [|simpl; lia].
    destruct (size c =? 0)%nat; simpl; lia.
Qed.

End cleaner_more.

Section enricher.
Import Py models transformers.

Lemma ge_int_number v n :
  match ge_int v n with
  | Ok _ => number v = true
  | Raise e => e = TypeError /\ number v = false
  end.
Proof. destruct v; simpl; auto. Qed.

Lemma categorize_market_cap_outcome v :
  match _categorize_market_cap v with
  | Ok c => number v = true /\
            In c ["Mega Cap"; "Large Cap"; "Mid Cap"; "Small Cap"; "Micro Cap"]
  | Raise e => e = TypeError /\ number v = false
  end.
Proof.
  unfold _categorize_market_cap.
  destruct v; simpl; auto;
    repeat match goal with
           | |- context [if ?b then _ else _] => destruct b; simpl
           end; split; auto; tauto.
Qed.

Lemma categorize_sector_outcome v :
  match _categorize_sector v with
  | Ok c => scalar v = true /\ In c ["Growth"; "Defensive"; "Cyclical"; "Other"]
  | Raise e => e = TypeError /\ scalar v = false
  end.
Proof.
  assert (Hmap : forall s,
            In (match List.find (fun kv => String.eqb (fst kv) s) sector_mapping with
                | Some kv => snd kv
                | None => "Other"
                end) ["Growth"; "Defensive"; "Cyclical"; "Other"]).
  { intros s. unfold sector_mapping. cbn [List.find fst snd].
    repeat match goal with
           | |- context [String.eqb ?a s] =>
               destruct (String.eqb a s);
               [cbn [snd In]; repeat (first [left; reflexivity | right])|]
           end.
    cbn [In]. repeat (first [left; reflexivity | right]). }
  destruct v; cbn [_categorize_sector scalar]; auto;
    try (split; [reflexivity|];
         cbn [In]; repeat (first [left; reflexivity | right])).
Qed.

Lemma add_category_outcome key categorize (m : record) :
  match add_category key categorize m with
  | Ok e =>
      (forall k, k <> key +:+ "_category" -> e !! k = m !! k) /\
      (forall v, m !! key = Some v -> truthy v = true ->
                 exists c, categorize v = Ok c /\
                           e !! (key +:+ "_category") = Some (PStr c))
  | Raise ex =>
      exists v, m !! key = Some v /\ truthy v = true /\ categorize v = Raise ex
  end.
Proof.
  unfold add_category. destruct (m !! key) as [v|] eqn:Ev.
  - destruct (truthy v) eqn:Et.
    + destruct (categorize v) as [c|ex] eqn:Ec; simpl.
      * split.
        -- intros k Hk. now rewrite lookup_insert_ne by congruence.
        -- intros v' [= <-] _. exists c. split; [exact Ec|]. apply lookup_insert_eq.
      * eauto.
    + split; [reflexivity|]. intros v' [= <-]. congruence.
  - split; [reflexivity|]. discriminate.
Qed.

Lemma enrich_stock_record_outcome (now : string) (stock : record) :
  match _enrich_stock_record now stock with
  | Ok e =>
      (forall k, ~ In k enrichment_keys -> e !! k = stock !! k) /\
      e !! "enriched_at" = Some (PStr now) /\
      e !! "data_quality_score" = Some (PFloat (_calculate_data_quality_score stock)) /\
      (forall v, stock !! "market_cap" = Some v -> truthy v = true -> number v = true) /\
      (forall v, stock !! "sector" = Some v -> truthy v = true -> scalar v = true)
  | Raise ex =>
      ex = TypeError /\
      ((exists v, stock !! "market_cap" = Some v /\ truthy v = true /\ number v = false) \/
       (exists v, stock !! "sector" = Some v /\ truthy v = true /\ scalar v = false))
  end.
Proof.
  unfold _enrich_stock_record. cbv zeta.
  pose proof (add_category_outcome "market_cap" _categorize_market_cap stock) as Hcap.
  destruct (add_category "market_cap" _categorize_market_cap stock) as [e1|ex] eqn:E1;
    simpl.
  - destruct Hcap as (Hkeep1 & Hcap).
    pose proof (add_category_outcome "sector" _categorize_sector e1) as Hsec.
    destruct (add_category "sector" _categorize_sector e1) as [e2|ex] eqn:E2; simpl.
    + destruct Hsec as (Hkeep2 & Hsec).
      split; [|split; [|split; [|split]]].
      * intros k Hk. unfold enrichment_keys in Hk. simpl in Hk.
        rewrite !lookup_insert_ne by (intros <-; tauto).
        rewrite Hkeep2 by (simpl; intros ->; tauto).
        apply Hkeep1. simpl. intros ->; tauto.
      * apply lookup_insert_eq.
      * rewrite lookup_insert_ne by discriminate. apply lookup_insert_eq.
      * intros v Hv Ht. destruct (Hcap v Hv Ht) as (c & Hc & _).
        pose proof (categorize_market_cap_outcome v) as Hout.
        rewrite Hc in Hout. tauto.
      * intros v Hv Ht. rewrite <- Hkeep1 in Hv by discriminate.
        destruct (Hsec v Hv Ht) as (c & Hc & _).
        pose proof (categorize_sector_outcome v) as Hout.
        rewrite Hc in Hout. tauto.
    + destruct Hsec as (v & Hv & Ht & Hc).
      pose proof (categorize_sector_outcome v) as Hout. rewrite Hc in Hout.
      destruct Hout as [-> Hsc]. split; [reflexivity|]. right.
      rewrite Hkeep1 in Hv by discriminate. eauto.
  - destruct Hcap as (v & Hv & Ht & Hc).
    pose proof (categorize_market_cap_outcome v) as Hout. rewrite Hc in Hout.
    destruct Hout as [-> Hn]. split; [reflexivity|]. left. eauto.
Qed.

(** X27. The outcome of [_enrich_stock_record]. When it returns, every field
    of the record is kept, the four enrichment keys apart, the timestamp
    and the quality score of the input are set, a truthy market cap is a
    number and has got one of the five size categories, and a truthy
    sector has got one of the four sector categories. It raises only
    [TypeError], and only for a truthy market cap that is not a number or
    a truthy sector that is a list or a dict. *)
Theorem enrichment_keeps_fields_or_raises_type_error (now : string) (stock : record) :
  match _enrich_stock_record now stock with
  | Ok e =>
      (forall k, ~ In k enrichment_keys -> e !! k = stock !! k) /\
      e !! "enriched_at" = Some (PStr now) /\
      e !! "data_quality_score" = Some (PFloat (_calculate_data_quality_score stock)) /\
      (forall v, stock !! "market_cap" = Some v -> truthy v = true ->
         number v = true /\
         exists c, e !! "market_cap_category" = Some (PStr c) /\
                   In c ["Mega Cap"; "Large Cap"; "Mid Cap"; "Small Cap"; "Micro Cap"]) /\
      (forall v, stock !! "sector" = Some v -> truthy v = true ->
         scalar v = true /\
         exists c, e !! "sector_category" = Some (PStr c) /\
                   In c ["Growth"; "Defensive"; "Cyclical"; "Other"])
  | Raise ex =>
      ex = TypeError /\
      ((exists v, stock !! "market_cap" = Some v /\ truthy v = true /\ number v = false) \/
       (exists v, stock !! "sector" = Some v /\ truthy v = true /\ scalar v = false))
  end.
Proof.
  unfold _enrich_stock_record. cbv zeta.
  pose proof (add_category_outcome "market_cap" _categorize_market_cap stock) as Hcap.
  destruct (add_category "market_cap" _categorize_market_cap stock) as [e1|ex] eqn:E1;
    simpl.
  - destruct Hcap as (Hkeep1 & Hcap).
    pose proof (add_category_outcome "sector" _categorize_sector e1) as Hsec.
    destruct (add_category "sector" _categorize_sector e1) as [e2|ex] eqn:E2; simpl.
    + destruct Hsec as (Hkeep2 & Hsec).
      split; [|split; [|split; [|split]]].
      * intros k Hk. unfold enrichment_keys in Hk. simpl in Hk.
        rewrite !lookup_insert_ne by (intros <-; tauto).
        rewrite Hkeep2 by (simpl; intros ->; tauto).
        apply Hkeep1. simpl. intros ->; tauto.
      * apply lookup_insert_eq.
      * rewrite lookup_insert_ne by discriminate. apply lookup_insert_eq.
      * intros v Hv Ht. destruct (Hcap v Hv Ht) as (c & Hc & Hlook).
        pose proof (categorize_market_cap_outcome v) as Hout.
        rewrite Hc in Hout. destruct Hout as [Hn Hin]. split; [exact Hn|].
        exists c. split; [|exact Hin].
        rewrite !lookup_insert_ne by discriminate.
        rewrite Hkeep2 by discriminate. exact Hlook.
      * intros v Hv Ht. rewrite <- Hkeep1 in Hv by discriminate.
        destruct (Hsec v Hv Ht) as (c & Hc & Hlook).
        pose proof (categorize_sector_outcome v) as Hout.
        rewrite Hc in Hout. destruct Hout as [Hsc Hin]. split; [exact Hsc|].
        exists c. split; [|exact Hin].
        rewrite !lookup_insert_ne by discriminate. exact Hlook.
    + destruct Hsec as (v & Hv & Ht & Hc).
      pose proof (categorize_sector_outcome v) as Hout. rewrite Hc in Hout.
      destruct Hout as [-> Hsc]. split; [reflexivity|]. right.
      rewrite Hkeep1 in Hv by discriminate. eauto.
  - destruct Hcap as (v & Hv & Ht & Hc).
    pose proof (categorize_market_cap_outcome v) as Hout. rewrite Hc in Hout.
    destruct Hout as [-> Hn]. split; [reflexivity|]. left. eauto.
Qed.

Lemma enrich_stock_record_returns now (c : record) :
  (forall v, c !! "market_cap" = Some v -> truthy v = true -> number v = true) ->
  (forall v, c !! "sector" = Some v -> truthy v = true -> scalar v = true) ->
  exists e, _enrich_stock_record now c = Ok e /\
            forall k, ~ In k enrichment_keys -> e !! k = c !! k.
Proof.
  intros Hcap Hsec. pose proof (enrich_stock_record_outcome now c) as Hout.
  destruct (_enrich_stock_record now c) as [e|ex].
  - exists e. split; [reflexivity|]. apply Hout.
  - exfalso. destruct Hout as (_ & [(v & Hv & Ht & Hn)|(v & Hv & Ht & Hn)]).
    + rewrite (Hcap v Hv Ht) in Hn. discriminate.
    + rewrite (Hsec v Hv Ht) in Hn. discriminate.
Qed.

Lemma enrich_stock_data_raises clock stocks : forall first e,
  enrich_stock_data clock first stocks = Raise e -> e = TypeError.
Proof.
  induction stocks as [|stock stocks IH]; intros first e; simpl; [discriminate|].
  pose proof (enrich_stock_record_outcome (clock first) stock) as Hout.
  destruct (_enrich_stock_record (clock first) stock) as [x|ex]; simpl.
  - destruct (enrich_stock_data clock (Datatypes.S first) stocks) as [xs|ex] eqn:Erec;
      simpl; [discriminate|].
    intros [= <-]. eapply IH. exact Erec.
  - intros [= <-]. apply Hout.
Qed.

Lemma enrich_stock_data_keeps clock stocks : forall first enriched,
  enrich_stock_data clock first stocks = Ok enriched ->
  Forall2 (fun c e => forall k, ~ In k enrichment_keys -> e !! k = c !! k)
          stocks enriched.
Proof.
  induction stocks as [|stock stocks IH]; intros first enriched; simpl.
  - intros [= <-]. constructor.
  - pose proof (enrich_stock_record_outcome (clock first) stock) as Hout.
    destruct (_enrich_stock_record (clock first) stock) as [x|ex]; simpl; [|discriminate].
    destruct (enrich_stock_data clock (Datatypes.S first) stocks) as [xs|ex] eqn:Erec;
      simpl; [|discriminate].
    intros [= <-]. constructor; [apply Hout|]. eapply IH. exact Erec.
Qed.

End enricher.

Section stages.
Import Py models transformers.
Context `{RT : Runtime} `{AR : Arith}.

Lemma bind_Ok_l {A B} (a : A) (k : A -> result B) : Ok a ≫= k = k a.
Proof. reflexivity. Qed.

Lemma enrich_stock_data_cons clock first (c : record) cs :
  enrich_stock_data clock first (c :: cs)
  = _enrich_stock_record (clock first) c ≫= fun e =>
    enrich_stock_data clock (Datatypes.S first) cs ≫= fun es => Ok (e :: es).
Proof. reflexivity. Qed.

Lemma invalid_from_cons i (r : record) data :
  invalid_from i (r :: data)
  = invalid_entries i r ≫= fun here =>
    invalid_from (Datatypes.S i) data ≫= fun rest => Ok (here ++ rest).
Proof. reflexivity. Qed.

Lemma cleaned_stock_is_enrichable (stock c : record) :
  (forall k v, In k ["market_cap"; "sector"] -> stock !! k = Some v ->
               scalar v = true) ->
  _clean_stock_record stock = Some c ->
  (forall v, c !! "market_cap" = Some v -> truthy v = true -> number v = true) /\
  (forall v, c !! "sector" = Some v -> truthy v = true -> scalar v = true).
Proof.
  intros Hplain Hc.
  destruct (clean_stock_record_lookup stock) as (c' & Hc' & Hlook).
  rewrite Hc in Hc'. injection Hc' as <-. split.
  - intros v. rewrite Hlook. split_decide; [discriminate|].
    split_decide; [|congruence].
    rewrite without_none_lookup.
    destruct (stock !! "market_cap") as [v0|] eqn:E0; [|discriminate].
    pose proof (Hplain "market_cap" v0 (or_introl eq_refl) E0) as Hs.
    destruct v0; try discriminate; simpl; intros [= <-]; try reflexivity.
    unfold _parse_market_cap. destruct (float_of_str _); [reflexivity|discriminate].
  - intros v. rewrite Hlook. repeat (split_decide; [discriminate|]).
    rewrite without_none_lookup.
    destruct (stock !! "sector") as [v0|] eqn:E0; [|discriminate].
    pose proof (Hplain "sector" v0 (or_intror (or_introl eq_refl)) E0) as Hs.
    destruct v0; try discriminate; intros [= <-] _; reflexivity.
Qed.

(** X28. Cleaning followed by enrichment, as [transform_data] chains them,
    returns one enriched record for every input record whenever the market
    cap and the sector of the input records are not lists or dicts: a
    market cap given as text is parsed or set to [None] by the cleaner, so
    the comparison in [_categorize_market_cap] never sees a string. *)
Theorem cleaned_stocks_with_plain_fields_are_enriched
    (clock : nat -> string) (first : nat) (stocks : list record) :
  Forall (fun stock => forall k v, In k ["market_cap"; "sector"] ->
                                   stock !! k = Some v -> scalar v = true) stocks ->
  exists enriched,
    enrich_stock_data clock first (clean_stock_data stocks) = Ok enriched /\
    length enriched = length stocks /\
    Forall2 (fun c e => forall k, ~ In k enrichment_keys -> e !! k = c !! k)
            (clean_stock_data stocks) enriched.
Proof.
  intros Hplain. revert first.
  induction Hplain as [|stock stocks Hstock _ IH]; intros first.
  - exists []. repeat split; constructor.
  - unfold clean_stock_data in *.
    change (flat_map (fun stock => keep (_clean_stock_record stock)) (stock :: stocks))
      with (keep (_clean_stock_record stock)
            ++ flat_map (fun stock => keep (_clean_stock_record stock)) stocks).
    destruct (keep_cleaned_stock stock) as (c & Hc & ->).
    destruct (cleaned_stock_is_enrichable stock c Hstock Hc) as (Hcap & Hsec).
    destruct (enrich_stock_record_returns (clock first) c Hcap Hsec) as (e & He & Hkeep).
    destruct (IH (Datatypes.S first)) as (es & Hes & Hlen & Hall).
    exists (e :: es). cbn [app].
    rewrite enrich_stock_data_cons, He, bind_Ok_l, Hes, bind_Ok_l.
    split; [reflexivity|]. split; [cbn [length]; now rewrite Hlen|]. now constructor.
Qed.

Lemma invalid_entries_outcome i (r : record) :
  match invalid_entries i r with
  | Ok l => (length l <= 2)%nat /\ forall s, r !! "price" <> Some (PStr s)
  | Raise e => e = TypeError
  end.
Proof.
  unfold invalid_entries.
  destruct (r !! "price") as [p|].
  - destruct p; simpl; try reflexivity;
      destruct (r !! "volume") as [v|]; try destruct v; simpl;
      repeat match goal with
             | |- context [if ?b then _ else _] => destruct b; simpl
             end;
      try reflexivity; (split; [lia|discriminate]).
  - simpl. destruct (r !! "volume") as [v|]; try destruct v; simpl;
      repeat match goal with
             | |- context [if ?b then _ else _] => destruct b; simpl
             end;
      try reflexivity; (split; [lia|discriminate]).
Qed.

Lemma invalid_entries_cleaned i (c : record) :
  quote_shape c -> exists l, invalid_entries i c = Ok l /\ (length l <= 2)%nat.
Proof.
  intros (_ & Hnum & _ & _).
  pose proof (invalid_entries_outcome i c) as Hout.
  destruct (invalid_entries i c) as [l|e] eqn:E; [exists l; split; [reflexivity|apply Hout]|].
  exfalso. clear Hout. unfold invalid_entries in E.
  assert (Hp : forall v, c !! "price" = Some v -> v = PNone \/ exists f, v = PFloat f).
  { intros v. apply Hnum. simpl. tauto. }
  assert (Hv : forall v, c !! "volume" = Some v -> v = PNone \/ exists f, v = PFloat f).
  { intros v. apply Hnum. simpl. tauto. }
  destruct (c !! "price") as [p|].
  - destruct (Hp p eq_refl) as [->|(f & ->)]; simpl in E;
      (destruct (c !! "volume") as [v|];
       [destruct (Hv v eq_refl) as [->|(g & ->)]|]); simpl in E; discriminate.
  - simpl in E.
    destruct (c !! "volume") as [v|];
      [destruct (Hv v eq_refl) as [->|(g & ->)]|]; simpl in E; discriminate.
Qed.

Lemma invalid_from_cleaned data : forall i,
  Forall quote_shape data ->
  exists l, invalid_from i data = Ok l /\ (length l <= 2 * length data)%nat.
Proof.
  induction data as [|c data IH]; intros i Hall.
  - exists []. split; [reflexivity|simpl; lia].
  - apply Forall_cons in Hall. destruct Hall as [Hc Hall].
    destruct (invalid_entries_cleaned i c Hc) as (here & Hhere & Hlen).
    destruct (IH (Datatypes.S i) Hall) as (rest & Hrest & Hlen').
    exists (here ++ rest).
    rewrite invalid_from_cons, Hhere, bind_Ok_l, Hrest, bind_Ok_l.
    split; [reflexivity|]. rewrite length_app. cbn [length]. lia.
Qed.

(** X29. The validity check of a batch cleaned by [clean_quote_data] never
    raises: the price and the volume it compares with zero are floats or
    [None]. It reports at most two invalid entries for each record. *)
Theorem validity_check_of_cleaned_quotes_returns (quotes : list record) :
  exists check,
    _check_validity (clean_quote_data quotes) "stock_quotes" = Ok check /\
    validity_data_source check = STOCK_QUOTES /\
    validity_record_count check = Z.of_nat (length (clean_quote_data quotes)) /\
    (length (invalid_records check) <= 2 * length (clean_quote_data quotes))%nat.
Proof.
  destruct (invalid_from_cleaned (clean_quote_data quotes) 0
              (clean_quote_data_shape quotes)) as (l & Hl & Hlen).
  unfold _check_validity. cbn [String.eqb Ascii.eqb Bool.eqb]. rewrite Hl.
  eexists. split; [reflexivity|]. simpl. auto.
Qed.

Lemma invalid_from_text_price data : forall i r s,
  In r data -> r !! "price" = Some (PStr s) ->
  invalid_from i data = Raise TypeError.
Proof.
  induction data as [|r0 data IH]; intros i r s Hin Hprice; [destruct Hin|].
  rewrite invalid_from_cons.
  pose proof (invalid_entries_outcome i r0) as Hout.
  destruct (invalid_entries i r0) as [here|e]; [|now rewrite Hout].
  destruct Hin as [->|Hin]; [exfalso; now apply (proj2 Hout s)|].
  now rewrite bind_Ok_l, (IH (Datatypes.S i) r s Hin Hprice).
Qed.

(** X30. [transform_data] cleans every batch with [clean_stock_data], which
    leaves a price given as text as it is. For a batch of stock quotes
    holding such a price, the stages that follow raise [TypeError]: the
    enrichment, or else the validity check when it compares the price with
    zero. *)
Theorem text_price_raises_type_error_after_stock_cleaning
    (clock : nat -> string) (data : list record) (quote : record) (s : string) :
  In quote data -> quote !! "price" = Some (PStr s) ->
  match enrich_stock_data clock 0 (clean_stock_data data) with
  | Ok enriched => _check_validity enriched "stock_quotes" = Raise TypeError
  | Raise e => e = TypeError
  end.
Proof.
  intros Hin Hprice.
  destruct (enrich_stock_data clock 0 (clean_stock_data data)) as [enriched|e] eqn:Eenrich;
    [|eapply enrich_stock_data_raises; exact Eenrich].
  apply enrich_stock_data_keeps in Eenrich.
  assert (Hclean : exists c, In c (clean_stock_data data) /\
                             c !! "price" = Some (PStr s)).
  { destruct (keep_cleaned_stock quote) as (c & Hc & Hkeep).
    exists c. split.
    - unfold clean_stock_data. apply in_flat_map. exists quote.
      split; [exact Hin|]. rewrite Hkeep. now left.
    - destruct (clean_stock_record_lookup quote) as (c' & Hc' & Hlook).
      rewrite Hc in Hc'. injection Hc' as <-.
      rewrite Hlook. repeat (split_decide; [discriminate|]).
      now rewrite without_none_lookup, Hprice. }
  destruct Hclean as (c & Hc & Hcp).
  assert (Henr : exists e, In e enriched /\ e !! "price" = Some (PStr s)).
  { clear -Eenrich Hc Hcp. induction Eenrich as [|c0 e0 cs es Hkeep _ IH]; [destruct Hc|].
    destruct Hc as [->|Hc].
    - exists e0. split; [now left|]. rewrite Hkeep; [exact Hcp|].
      unfold enrichment_keys. simpl. intros H.
      repeat (destruct H as [H|H]; [discriminate H|]). exact H.
    - destruct (IH Hc) as (e & He & Hep). exists e. split; [now right|exact Hep]. }
  destruct Henr as (e & He & Hep).
  unfold _check_validity. cbn [String.eqb Ascii.eqb Bool.eqb].
  now rewrite (invalid_from_text_price enriched 0 e s He Hep).
Qed.

End stages.

Section transformers_more_examples.
Import Py models transformers samples.

Lemma cleaned_stocks_with_plain_fields_are_enriched_witness :
  exists enriched,
    enrich_stock_data iso_clock 0
      (clean_stock_data (RT := reference.runtime) [stock_with_unparsed_cap])
    = Ok enriched /\
    length enriched = length [stock_with_unparsed_cap] /\
    Forall2 (fun c e => forall k, ~ In k enrichment_keys -> e !! k = c !! k)
            (clean_stock_data (RT := reference.runtime) [stock_with_unparsed_cap])
            enriched.
Proof.
  apply (cleaned_stocks_with_plain_fields_are_enriched (RT := reference.runtime)
           iso_clock 0 [stock_with_unparsed_cap]).
  constructor; [|constructor].
  intros k v [<-|[<-|[]]]; vm_compute; intros [= <-]; reflexivity.
Defined.

Lemma text_price_raises_type_error_after_stock_cleaning_witness :
  match enrich_stock_data iso_clock 0
          (clean_stock_data (RT := reference.runtime) [quote_with_text_price]) with
  | Ok enriched =>
      _check_validity (AR := binary64) enriched "stock_quotes" = Raise TypeError
  | Raise e => e = TypeError
  end.
Proof.
  apply (text_price_raises_type_error_after_stock_cleaning (RT := reference.runtime)
           (AR := binary64) iso_clock [quote_with_text_price] quote_with_text_price
           "$1,234.50").
  - now left.
  - reflexivity.
Defined.

(** An integer of 400 digits in a numeric field makes the quote cleaner
    drop the record; the stock cleaner keeps it. *)
Example huge_integer_drops_the_quote :
  clean_quote_data (RT := reference.runtime) [quote_with_huge_volume] = [] /\
  length (clean_stock_data (RT := reference.runtime) [quote_with_huge_volume]) = 1%nat.
Proof. vm_compute. split; reflexivity. Qed.

(** The enrichment of a record whose market cap is a list raises. *)
Example list_market_cap_raises :
  _enrich_stock_record "2024-01-01T00:00:00"
    ({[ "symbol" := PStr "AAPL"; "market_cap" := PList [PInt 1] ]} : record)
  = Raise TypeError.
Proof. vm_compute. reflexivity. Qed.

End transformers_more_examples.
